(** * LifeCode: a shallow embedding of the simulation engine of [1.py]

    The program keeps three 50 x 50 numpy arrays ([grid], [nutrient_map],
    [history_map]), a phase accumulator and a rule string ("DNA") in module
    globals, and advances them once per frame of its main loop.

    Conventions of the embedding:
    - Python [int]s are [Z]; numpy [int64] arithmetic is [Z] arithmetic
      followed by [wrap64];
    - Python [float]s and numpy [float64]s are IEEE binary64, i.e. Rocq's
      primitive [float]s, with the same rounding;
    - a numpy array of shape (50, 50) is a list of rows, indexed [a[y][x]];
    - list and set objects live in an object store and are named by
      references, as in Python, so that aliasing is visible;
    - the pseudo random generator is an entropy tape with a cursor;
    - exceptions are an outcome next to the state they leave behind. *)

From Stdlib Require Import ZArith Lia Bool Ascii String.
From Stdlib Require Import Floats.
From stdpp Require Import base option list sets gmap sorting.

Local Open Scope Z_scope.
Set Warnings "-inexact-float".

(** ** Python and numpy values *)

Module Py.

(** numpy's [int64]: the result of an arithmetic operation is reduced to
    the interval [-2^63, 2^63). *)
Definition wrap64 (z : Z) : Z := (z + 2 ^ 63) mod 2 ^ 64 - 2 ^ 63.

(** [float(n)] for the small non-negative integers the program
    converts (loop indices): exact. *)
Definition float_of_int (n : Z) : float := PrimFloat.of_uint63 (Uint63.of_Z n).

(** The builtins [min(a, b)] and [max(a, b)]: the first argument is kept
    unless the second is strictly smaller (resp. larger). *)
Definition min_int (a b : Z) : Z := if b <? a then b else a.
Definition max_int (a b : Z) : Z := if a <? b then b else a.
Definition min_float (a b : float) : float := if PrimFloat.ltb b a then b else a.
Definition max_float (a b : float) : float := if PrimFloat.ltb a b then b else a.

(** [range(n)] *)
Definition range (n : Z) : list Z := Z.of_nat <$> seq 0 (Z.to_nat n).

(** [for i in range(n): s = body i s] *)
Definition for_range {S : Type} (n : Z) (body : Z -> S -> S) (s : S) : S :=
  foldl (fun s i => body i s) s (range n).

(** [x in l] for a list of integers *)
Definition contains (l : list Z) (x : Z) : bool := existsb (Z.eqb x) l.

End Py.

(** ** Constants and arrays *)

Definition GRID_SIZE : Z := 50.

Abbreviation array A := (list (list A)) (only parsing).

(** [np.zeros((GRID_SIZE, GRID_SIZE))] *)
Definition zeros {A : Type} (zero : A) : array A :=
  replicate (Z.to_nat GRID_SIZE) (replicate (Z.to_nat GRID_SIZE) zero).

(** [a[y][x]].  numpy raises [IndexError] outside the array; the embedding
    returns [d] there, and [get2_inside] below shows that a read at indices
    within [0, GRID_SIZE) of an array of the right shape is a real read. *)
Definition get2 {A : Type} (d : A) (a : array A) (y x : Z) : A :=
  default d (a !! Z.to_nat y ≫= fun row => row !! Z.to_nat x).

(** [a[y][x] = v], in place. *)
Definition set2 {A : Type} (a : array A) (y x : Z) (v : A) : array A :=
  alter (fun row => <[Z.to_nat x := v]> row) (Z.to_nat y) a.

(** The shape numpy fixes at creation: GRID_SIZE rows of GRID_SIZE cells. *)
Definition shaped {A : Type} (a : array A) : Prop :=
  length a = Z.to_nat GRID_SIZE /\
  Forall (fun row => length row = Z.to_nat GRID_SIZE) a.

Definition in_grid (x y : Z) : Prop :=
  0 <= x < GRID_SIZE /\ 0 <= y < GRID_SIZE.

(** ** [count_neighbors] *)

Definition count_neighbors (grid : array Z) (x y : Z) : Z :=
  foldl (fun total dy =>
    foldl (fun total dx =>
      if (dx =? 0) && (dy =? 0) then total
      else
        let nx := (x + dx) mod GRID_SIZE in
        let ny := (y + dy) mod GRID_SIZE in
        Py.wrap64 (total + get2 0 grid ny nx))
      total [-1; 0; 1])
    0 [-1; 0; 1].

(** ** The object store

    [birth] and [survive] are Python lists, [rules] in [maybe_flip] is a
    Python set: objects that are passed by reference and may be mutated in
    place.  The store maps a reference to the object's current value;
    allocation appends, so references are never reused. *)

Inductive PyObj : Type :=
  | PyList (items : list Z)
  | PySet (elems : gset Z).

Abbreviation ref := nat (only parsing).
Abbreviation Store := (list PyObj) (only parsing).

Definition alloc (o : PyObj) (st : Store) : ref * Store := (length st, st ++ [o]).

(** The value of the list, resp. set, a reference names.  In a run every
    reference names an object of the kind it is used at; elsewhere these
    return the empty list and the empty set. *)
Definition list_at (st : Store) (r : ref) : list Z :=
  match st !! r with Some (PyList l) => l | _ => [] end.

Definition set_at (st : Store) (r : ref) : gset Z :=
  match st !! r with Some (PySet s) => s | _ => ∅ end.

(** [rules.add(val)] and [rules.remove(val)]: in place *)
Definition set_add (r : ref) (val : Z) (st : Store) : Store :=
  <[r := PySet ({[val]} ∪ set_at st r)]> st.
Definition set_remove (r : ref) (val : Z) (st : Store) : Store :=
  <[r := PySet (set_at st r ∖ {[val]})]> st.

(** [sorted(rules)]: the elements in increasing order *)
Definition sorted (s : gset Z) : list Z := merge_sort Z.le (elements s).

(** ** The [random] module

    The generator is a tape of entropy with a cursor.  Every call consumes
    one entry: [random()] reads it as a float, the integer primitives
    ([choice], [randint]) reduce it below their bound, so that every outcome
    the library can produce is the outcome of some tape.  Which values a
    real generator produces, and how likely they are, is out of scope;
    [rng_ok] records the documented range [0.0, 1.0) of [random()]. *)

Record Entropy : Type := mkEntropy { as_unit : float; as_index : Z }.

Record Rng : Type := mkRng { tape : nat -> Entropy; cursor : nat }.

Definition advance (g : Rng) : Rng := mkRng (tape g) (S (cursor g)).

Definition random (g : Rng) : float * Rng :=
  (as_unit (tape g (cursor g)), advance g).

Definition randbelow (n : Z) (g : Rng) : Z * Rng :=
  (as_index (tape g (cursor g)) mod n, advance g).

(** [random.choice(seq)] for a non-empty list of strings *)
Definition choice (seq : list string) (g : Rng) : string * Rng :=
  let (i, g) := randbelow (Z.of_nat (length seq)) g in
  (nth (Z.to_nat i) seq EmptyString, g).

(** [random.randint(a, b)], both ends included *)
Definition randint (a b : Z) (g : Rng) : Z * Rng :=
  let (i, g) := randbelow (b - a + 1) g in (a + i, g).

Definition unit_interval (r : float) : Prop :=
  PrimFloat.leb 0 r = true /\ PrimFloat.ltb r 1 = true.

Definition rng_ok (g : Rng) : Prop := forall i, unit_interval (as_unit (tape g i)).

(** ** Program state: the module globals, the store and the generator *)

Record State : Type := mkState {
  DNA : string;
  grid : list (list Z);
  nutrient_map : list (list float);
  history_map : list (list Z);
  wave_phase : float;
  store : list PyObj;
  rng : Rng;
}.

Definition with_DNA (v : string) (s : State) : State :=
  mkState v (grid s) (nutrient_map s) (history_map s) (wave_phase s) (store s) (rng s).
Definition with_grid (v : list (list Z)) (s : State) : State :=
  mkState (DNA s) v (nutrient_map s) (history_map s) (wave_phase s) (store s) (rng s).
Definition with_nutrient_map (v : list (list float)) (s : State) : State :=
  mkState (DNA s) (grid s) v (history_map s) (wave_phase s) (store s) (rng s).
Definition with_history_map (v : list (list Z)) (s : State) : State :=
  mkState (DNA s) (grid s) (nutrient_map s) v (wave_phase s) (store s) (rng s).
Definition with_wave_phase (v : float) (s : State) : State :=
  mkState (DNA s) (grid s) (nutrient_map s) (history_map s) v (store s) (rng s).
Definition with_store (v : list PyObj) (s : State) : State :=
  mkState (DNA s) (grid s) (nutrient_map s) (history_map s) (wave_phase s) v (rng s).
Definition with_rng (v : Rng) (s : State) : State :=
  mkState (DNA s) (grid s) (nutrient_map s) (history_map s) (wave_phase s) (store s) v.

(** ** [randomize_grid] and [generate_nutrient_map] *)

Definition randomize_grid (s : State) : State :=
  Py.for_range GRID_SIZE (fun y =>
    Py.for_range GRID_SIZE (fun x s =>
      let (r, g) := random (rng s) in
      let s := with_rng g s in
      let s := with_grid (set2 (grid s) y x (if PrimFloat.ltb r 0.2 then 1 else 0)) s in
      with_history_map (set2 (history_map s) y x 0) s)) s.

Definition generate_nutrient_map (s : State) : State :=
  Py.for_range GRID_SIZE (fun y =>
    Py.for_range GRID_SIZE (fun x s =>
      let (r, g) := random (rng s) in
      let s := with_rng g s in
      with_nutrient_map (set2 (nutrient_map s) y x r) s)) s.

(** ** [mutate_rule] *)

Definition maybe_flip (mutation_rate : float) (ruleset : ref) (s : State) : ref * State :=
  (* rules = set(ruleset) *)
  let (rules, st) := alloc (PySet (list_to_set (list_at (store s) ruleset))) (store s) in
  let s := with_store st s in
  let (r, g) := random (rng s) in
  let s := with_rng g s in
  let s :=
    if PrimFloat.ltb r mutation_rate then
      let (op, g) := choice ["add"; "remove"]%string (rng s) in
      let s := with_rng g s in
      let (val, g) := randint 0 8 (rng s) in
      let s := with_rng g s in
      if String.eqb op "add" then
        with_store (set_add rules val (store s)) s
      else if String.eqb op "remove" && bool_decide (val ∈ set_at (store s) rules) then
        with_store (set_remove rules val (store s)) s
      else s
    else s in
  (* return sorted(rules) *)
  let (res, st) := alloc (PyList (sorted (set_at (store s) rules))) (store s) in
  (res, with_store st s).

Definition mutate_rule (birth survive : ref) (mutation_rate : float) (s : State)
  : (ref * ref) * State :=
  let (b, s) := maybe_flip mutation_rate birth s in
  let (sv, s) := maybe_flip mutation_rate survive s in
  ((b, sv), s).

(** ** Strings, [int()] and [float()]

    A Python [str] is modelled by [string]: a sequence of characters with
    code points below 256.  [float_of_str] follows the grammar of the
    language reference for [float(s)]; the value is the decimal rounded to
    the nearest binary64, ties to even. *)

Module Str.

Definition code (c : ascii) : Z := Z.of_N (N_of_ascii c).

Definition is_digit (c : ascii) : bool := (48 <=? code c) && (code c <=? 57).

Definition digit_value (c : ascii) : Z := code c - 48.

(** The whitespace [float] strips from both ends: tab to carriage return
    and the space, and, of the code points from 128 on, those that are
    whitespace (they are replaced by a space before the text is read).  The
    separators 28 to 31 are not among them: [float] raises on them. *)
Definition is_space (c : ascii) : bool :=
  let n := code c in
  ((9 <=? n) && (n <=? 13)) || (n =? 32) || (n =? 133) || (n =? 160).

(** [s.split(sep)] for a one-character separator: never empty. *)
Fixpoint split (sep : ascii) (s : string) : list string :=
  match s with
  | EmptyString => [EmptyString]
  | String c s' =>
      if Ascii.eqb c sep then EmptyString :: split sep s'
      else match split sep s' with
           | p :: ps => String c p :: ps
           | [] => [String c EmptyString]
           end
  end.

(** [s[1:]] *)
Definition drop_first (s : string) : string :=
  match s with
  | EmptyString => EmptyString
  | String _ s' => s'
  end.

(** [int(n)] for a one-character string [n]: [None] is [ValueError]. *)
Definition int_of_char (c : ascii) : option Z :=
  if is_digit c then Some (digit_value c) else None.

(** [[int(n) for n in s]] *)
Definition ints_of (s : string) : option (list Z) :=
  mapM int_of_char (list_ascii_of_string s).

(** *** [float(s)] *)

Definition lower (c : ascii) : ascii :=
  if (65 <=? code c) && (code c <=? 90)
  then ascii_of_N (N_of_ascii c + 32) else c.

Fixpoint drop_spaces (s : list ascii) : list ascii :=
  match s with
  | c :: s' => if is_space c then drop_spaces s' else s
  | [] => []
  end.

Definition strip (s : list ascii) : list ascii :=
  reverse (drop_spaces (reverse (drop_spaces s))).

(** [digit (["_"] digit)*] after its first digit: the digits read and the
    rest of the input. *)
Fixpoint digits_tail (s : list ascii) : list Z * list ascii :=
  match s with
  | c :: s' =>
      if is_digit c then
        let (ds, r) := digits_tail s' in (digit_value c :: ds, r)
      else if Ascii.eqb c "_" then
        match s' with
        | d :: s'' =>
            if is_digit d then
              let (ds, r) := digits_tail s'' in (digit_value d :: ds, r)
            else ([], s)
        | [] => ([], s)
        end
      else ([], s)
  | [] => ([], [])
  end.

(** [digitpart], when the input starts with one; no digits otherwise. *)
Definition digitpart (s : list ascii) : list Z * list ascii :=
  match s with
  | c :: s' =>
      if is_digit c then
        let (ds, r) := digits_tail s' in (digit_value c :: ds, r)
      else ([], s)
  | [] => ([], [])
  end.

(** An optional sign: [true] for "-". *)
Definition sign (s : list ascii) : bool * list ascii :=
  match s with
  | c :: s' =>
      if Ascii.eqb c "-" then (true, s')
      else if Ascii.eqb c "+" then (false, s')
      else (false, s)
  | [] => (false, [])
  end.

(** The number a list of decimal digits denotes. *)
Definition of_digits (ds : list Z) : Z := foldl (fun n d => 10 * n + d) 0 ds.

(** [m * 10^e] with the sign [neg], rounded to binary64. *)
Definition decimal (neg : bool) (m e : Z) : float :=
  match m with
  | Zpos p =>
      if 0 <=? e
      then
        let n := Zpos p * 10 ^ e in
        SF2Prim (binary_normalize prec emax (if neg then - n else n) 0 neg)
      else SF2Prim (SFdiv prec emax (S754_finite neg p 0)
                      (S754_finite false (Z.to_pos (10 ^ (- e))) 0))
  | _ => if neg then (-0)%float else 0%float
  end.

(** [[e|E] [sign] digitpart], when the input starts with "e" or "E";
    [None] when that letter is not followed by an exponent. *)
Definition exponent (s : list ascii) : option (Z * list ascii) :=
  match s with
  | c :: s' =>
      if Ascii.eqb (lower c) "e" then
        let (neg, s1) := sign s' in
        match digitpart s1 with
        | ([], _) => None
        | (ds, r) => Some (if neg then - of_digits ds else of_digits ds, r)
        end
      else Some (0, s)
  | [] => Some (0, [])
  end.

(** [floatnumber]: the whole input has to be one. *)
Definition floatnumber (neg : bool) (s : list ascii) : option float :=
  let (ip, s1) := digitpart s in
  let '(fp, s2) :=
    match s1 with
    | c :: s1' => if Ascii.eqb c "." then digitpart s1' else ([], s1)
    | [] => ([], s1)
    end in
  match ip ++ fp with
  | [] => None
  | ds =>
      match exponent s2 with
      | Some (e, []) => Some (decimal neg (of_digits ds) (e - Z.of_nat (length fp)))
      | _ => None
      end
  end.

Definition is_word (w : string) (s : list ascii) : bool :=
  bool_decide (map lower s = list_ascii_of_string w).

(** [float(s)]: [None] is [ValueError]. *)
Definition float_of_str (s : string) : option float :=
  let (neg, body) := sign (strip (list_ascii_of_string s)) in
  if is_word "inf" body || is_word "infinity" body then
    Some (if neg then neg_infinity else infinity)
  else if is_word "nan" body then Some nan
  else floatnumber neg body.

End Str.

(** ** Exceptions *)

Inductive exn : Type := ValueError.

Inductive outcome (A : Type) : Type :=
  | Returned (a : A)
  | Raised (e : exn).
Arguments Returned {A} a.
Arguments Raised {A} e.

(** ** [parse_dna]

    Unpacking the result of [split] into two names raises [ValueError]
    unless there are exactly two parts; [int] and [float] raise
    [ValueError] on text they do not accept.  The two lists are new
    objects. *)
Definition parse_dna (dna_string : string) (s : State)
  : outcome (ref * ref * float) * State :=
  match Str.split "/" dna_string with
  | [b_part; rest] =>
      match Str.split "|" rest with
      | [s_part; m_part] =>
          match Str.ints_of (Str.drop_first b_part) with
          | Some bs =>
              let (birth, st) := alloc (PyList bs) (store s) in
              let s := with_store st s in
              match Str.ints_of (Str.drop_first s_part) with
              | Some ss =>
                  let (survive, st) := alloc (PyList ss) (store s) in
                  let s := with_store st s in
                  match Str.float_of_str (Str.drop_first m_part) with
                  | Some mutation => (Returned (birth, survive, mutation), s)
                  | None => (Raised ValueError, s)
                  end
              | None => (Raised ValueError, s)
              end
          | None => (Raised ValueError, s)
          end
      | _ => (Raised ValueError, s)
      end
  | _ => (Raised ValueError, s)
  end.

(** ** [animate_nutrients]

    [math.sin] is the C library's sine; primitive floats have no such
    operation, so the embedding takes it as a parameter. *)

Section Engine.

Variable math_sin : float -> float.

Definition animate_nutrients (s : State) : State :=
  let s := with_wave_phase (wave_phase s + 0.05)%float s in
  Py.for_range GRID_SIZE (fun y =>
    Py.for_range GRID_SIZE (fun x s =>
      let wave :=
        (0.5 + 0.5 * math_sin (wave_phase s + Py.float_of_int x * 0.1
                                            + Py.float_of_int y * 0.1))%float in
      let base := get2 0%float (nutrient_map s) y x in
      with_nutrient_map
        (set2 (nutrient_map s) y x
           (Py.max_float 0 (Py.min_float 1 (0.7 * base + 0.3 * wave)%float))) s)) s.

(** The value [animate_nutrients] writes to cell [(x, y)] when the phase it
    uses is [phase] and the cell held [base]. *)
Definition animated (phase : float) (x y : Z) (base : float) : float :=
  let wave :=
    (0.5 + 0.5 * math_sin (phase + Py.float_of_int x * 0.1
                                 + Py.float_of_int y * 0.1))%float in
  Py.max_float 0 (Py.min_float 1 (0.7 * base + 0.3 * wave)%float).

(** ** [update_grid] *)

(** [np.zeros_like(a)] *)
Definition zeros_like (a : list (list Z)) : list (list Z) := map (map (fun _ => 0)) a.

Definition update_cell (b_mut s_mut : ref) (x y : Z)
    (acc : list (list Z) * State) : list (list Z) * State :=
  let (new_grid, s) := acc in
  let neighbors := count_neighbors (grid s) x y in
  let nutrient_bonus := get2 0%float (nutrient_map s) y x in
  let new_grid :=
    if get2 0 (grid s) y x =? 1 then
      let survives := Py.contains (list_at (store s) s_mut) neighbors
                      || PrimFloat.ltb 0.9 nutrient_bonus in
      set2 new_grid y x (if survives then 1 else 0)
    else
      let born := Py.contains (list_at (store s) b_mut) neighbors
                  && PrimFloat.ltb 0.1 nutrient_bonus in
      set2 new_grid y x (if born then 1 else 0) in
  let s :=
    if get2 0 new_grid y x =? 1 then
      with_history_map
        (set2 (history_map s) y x
           (Py.min_int (Py.wrap64 (get2 0 (history_map s) y x + 1)) 255)) s
    else
      with_history_map
        (set2 (history_map s) y x
           (Py.max_int (Py.wrap64 (get2 0 (history_map s) y x - 1)) 0)) s in
  (new_grid, s).

Definition update_grid (birth survive : ref) (mutation : float) (s : State) : State :=
  let new_grid := zeros_like (grid s) in
  let '((b_mut, s_mut), s) := mutate_rule birth survive mutation s in
  let '(new_grid, s) :=
    Py.for_range GRID_SIZE (fun y =>
      Py.for_range GRID_SIZE (fun x => update_cell b_mut s_mut x y))
      (new_grid, s) in
  (* grid = new_grid *)
  with_grid new_grid s.

(** ** [main]

    The locals of [main] that the loop carries, the keys and console line
    one frame sees, and the whole program: locals, globals, and the
    exception that ended it, if any (nothing in [main] catches one). *)

Record Locals : Type := mkLocals {
  birth : nat;
  survive : nat;
  mutation : float;
  paused : bool;
}.

Record Keys : Type := mkKeys {
  KEY_SPACE : bool;
  KEY_R : bool;
  KEY_D : bool;
  console : string;
}.

Record Program : Type := mkProgram {
  locals : Locals;
  globals : State;
  raised : option exn;
}.

(** [dna_input_gui]: the line typed at the prompt, or the current [DNA] when
    the line is empty. *)
Definition dna_input_gui (user_input : string) (s : State) : string :=
  if String.eqb user_input "" then DNA s else user_input.

(** [DNA = dna_input_gui(); birth, survive, mutation = parse_dna(DNA)] *)
Definition edit_dna (user_input : string) (l : Locals) (s : State) : Program :=
  let s := with_DNA (dna_input_gui user_input s) s in
  match parse_dna (DNA s) s with
  | (Returned (b, sv, m), s) => mkProgram (mkLocals b sv m (paused l)) s None
  | (Raised e, s) => mkProgram l s (Some e)
  end.

(** One iteration of the [while] loop, drawing apart. *)
Definition frame (k : Keys) (p : Program) : Program :=
  match raised p with
  | Some _ => p
  | None =>
      let l := locals p in
      let s := globals p in
      let l := if KEY_SPACE k
               then mkLocals (birth l) (survive l) (mutation l) (negb (paused l))
               else l in
      let s := if KEY_R k then generate_nutrient_map (randomize_grid s) else s in
      let p := if KEY_D k then edit_dna (console k) l s else mkProgram l s None in
      match raised p with
      | Some _ => p
      | None =>
          let l := locals p in
          let s := animate_nutrients (globals p) in
          let s := if paused l then s
                   else update_grid (birth l) (survive l) (mutation l) s in
          mkProgram l s None
      end
  end.

(** The loop over the frames shown until the window closes. *)
Definition run (ks : list Keys) (p : Program) : Program :=
  foldl (fun p k => frame k p) p ks.

(** The module-level initial values. *)
Definition initial (g : Rng) : State :=
  mkState "B3/S23|M0.01" (zeros 0) (zeros 0%float) (zeros 0) 0%float [] g.

(** [main] up to the loop: the first prompt, then the two random fills. *)
Definition start (user_input : string) (g : Rng) : Program :=
  let p := edit_dna user_input (mkLocals 0%nat 0%nat 0%float false) (initial g) in
  match raised p with
  | Some _ => p
  | None =>
      mkProgram (mkLocals (birth (locals p)) (survive (locals p))
                   (mutation (locals p)) false)
        (generate_nutrient_map (randomize_grid (globals p))) None
  end.

End Engine.

(** * Pointwise descriptions and invariants *)

(** Where the loop over the cells stands: cell [(x', y')] comes before
    cell [(x, y)]. *)
Definition before (y' x' y x : Z) : Prop := y' < y \/ (y' = y /\ x' < x).

(** The value [update_grid] writes to cell [(x, y)] of the new grid, from the
    grid [g], the nutrient field [nut] and the two mutated lists. *)
Definition next_cell (g : list (list Z)) (nut : list (list float))
    (b_mut s_mut : list Z) (x y : Z) : Z :=
  let neighbors := count_neighbors g x y in
  if get2 0 g y x =? 1 then
    if Py.contains s_mut neighbors || PrimFloat.ltb 0.9 (get2 0%float nut y x)
    then 1 else 0
  else
    if Py.contains b_mut neighbors && PrimFloat.ltb 0.1 (get2 0%float nut y x)
    then 1 else 0.

(** The value [update_grid] writes to a cell of [history_map], from the new
    value of the cell and the old history. *)
Definition next_history (cell h : Z) : Z :=
  if cell =? 1 then Py.min_int (Py.wrap64 (h + 1)) 255
  else Py.max_int (Py.wrap64 (h - 1)) 0.

(** The three arrays have the shape they were created with. *)
Definition well_formed (s : State) : Prop :=
  shaped (grid s) /\ shaped (nutrient_map s) /\ shaped (history_map s).

(** Every cell of [grid] is 0 or 1. *)
Definition binary (g : list (list Z)) : Prop :=
  forall x y, in_grid x y -> get2 0 g y x = 0 \/ get2 0 g y x = 1.

(** Every cell of [history_map] is within [0, 255]. *)
Definition history_bounded (h : list (list Z)) : Prop :=
  forall x y, in_grid x y -> 0 <= get2 0 h y x <= 255.

(** [s'] differs from [s] at most in the store and the generator, and only
    by new objects and a moved cursor. *)
Definition extends (s s' : State) : Prop :=
  DNA s' = DNA s /\ grid s' = grid s /\ nutrient_map s' = nutrient_map s /\
  history_map s' = history_map s /\ wave_phase s' = wave_phase s /\
  tape (rng s') = tape (rng s) /\
  (length (store s) <= length (store s'))%nat /\
  (forall r : nat, (r < length (store s))%nat -> store s' !! r = store s !! r).

(** The invariant of the loop of [update_grid], when cell [(x, y)] is next:
    [s1] is the state the loop started in, [acc] the new grid and the
    current state. *)
Definition update_inv (b_mut s_mut : nat) (s1 : State) (y x : Z)
    (acc : list (list Z) * State) : Prop :=
  let (new_grid, t) := acc in
  (DNA t = DNA s1 /\ grid t = grid s1 /\ nutrient_map t = nutrient_map s1 /\
   wave_phase t = wave_phase s1 /\ store t = store s1 /\ rng t = rng s1) /\
  shaped new_grid /\ shaped (history_map t) /\
  forall x' y', in_grid x' y' ->
    (before y' x' y x ->
       get2 0 new_grid y' x' =
         next_cell (grid s1) (nutrient_map s1)
           (list_at (store s1) b_mut) (list_at (store s1) s_mut) x' y' /\
       get2 0 (history_map t) y' x' =
         next_history (get2 0 new_grid y' x') (get2 0 (history_map s1) y' x')) /\
    (~ before y' x' y x ->
       get2 0 (history_map t) y' x' = get2 0 (history_map s1) y' x').

(** The grid whose only alive cell is [(0, 0)], and the eight cells around
    it on the torus, as [(x, y)]. *)
Definition single_cell : list (list Z) := set2 (zeros 0) 0 0 1.

Definition around_origin : list (Z * Z) :=
  [ (GRID_SIZE - 1, GRID_SIZE - 1); (GRID_SIZE - 1, 0); (0, GRID_SIZE - 1);
    (1, 1); (1, 0); (0, 1); (GRID_SIZE - 1, 1); (1, GRID_SIZE - 1) ].

(** What every reachable state satisfies: the arrays keep their shape, the
    grid holds 0 and 1 only, and the history stays within [0, 255]. *)
Definition state_ok (s : State) : Prop :=
  well_formed s /\ binary (grid s) /\ history_bounded (history_map s).

(** [s'] has the rule text of [s] and every object of its store, unchanged. *)
Definition keeps (s s' : State) : Prop :=
  DNA s' = DNA s /\
  (length (store s) <= length (store s'))%nat /\
  (forall r : nat, (r < length (store s))%nat -> store s' !! r = store s !! r).

(** ** Rule texts *)

(** [c in s] for a character [c]. *)
Fixpoint occurs (c : ascii) (s : string) : bool :=
  match s with
  | EmptyString => false
  | String d s' => Ascii.eqb d c || occurs c s'
  end.

(** [sep.join(parts)] for a one-character separator. *)
Fixpoint join (sep : ascii) (parts : list string) : string :=
  match parts with
  | [] => EmptyString
  | [p] => p
  | p :: ps => (p ++ String sep (join sep ps))%string
  end.

Definition digits_only (s : string) : Prop :=
  Forall (fun c => Str.is_digit c = true) (list_ascii_of_string s).

(** What [parse_dna] reads from a text, the store apart. *)
Definition dna_fields (text : string) : option (list Z * list Z * float) :=
  match Str.split "/" text with
  | [b_part; rest] =>
      match Str.split "|" rest with
      | [s_part; m_part] =>
          bs ← Str.ints_of (Str.drop_first b_part);
          ss ← Str.ints_of (Str.drop_first s_part);
          m ← Str.float_of_str (Str.drop_first m_part);
          Some (bs, ss, m)
      | _ => None
      end
  | _ => None
  end.



(** The characters a text accepted by [float] is made of. *)
Definition float_char (c : ascii) : bool :=
  Str.is_space c || Str.is_digit c
  || bool_decide (Str.lower c ∈ list_ascii_of_string "+-._einfaty").

Definition float_ok (c : ascii) : Prop := float_char c = true.

(** [pre] is what a reader consumed of [l] when it left [r]. *)
Definition consumed (l r : list ascii) : Prop :=
  exists pre, l = pre ++ r /\ Forall float_ok pre.

(** ** Conway's Game of Life, stated on its own

    The torus of side [GRID_SIZE]; a cell is alive when it holds 1.  An
    alive cell with two or three alive cells among the eight around it
    stays alive, a dead cell with exactly three becomes alive, every other
    cell is dead in the next generation. *)

Definition alive (g : list (list Z)) (x y : Z) : bool :=
  get2 0 g (y mod GRID_SIZE) (x mod GRID_SIZE) =? 1.

Definition moore (x y : Z) : list (Z * Z) :=
  (fun d : Z * Z => (x + d.1, y + d.2)) <$>
    [(-1, -1); (0, -1); (1, -1); (-1, 0); (1, 0); (-1, 1); (0, 1); (1, 1)].

Definition live_neighbours (g : list (list Z)) (x y : Z) : nat :=
  length (List.filter (fun c : Z * Z => alive g c.1 c.2) (moore x y)).

Definition conway_cell (g : list (list Z)) (x y : Z) : Z :=
  let n := live_neighbours g x y in
  if alive g x y
  then if Nat.eqb n 2 || Nat.eqb n 3 then 1 else 0
  else if Nat.eqb n 3 then 1 else 0.

Definition conway (g : list (list Z)) : list (list Z) :=
  (fun y => (fun x => conway_cell g x y) <$> Py.range GRID_SIZE) <$> Py.range GRID_SIZE.

(** A frame in which no key is pressed. *)
Definition quiet (k : Keys) : Prop :=
  KEY_SPACE k = false /\ KEY_R k = false /\ KEY_D k = false.

(** ** Concrete inputs for the examples *)

(** A polynomial that stands in for [math.sin] where an example has to
    run: the Taylor polynomial of degree 9 at 0. *)
Definition taylor_sin (x : float) : float :=
  let x2 := (x * x)%float in
  (x * (1 - x2 / 6 * (1 - x2 / 20 * (1 - x2 / 42 * (1 - x2 / 72)))))%float.

(** A generator whose every draw is 0.5 as a float and the call number as an
    integer. *)
Definition steady : Rng := mkRng (fun i => mkEntropy 0.5 (Z.of_nat i)) 0.

(** The rule B3/S23 with mutation rate [rate], as [parse_dna] leaves it when
    the store was empty: the two lists are objects 0 and 1. *)
Definition life_store : list PyObj := [PyList [3]; PyList [2; 3]].
Definition life_locals (rate : float) : Locals := mkLocals 0 1 rate false.

(** A running program with rule text [text] for that rule, on the grid [g],
    with every nutrient cell at [nut]. *)
Definition life_program (text : string) (rate : float)
    (g : list (list Z)) (nut : float) : Program :=
  mkProgram (life_locals rate)
    (mkState text g (zeros nut) (zeros 0) 0%float life_store steady) None.

(** The state [life_program] is loaded from. *)
Definition blank (g : list (list Z)) (nut : float) : State :=
  mkState "" g (zeros nut) (zeros 0) 0%float [] steady.

(** The grid in which exactly the listed cells [(x, y)] are alive. *)
Definition paint (cells : list (Z * Z)) : list (list Z) :=
  foldl (fun g c => set2 g c.2 c.1 1) (zeros 0) cells.

Definition block : list (list Z) := paint [(10, 10); (11, 10); (10, 11); (11, 11)].
Definition corner_block : list (list Z) := paint [(0, 0); (49, 0); (0, 49); (49, 49)].
Definition blinker_flat : list (list Z) := paint [(10, 10); (11, 10); (12, 10)].
Definition blinker_upright : list (list Z) := paint [(11, 9); (11, 10); (11, 11)].

(** The state of [life_program] with mutation rate 0 and nutrient 0.5. *)
Definition life_state (g : list (list Z)) : State := globals (life_program "B3/S23|M0" 0 g 0.5).

(** The rule B/S012345678 with mutation rate 0, parsed, on the grid
    [block]: under it an alive cell stays alive. *)
Definition evergreen : Program :=
  mkProgram (mkLocals 0 1 0%float false)
    (mkState "B/S012345678|M0" block (zeros 0.5%float) (zeros 0) 0%float
       [PyList []; PyList [0; 1; 2; 3; 4; 5; 6; 7; 8]] steady) None.

Definition no_keys : Keys := mkKeys false false false "".

(** ** Further descriptions *)

(** [r] is a number between 0.0 and 1.0, both included. *)
Definition in_unit (r : float) : Prop :=
  PrimFloat.leb 0 r = true /\ PrimFloat.leb r 1 = true.

(** Whether the grid is updated in the frame with keys [k]: the pause flag
    after [SPACE] has been looked at. *)
Definition paused_in (k : Keys) (p : Program) : bool :=
  if KEY_SPACE k then negb (paused (locals p)) else paused (locals p).

(** [result] is [input] as a strictly increasing list, but for at most one
    value [v] from 0 to 8 that was added or removed. *)
Definition one_flip (input result : list Z) : Prop :=
  StronglySorted Z.lt result /\
  exists v, 0 <= v <= 8 /\
    (forall n, n ∈ result -> n ∈ input \/ n = v) /\
    (forall n, n ∈ input -> n ∈ result \/ n = v).

Definition neighbor_counts (l : list Z) : Prop := Forall (fun n => 0 <= n <= 8) l.

(** The draw that cell [(x, y)] gets in a loop over the cells that draws once
    per cell, rows outermost, when the loop is entered with generator [g]. *)
Definition cell_draw (g : Rng) (x y : Z) : float :=
  as_unit (tape g (cursor g + Z.to_nat (GRID_SIZE * y + x))).

(** The generator [g] after [n] more draws. *)
Definition skip (n : nat) (g : Rng) : Rng := mkRng (tape g) (cursor g + n).

(** A rule written out: the decimal digits of the two lists after "B" and
    "S", and a float text after "M". *)
Definition digit_char (n : Z) : ascii := ascii_of_N (Z.to_N (48 + n)).

Definition show_digits (l : list Z) : string :=
  string_of_list_ascii (digit_char <$> l).

Definition show_rule (bs ss : list Z) (f : string) : string :=
  ("B" ++ show_digits bs ++ "/S" ++ show_digits ss ++ "|M" ++ f)%string.

Definition decimal_digits (l : list Z) : Prop := Forall (fun n => 0 <= n <= 9) l.

(** The rule in force is the rule the text [DNA] spells: [birth] and
    [survive] name objects of the store, and reading [DNA] gives the lists
    they name and the mutation rate. *)
Definition rule_loaded (p : Program) : Prop :=
  (birth (locals p) < length (store (globals p)))%nat /\
  (survive (locals p) < length (store (globals p)))%nat /\
  dna_fields (DNA (globals p)) =
    Some (list_at (store (globals p)) (birth (locals p)),
          list_at (store (globals p)) (survive (locals p)),
          mutation (locals p)).

(** Every cell of [nutrient_map] is between 0.0 and 1.0. *)
Definition nutrients_in_unit (n : list (list float)) : Prop :=
  forall x y, in_grid x y -> in_unit (get2 0%float n y x).

(** * Properties *)

Arguments Py.for_range {S} n body s : simpl never.
Arguments Py.range n : simpl never.
Arguments zeros {A} zero : simpl never.
Arguments count_neighbors grid x y : simpl never.
Arguments next_cell g nut b_mut s_mut x y : simpl never.
Arguments next_history cell h : simpl never.
Arguments maybe_flip mutation_rate ruleset s : simpl never.
Arguments mutate_rule birth survive mutation_rate s : simpl never.
Arguments update_grid birth survive mutation s : simpl never.
Arguments update_cell b_mut s_mut x y acc : simpl never.
Arguments randomize_grid s : simpl never.
Arguments generate_nutrient_map s : simpl never.
Arguments animate_nutrients math_sin s : simpl never.
Arguments parse_dna dna_string s : simpl never.

(** ** Arrays and loops *)

Section Arrays.

Context {A : Type}.
Implicit Types (a : list (list A)) (x y : Z) (v d : A).

Lemma shaped_zeros (zero : A) : shaped (zeros zero).
Proof.
  split; [apply length_replicate|].
  apply Forall_replicate, length_replicate.
Qed.

Lemma shaped_set2 a y x v : shaped a -> shaped (set2 a y x v).
Proof.
  intros [Hlen Hrows]. split.
  - unfold set2. by rewrite length_alter.
  - unfold set2. apply Forall_alter; [done|].
    intros row _ Hrow. by rewrite length_insert.
Qed.

(** A read inside the array finds a cell. *)
Lemma get2_inside d a y x :
  shaped a -> in_grid x y ->
  exists row, a !! Z.to_nat y = Some row /\ row !! Z.to_nat x = Some (get2 d a y x).
Proof.
  intros [Hlen Hrows] [Hx Hy].
  destruct (lookup_lt_is_Some_2 a (Z.to_nat y)) as [row Hrow]; [lia|].
  pose proof (Forall_lookup_1 _ _ _ _ Hrows Hrow) as Hl. simpl in Hl.
  destruct (lookup_lt_is_Some_2 row (Z.to_nat x)) as [c Hc]; [lia|].
  exists row. split; [done|].
  unfold get2. rewrite Hrow. simpl. by rewrite Hc.
Qed.

Lemma get2_set2_eq d a y x v :
  shaped a -> in_grid x y -> get2 d (set2 a y x v) y x = v.
Proof.
  intros Hs Hin.
  destruct (get2_inside d a y x Hs Hin) as (row & Hrow & Hc).
  unfold get2, set2. rewrite list_lookup_alter_eq, Hrow. simpl.
  rewrite list_lookup_insert_eq; [done|].
  by apply lookup_lt_Some in Hc.
Qed.

Lemma get2_set2_ne d a y x y' x' v :
  0 <= x -> 0 <= y -> 0 <= x' -> 0 <= y' -> (x, y) <> (x', y') ->
  get2 d (set2 a y x v) y' x' = get2 d a y' x'.
Proof.
  intros Hx Hy Hx' Hy' Hne. unfold get2, set2.
  destruct (decide (y = y')) as [->|Hyy].
  - rewrite list_lookup_alter_eq.
    destruct (a !! Z.to_nat y') as [row|]; [simpl|done].
    rewrite list_lookup_insert_ne; [done|].
    intros Heq. apply Hne. f_equal. lia.
  - rewrite list_lookup_alter_ne; [done|]. lia.
Qed.

End Arrays.

Section Loops.

Context {S : Type}.

Lemma for_range_upto (body : Z -> S -> S) (s : S) (k : nat) :
  foldl (fun s i => body i s) s (Z.of_nat <$> seq 0 (Datatypes.S k)) =
  body (Z.of_nat k) (foldl (fun s i => body i s) s (Z.of_nat <$> seq 0 k)).
Proof. by rewrite seq_S, fmap_app, foldl_app. Qed.

(** The invariant rule of [for i in range(n)]. *)
Lemma for_range_ind (P : Z -> S -> Prop) (n : Z) (body : Z -> S -> S) (s : S) :
  0 <= n -> P 0 s ->
  (forall i s, 0 <= i < n -> P i s -> P (i + 1) (body i s)) ->
  P n (Py.for_range n body s).
Proof.
  intros Hn H0 Hstep. unfold Py.for_range, Py.range.
  assert (Hk : forall k : nat, (k <= Z.to_nat n)%nat ->
    P (Z.of_nat k) (foldl (fun s i => body i s) s (Z.of_nat <$> seq 0 k))).
  { induction k as [|k IH]; intros Hle; [exact H0|].
    rewrite for_range_upto.
    replace (Z.of_nat (Datatypes.S k)) with (Z.of_nat k + 1) by lia.
    apply Hstep; [lia|]. apply IH. lia. }
  specialize (Hk (Z.to_nat n) (le_n _)).
  by rewrite Z2Nat.id in Hk.
Qed.

(** The invariant rule of the loop over all cells, rows outermost:
    [P y x s] holds of the state when cell [(x, y)] is next. *)
Lemma for_cells_ind (P : Z -> Z -> S -> Prop) (body : Z -> Z -> S -> S) (s : S) :
  P 0 0 s ->
  (forall x y s, in_grid x y -> P y x s -> P y (x + 1) (body x y s)) ->
  (forall y s, 0 <= y < GRID_SIZE -> P y GRID_SIZE s -> P (y + 1) 0 s) ->
  P GRID_SIZE 0
    (Py.for_range GRID_SIZE (fun y => Py.for_range GRID_SIZE (fun x => body x y)) s).
Proof.
  intros H0 Hcell Hrow.
  apply (for_range_ind (fun y s => P y 0 s)); [done|exact H0|].
  intros y s' Hy HP. apply Hrow; [done|].
  apply (for_range_ind (fun x s => P y x s)); [done|exact HP|].
  intros x s'' Hx HP'. apply Hcell; [|done]. by split.
Qed.

End Loops.

(** From here on loops are reasoned about by their invariants only. *)
Opaque Py.for_range.

(** Brings the conclusion of [for_cells_ind], for the invariant [P] and the
    loop over the cells in the goal, into the context; the three premises
    come first. *)
Ltac cells_invariant P H :=
  lazymatch goal with
  | |- context [Py.for_range GRID_SIZE
                  (fun y => Py.for_range GRID_SIZE (fun x => @?body y x)) ?s0] =>
      let b := eval cbv beta in (fun x y => body y x) in
      assert (H : P GRID_SIZE 0
                    (Py.for_range GRID_SIZE
                       (fun y => Py.for_range GRID_SIZE (fun x => b x y)) s0));
      [apply (for_cells_ind P b s0)|cbv beta in H]
  end.

(** ** The store and [mutate_rule] *)

Lemma extends_refl s : extends s s.
Proof. unfold extends. repeat split; auto. Qed.

Lemma extends_trans s1 s2 s3 : extends s1 s2 -> extends s2 s3 -> extends s1 s3.
Proof.
  unfold extends.
  intros (?&?&?&?&?&?&Hl1&Hs1) (?&?&?&?&?&?&Hl2&Hs2).
  repeat split; try congruence; [lia|].
  intros r Hr. rewrite Hs2 by lia. by apply Hs1.
Qed.

Lemma maybe_flip_extends rate ruleset s :
  extends s (maybe_flip rate ruleset s).2 /\
  (length (store s) < (maybe_flip rate ruleset s).1 < length (store (maybe_flip rate ruleset s).2))%nat.
Proof.
  unfold maybe_flip, alloc, random, choice, randint, randbelow, set_add, set_remove.
  simpl.
  repeat match goal with
         | |- context [if ?b then _ else _] => destruct b
         end; simpl;
  (split; [unfold extends; simpl; repeat split; auto;
           [ repeat (rewrite ?length_app, ?length_insert; simpl); lia
           | intros r Hr;
             rewrite lookup_app_l by (repeat (rewrite ?length_app, ?length_insert; simpl); lia);
             rewrite ?list_lookup_insert_ne by lia;
             by rewrite lookup_app_l by lia ]
          | repeat (rewrite ?length_app, ?length_insert; simpl); lia ]).
Qed.

Lemma mutate_rule_extends birth survive rate s :
  extends s (mutate_rule birth survive rate s).2.
Proof.
  unfold mutate_rule.
  pose proof (maybe_flip_extends rate birth s) as [H1 _].
  destruct (maybe_flip rate birth s) as [b s1]. simpl in H1.
  pose proof (maybe_flip_extends rate survive s1) as [H2 _].
  destruct (maybe_flip rate survive s1) as [sv s2]. simpl in *.
  by eapply extends_trans.
Qed.

(** [random() < 0.0] never holds. *)
Lemma not_below_zero r : unit_interval r -> PrimFloat.ltb r 0 = false.
Proof.
  intros [Hr _]. revert Hr. rewrite leb_spec, ltb_spec.
  change (Prim2SF 0) with (S754_zero false).
  destruct (Prim2SF r) as [sg|sg| |sg m e]; cbn;
    try destruct sg; cbn; try reflexivity; try discriminate.
Qed.

Lemma elem_of_sorted (s : gset Z) (n : Z) : n ∈ sorted s <-> n ∈ s.
Proof. unfold sorted. by rewrite merge_sort_Permutation, elem_of_elements. Qed.

Lemma list_at_alloc st o r : (r < length st)%nat -> list_at (alloc o st).2 r = list_at st r.
Proof. intros Hr. unfold list_at, alloc. cbn. by rewrite lookup_app_l. Qed.

Lemma list_at_extends s s' r :
  extends s s' -> (r < length (store s))%nat -> list_at (store s') r = list_at (store s) r.
Proof.
  intros (_&_&_&_&_&_&_&Hst) Hr. unfold list_at. by rewrite Hst.
Qed.

(** With mutation rate 0 the copy [maybe_flip] returns has the elements of
    the list it was given. *)
Lemma maybe_flip_off ruleset s n :
  rng_ok (rng s) ->
  n ∈ list_at (store (maybe_flip 0 ruleset s).2) (maybe_flip 0 ruleset s).1
  <-> n ∈ list_at (store s) ruleset.
Proof.
  intros Hok. unfold maybe_flip, alloc, random. cbn.
  rewrite (not_below_zero _ (Hok (cursor (rng s)))). cbn.
  unfold list_at at 1, set_at. rewrite lookup_app_r by (rewrite length_app; cbn; lia).
  rewrite length_app. cbn.
  replace (S (length (store s)) - (length (store s) + 1))%nat with 0%nat by lia.
  cbn. rewrite lookup_app_r by lia. rewrite !Nat.sub_diag. cbn.
  by rewrite elem_of_sorted, elem_of_list_to_set.
Qed.

Lemma maybe_flip_tape rate ruleset s : rng_ok (rng s) -> rng_ok (rng (maybe_flip rate ruleset s).2).
Proof.
  intros Hok i. destruct (maybe_flip_extends rate ruleset s) as [(_&_&_&_&_&Ht&_) _].
  rewrite Ht. apply Hok.
Qed.

Lemma mutate_rule_off birth survive s n :
  rng_ok (rng s) ->
  (birth < length (store s))%nat -> (survive < length (store s))%nat ->
  let m := mutate_rule birth survive 0 s in
  (n ∈ list_at (store m.2) m.1.1 <-> n ∈ list_at (store s) birth) /\
  (n ∈ list_at (store m.2) m.1.2 <-> n ∈ list_at (store s) survive).
Proof.
  intros Hok Hb Hsv. cbv zeta. unfold mutate_rule.
  pose proof (maybe_flip_off birth s n Hok) as H1.
  pose proof (maybe_flip_tape 0 birth s Hok) as Hok1.
  destruct (maybe_flip_extends 0 birth s) as [Hext1 Hfresh1].
  destruct (maybe_flip 0 birth s) as [b s1]. cbn [fst snd] in *.
  pose proof (maybe_flip_off survive s1 n Hok1) as H2.
  destruct (maybe_flip_extends 0 survive s1) as [Hext2 Hfresh2].
  destruct (maybe_flip 0 survive s1) as [sv s2]. cbn [fst snd] in *.
  split.
  - rewrite (list_at_extends s1 s2 b Hext2) by lia. exact H1.
  - rewrite H2. by rewrite (list_at_extends s s1 survive Hext1).
Qed.

(** ** [update_grid], cell by cell *)

Lemma shaped_zeros_like g : shaped g -> shaped (zeros_like g).
Proof.
  intros [Hl Hr]. unfold zeros_like. split; [by rewrite length_map|].
  apply Forall_fmap. eapply Forall_impl; [exact Hr|].
  intros row Hrow. simpl. by rewrite length_map.
Qed.

Lemma before_next y' x' y x :
  before y' x' y (x + 1) <-> before y' x' y x \/ (x', y') = (x, y).
Proof.
  unfold before. split.
  - intros [H|[H1 H2]]; [by left; left|].
    destruct (decide (x' = x)) as [->|]; [right; by subst|left; right; lia].
  - intros [[H|[H1 H2]]|H]; [by left|right; lia|].
    inversion H; subst. right. lia.
Qed.

Lemma update_cell_inv b_mut s_mut s1 x y acc :
  in_grid x y ->
  update_inv b_mut s_mut s1 y x acc ->
  update_inv b_mut s_mut s1 y (x + 1) (update_cell b_mut s_mut x y acc).
Proof.
  intros Hin. destruct acc as [ng t]. unfold update_inv, update_cell.
  intros ((HD & Hg & Hn & Hw & Hst & Hr) & Hng & Hh & Hcells).
  set (v := next_cell (grid s1) (nutrient_map s1)
              (list_at (store s1) b_mut) (list_at (store s1) s_mut) x y).
  assert (Hng' : (if get2 0 (grid t) y x =? 1
                 then set2 ng y x
                        (if Py.contains (list_at (store t) s_mut) (count_neighbors (grid t) x y)
                            || PrimFloat.ltb 0.9 (get2 0%float (nutrient_map t) y x)
                         then 1 else 0)
                 else set2 ng y x
                        (if Py.contains (list_at (store t) b_mut) (count_neighbors (grid t) x y)
                            && PrimFloat.ltb 0.1 (get2 0%float (nutrient_map t) y x)
                         then 1 else 0)) = set2 ng y x v).
  { unfold v, next_cell. rewrite Hg, Hn, Hst. by destruct (get2 0 (grid s1) y x =? 1). }
  rewrite Hng'. clear Hng'.
  rewrite (get2_set2_eq 0 ng y x v Hng Hin).
  set (h := if v =? 1
            then Py.min_int (Py.wrap64 (get2 0 (history_map t) y x + 1)) 255
            else Py.max_int (Py.wrap64 (get2 0 (history_map t) y x - 1)) 0).
  assert (Ht : (if v =? 1
                then with_history_map (set2 (history_map t) y x
                       (Py.min_int (Py.wrap64 (get2 0 (history_map t) y x + 1)) 255)) t
                else with_history_map (set2 (history_map t) y x
                       (Py.max_int (Py.wrap64 (get2 0 (history_map t) y x - 1)) 0)) t)
               = with_history_map (set2 (history_map t) y x h) t).
  { unfold h. by destruct (v =? 1). }
  rewrite Ht. clear Ht. simpl.
  split; [done|]. split; [by apply shaped_set2|]. split; [by apply shaped_set2|].
  intros x' y' Hin'. destruct Hin as [Hx Hy]. destruct Hin' as [Hx' Hy'].
  destruct (decide ((x, y) = (x', y'))) as [Heq|Hne].
  - inversion Heq; subst x' y'. split.
    + intros _. rewrite !get2_set2_eq by done. split; [done|].
      unfold h, next_history.
      destruct (Hcells x y (conj Hx Hy)) as [_ Hold].
      rewrite Hold; [done|]. unfold before. lia.
    + intros Hnb. exfalso. apply Hnb. unfold before. lia.
  - rewrite !get2_set2_ne by (done || lia).
    destruct (Hcells x' y' (conj Hx' Hy')) as [Hb Hnb]. split.
    + intros Hbef. apply Hb. apply before_next in Hbef as [?|?]; [done|congruence].
    + intros Hbef. apply Hnb. intros Hc. apply Hbef. apply before_next. by left.
Qed.

(** [update_grid] writes [next_cell] of the grid, the nutrient field and the
    lists it was entered with to every cell, and [next_history] of that to
    the cell's history; nothing else changes but what [mutate_rule] did. *)
Lemma update_grid_cells birth survive mutation s :
  shaped (grid s) -> shaped (history_map s) ->
  let m := mutate_rule birth survive mutation s in
  let s' := update_grid birth survive mutation s in
  (DNA s' = DNA s /\ nutrient_map s' = nutrient_map s /\
   wave_phase s' = wave_phase s /\ store s' = store m.2 /\ rng s' = rng m.2) /\
  shaped (grid s') /\ shaped (history_map s') /\
  forall x y, in_grid x y ->
    get2 0 (grid s') y x =
      next_cell (grid s) (nutrient_map s)
        (list_at (store m.2) m.1.1) (list_at (store m.2) m.1.2) x y /\
    get2 0 (history_map s') y x =
      next_history (get2 0 (grid s') y x) (get2 0 (history_map s) y x).
Proof.
  intros Hg Hh. cbv zeta. unfold update_grid.
  pose proof (mutate_rule_extends birth survive mutation s) as Hext.
  destruct (mutate_rule birth survive mutation s) as [[b_mut s_mut] s1].
  cbn [fst snd] in *. destruct Hext as (HD & HG & HN & HH & HW & _).
  pose proof (for_cells_ind (update_inv b_mut s_mut s1)
                (update_cell b_mut s_mut) (zeros_like (grid s), s1)) as Hloop.
  destruct (Py.for_range GRID_SIZE _ (zeros_like (grid s), s1)) as [ng t].
  destruct Hloop as ((HD' & Hg' & Hn' & Hw' & Hst' & Hr') & Hng & Hht & Hcells).
  - unfold update_inv. split; [done|].
    split; [by apply shaped_zeros_like|]. split; [by rewrite HH|].
    intros x' y' [Hx' Hy']. split; [|done].
    unfold before. lia.
  - intros x y acc Hin Hinv. by apply update_cell_inv.
  - intros y [ng' t'] Hy. unfold update_inv.
    intros (Hsame & Hng & Hht & Hcells). split; [done|]. split; [done|]. split; [done|].
    intros x' y' Hin'. destruct (Hcells x' y' Hin') as [Hb Hnb].
    destruct Hin' as [Hx' Hy']. unfold before in *. split.
    + intros Hbef. apply Hb. lia.
    + intros Hbef. apply Hnb. lia.
  - destruct t; cbn in *. split; [repeat split; congruence|]. split; [done|]. split; [done|].
    intros x y Hin. destruct (Hcells x y Hin) as [Hb _].
    rewrite <- HG, <- HN, <- HH. apply Hb. destruct Hin as [? ?]. unfold before. lia.
Qed.

(** ** The other loops over the cells *)

Lemma set2_all {A : Type} (P : A -> Prop) (d : A) (a : list (list A)) y x v :
  shaped a -> in_grid x y -> P v ->
  (forall x' y', in_grid x' y' -> P (get2 d a y' x')) ->
  forall x' y', in_grid x' y' -> P (get2 d (set2 a y x v) y' x').
Proof.
  intros Hs Hin Hv Hall x' y' Hin'.
  destruct (decide ((x, y) = (x', y'))) as [Heq|Hne].
  - inversion Heq; subst. by rewrite get2_set2_eq.
  - destruct Hin as [? ?], Hin' as [? ?].
    rewrite get2_set2_ne by (done || lia). by apply Hall.
Qed.

Lemma randomize_grid_spec s :
  let s' := randomize_grid s in
  (DNA s' = DNA s /\ nutrient_map s' = nutrient_map s /\
   wave_phase s' = wave_phase s /\ store s' = store s /\
   tape (rng s') = tape (rng s)) /\
  (shaped (grid s) -> shaped (grid s')) /\
  (shaped (history_map s) -> shaped (history_map s')) /\
  (shaped (grid s) -> binary (grid s) -> binary (grid s')) /\
  (shaped (history_map s) -> history_bounded (history_map s) ->
   history_bounded (history_map s')).
Proof.
  cbv zeta. unfold randomize_grid.
  apply (for_cells_ind (fun _ _ t =>
    (DNA t = DNA s /\ nutrient_map t = nutrient_map s /\
     wave_phase t = wave_phase s /\ store t = store s /\
     tape (rng t) = tape (rng s)) /\
    (shaped (grid s) -> shaped (grid t)) /\
    (shaped (history_map s) -> shaped (history_map t)) /\
    (shaped (grid s) -> binary (grid s) -> binary (grid t)) /\
    (shaped (history_map s) -> history_bounded (history_map s) ->
     history_bounded (history_map t)))).
  - split; [by repeat split|tauto].
  - intros x y t Hin (Hsame & Hg & Hh & Hb & Hhb). unfold random. cbn.
    split; [done|].
    split; [intros; apply shaped_set2; auto|].
    split; [intros; apply shaped_set2; auto|].
    split.
    + intros Hsg Hbin. unfold binary.
      apply (set2_all (fun c => c = 0 \/ c = 1)); auto.
      * destruct (PrimFloat.ltb _ _); auto.
      * by apply Hb.
    + intros Hsh Hbd. unfold history_bounded.
      apply (set2_all (fun h => 0 <= h <= 255)); auto; [lia|].
      by apply Hhb.
  - auto.
Qed.

Lemma generate_nutrient_map_spec s :
  let s' := generate_nutrient_map s in
  (DNA s' = DNA s /\ grid s' = grid s /\ history_map s' = history_map s /\
   wave_phase s' = wave_phase s /\ store s' = store s /\
   tape (rng s') = tape (rng s)) /\
  (shaped (nutrient_map s) -> shaped (nutrient_map s')).
Proof.
  cbv zeta. unfold generate_nutrient_map.
  apply (for_cells_ind (fun _ _ t =>
    (DNA t = DNA s /\ grid t = grid s /\ history_map t = history_map s /\
     wave_phase t = wave_phase s /\ store t = store s /\
     tape (rng t) = tape (rng s)) /\
    (shaped (nutrient_map s) -> shaped (nutrient_map t)))).
  - split; [by repeat split|tauto].
  - intros x y t Hin (Hsame & Hn). unfold random. cbn.
    split; [done|]. intros; apply shaped_set2; auto.
  - auto.
Qed.

Section EngineProperties.

Variable math_sin : float -> float.

(** [animate_nutrients] advances the phase first and writes [animated] of
    the advanced phase to every cell. *)
Lemma animate_nutrients_cells s :
  let s' := animate_nutrients math_sin s in
  (DNA s' = DNA s /\ grid s' = grid s /\ history_map s' = history_map s /\
   store s' = store s /\ rng s' = rng s) /\
  wave_phase s' = (wave_phase s + 0.05)%float /\
  (shaped (nutrient_map s) ->
   shaped (nutrient_map s') /\
   forall x y, in_grid x y ->
     get2 0%float (nutrient_map s') y x =
       animated math_sin (wave_phase s + 0.05)%float x y
         (get2 0%float (nutrient_map s) y x)).
Proof.
  cbv zeta. unfold animate_nutrients.
  set (s0 := with_wave_phase (wave_phase s + 0.05)%float s).
  cells_invariant (fun y x t =>
    (DNA t = DNA s /\ grid t = grid s /\ history_map t = history_map s /\
     store t = store s /\ rng t = rng s) /\
    wave_phase t = (wave_phase s + 0.05)%float /\
    (shaped (nutrient_map s) ->
     shaped (nutrient_map t) /\
     forall x' y', in_grid x' y' ->
       get2 0%float (nutrient_map t) y' x' =
         if decide (before y' x' y x)
         then animated math_sin (wave_phase s + 0.05)%float x' y'
                (get2 0%float (nutrient_map s) y' x')
         else get2 0%float (nutrient_map s) y' x')) Hloop.
  - split; [done|]. split; [done|]. intros Hs. split; [done|].
    intros x' y' [? ?]. rewrite decide_False; [done|]. unfold before. lia.
  - intros x y t Hin (Hsame & Hw & Hcells). cbn.
    split; [done|]. split; [done|]. intros Hs.
    destruct (Hcells Hs) as [Hst Hc]. split; [by apply shaped_set2|].
    intros x' y' Hin'.
    destruct (decide ((x, y) = (x', y'))) as [Heq|Hne].
    + inversion Heq; subst x' y'. rewrite get2_set2_eq by done.
      rewrite decide_True by (unfold before; lia).
      rewrite (Hc x y Hin), decide_False by (unfold before; lia).
      unfold animated. by rewrite Hw.
    + destruct Hin as [? ?], Hin' as [? ?].
      rewrite get2_set2_ne by (done || lia). rewrite Hc by done.
      destruct (decide (before y' x' y x)) as [Hb|Hb].
      * rewrite decide_True; [done|]. apply before_next. by left.
      * rewrite decide_False; [done|]. intros Hc'. apply before_next in Hc' as [?|?]; congruence.
  - intros y t Hy (Hsame & Hw & Hcells). split; [done|]. split; [done|].
    intros Hs. destruct (Hcells Hs) as [Hst Hc]. split; [done|].
    intros x' y' Hin'. rewrite Hc by done. destruct Hin' as [? ?].
    destruct (decide (before y' x' y GRID_SIZE)) as [Hb|Hb]; unfold before in *.
    + rewrite decide_True; [done|]. lia.
    + rewrite decide_False; [done|]. lia.
  - destruct Hloop as (Hsame & Hw & Hcells). split; [done|]. split; [done|].
    intros Hs. destruct (Hcells Hs) as [Hst Hc]. split; [done|].
    intros x y Hin. rewrite Hc by done. destruct Hin as [? ?].
    rewrite decide_True; [done|]. unfold before. lia.
Qed.

End EngineProperties.

(** ** Neighbour counting *)

(** A check that holds of every cell, by running it on all of them. *)
Lemma all_cells (P : Z -> Z -> bool) :
  forallb (fun y => forallb (fun x => P x y) (Py.range GRID_SIZE)) (Py.range GRID_SIZE) = true ->
  forall x y, in_grid x y -> P x y = true.
Proof.
  intros Hall x y [Hx Hy].
  assert (Hmem : forall i, 0 <= i < GRID_SIZE -> In i (Py.range GRID_SIZE)).
  { intros i Hi. unfold Py.range. apply in_map_iff. exists (Z.to_nat i).
    split; [lia|]. apply in_seq. lia. }
  rewrite forallb_forall in Hall. specialize (Hall y (Hmem y Hy)).
  rewrite forallb_forall in Hall. exact (Hall x (Hmem x Hx)).
Qed.

(** C7. On the grid whose only alive cell is (0,0), [count_neighbors] is 1
    at each of the eight cells around (0,0) on the torus, (N-1,N-1), (N-1,0),
    (0,N-1), (1,1), (1,0), (0,1), (N-1,1), (1,N-1), and 0 at every other cell,
    (0,0) included. *)
Theorem count_neighbors_single_cell (x y : Z) :
  in_grid x y ->
  count_neighbors single_cell x y =
    if bool_decide ((x, y) ∈ around_origin) then 1 else 0.
Proof.
  intros Hin. apply Z.eqb_eq.
  pose (P := fun a b : Z =>
    count_neighbors single_cell a b =?
      if bool_decide ((a, b) ∈ around_origin) then 1 else 0).
  apply (all_cells P); [|exact Hin].
  vm_compute. reflexivity.
Qed.

Lemma count_neighbors_single_cell_witness :
  count_neighbors single_cell (GRID_SIZE - 1) (GRID_SIZE - 1) = 1 /\
  count_neighbors single_cell 0 0 = 0 /\
  count_neighbors single_cell 2 1 = 0.
Proof.
  assert (Hin : forall a b, 0 <= a < GRID_SIZE -> 0 <= b < GRID_SIZE -> in_grid a b)
    by (intros a b Ha Hb; split; [exact Ha|exact Hb]).
  assert (H49 : 0 <= GRID_SIZE - 1 < GRID_SIZE) by (unfold GRID_SIZE; lia).
  assert (H0 : 0 <= 0 < GRID_SIZE) by (unfold GRID_SIZE; lia).
  assert (H1 : 0 <= 1 < GRID_SIZE) by (unfold GRID_SIZE; lia).
  assert (H2 : 0 <= 2 < GRID_SIZE) by (unfold GRID_SIZE; lia).
  split; [|split].
  - exact (count_neighbors_single_cell _ _ (Hin _ _ H49 H49)).
  - exact (count_neighbors_single_cell _ _ (Hin _ _ H0 H0)).
  - exact (count_neighbors_single_cell _ _ (Hin _ _ H2 H1)).
Defined.

(** ** One frame *)

Lemma contains_elem_of (l : list Z) (n : Z) : Py.contains l n = true <-> n ∈ l.
Proof.
  unfold Py.contains. rewrite existsb_exists, list_elem_of_In. split.
  - intros (m & Hm & Heq). apply Z.eqb_eq in Heq. by subst.
  - intros Hn. exists n. split; [done|]. apply Z.eqb_refl.
Qed.

Lemma next_cell_binary g nut b_mut s_mut x y :
  next_cell g nut b_mut s_mut x y = 1 \/ next_cell g nut b_mut s_mut x y = 0.
Proof.
  unfold next_cell.
  repeat match goal with |- context [if ?b then _ else _] => destruct b end; auto.
Qed.

Lemma next_cell_alive g nut b_mut s_mut x y :
  get2 0 g y x = 1 ->
  (next_cell g nut b_mut s_mut x y = 1 <->
   count_neighbors g x y ∈ s_mut \/ PrimFloat.ltb 0.9 (get2 0%float nut y x) = true).
Proof.
  intros Ha. unfold next_cell. rewrite Ha, Z.eqb_refl.
  rewrite <- contains_elem_of.
  destruct (Py.contains s_mut _), (PrimFloat.ltb 0.9 _); cbn;
    intuition (auto; discriminate).
Qed.


Lemma wrap64_small z : - 2 ^ 63 <= z < 2 ^ 63 -> Py.wrap64 z = z.
Proof. intros Hz. unfold Py.wrap64. rewrite Z.mod_small; lia. Qed.

Lemma next_history_alive c h :
  0 <= h <= 255 -> c = 1 -> next_history c h = Z.min (h + 1) 255.
Proof.
  intros Hh ->. unfold next_history, Py.min_int. cbn [Z.eqb Pos.eqb].
  rewrite wrap64_small by lia. destruct (255 <? h + 1) eqn:E; lia.
Qed.

Lemma next_history_dead c h :
  0 <= h <= 255 -> c <> 1 -> next_history c h = Z.max (h - 1) 0.
Proof.
  intros Hh Hc. unfold next_history, Py.max_int. apply Z.eqb_neq in Hc. rewrite Hc.
  rewrite wrap64_small by lia. destruct (h - 1 <? 0) eqn:E; lia.
Qed.

Lemma next_history_bounded c h : 0 <= h <= 255 -> 0 <= next_history c h <= 255.
Proof.
  intros Hh. destruct (decide (c = 1)) as [Hc|Hc].
  - rewrite next_history_alive by done. lia.
  - rewrite next_history_dead by done. lia.
Qed.

Lemma parse_dna_extends text s : extends s (parse_dna text s).2.
Proof.
  unfold parse_dna, alloc.
  repeat match goal with
         | |- context [match ?d with _ => _ end] => destruct d
         end; cbn [snd]; try apply extends_refl;
  (unfold extends; cbn; repeat split; auto;
   [ repeat (rewrite ?length_app; cbn); lia
   | intros r Hr; rewrite ?lookup_app_l; auto;
     repeat (rewrite ?length_app; cbn); lia ]).
Qed.

Lemma update_grid_ok birth survive mutation s :
  well_formed s -> history_bounded (history_map s) ->
  let s' := update_grid birth survive mutation s in
  well_formed s' /\ binary (grid s') /\ history_bounded (history_map s').
Proof.
  intros (Hg & Hn & Hh) Hb. cbv zeta.
  destruct (update_grid_cells birth survive mutation s Hg Hh)
    as ((_ & HN & _) & Hg' & Hh' & Hcells).
  split; [split; [assumption|split; [rewrite HN|]; assumption]|]. split.
  - intros x y Hin. destruct (Hcells x y Hin) as [-> _].
    destruct (next_cell_binary (grid s) (nutrient_map s)
                (list_at (store (mutate_rule birth survive mutation s).2)
                   (mutate_rule birth survive mutation s).1.1)
                (list_at (store (mutate_rule birth survive mutation s).2)
                   (mutate_rule birth survive mutation s).1.2) x y); auto.
  - intros x y Hin. destruct (Hcells x y Hin) as [_ ->].
    apply next_history_bounded. by apply Hb.
Qed.

Lemma state_ok_same_arrays s s' :
  grid s' = grid s -> nutrient_map s' = nutrient_map s ->
  history_map s' = history_map s -> state_ok s -> state_ok s'.
Proof. unfold state_ok, well_formed. by intros -> -> ->. Qed.

Lemma update_grid_state_ok birth survive mutation s :
  state_ok s -> state_ok (update_grid birth survive mutation s).
Proof.
  intros (Hwf & _ & Hb). exact (update_grid_ok birth survive mutation s Hwf Hb).
Qed.

Lemma reset_state_ok s :
  state_ok s -> state_ok (generate_nutrient_map (randomize_grid s)).
Proof.
  intros ((Hg & Hn & Hh) & Hbin & Hb).
  destruct (randomize_grid_spec s) as ((_ & HN & _) & Hg' & Hh' & Hbin' & Hb').
  destruct (generate_nutrient_map_spec (randomize_grid s))
    as ((_ & HG & HH & _) & Hn').
  unfold state_ok, well_formed. rewrite HG, HH.
  split; [split; [auto|split; [apply Hn'; by rewrite HN|auto]]|]. auto.
Qed.

Lemma initial_state_ok g : state_ok (initial g).
Proof.
  split; [split; [|split]; apply shaped_zeros|].
  assert (Hz : forall x y, in_grid x y -> get2 0 (zeros 0) y x = 0).
  { intros x y [Hx Hy]. unfold get2, zeros.
    rewrite lookup_replicate_2 by lia. cbn. by rewrite lookup_replicate_2 by lia. }
  split; intros x y Hin; cbn; rewrite (Hz x y Hin); [auto|lia].
Qed.

Lemma edit_dna_arrays input l s :
  grid (globals (edit_dna input l s)) = grid s /\
  nutrient_map (globals (edit_dna input l s)) = nutrient_map s /\
  history_map (globals (edit_dna input l s)) = history_map s /\
  wave_phase (globals (edit_dna input l s)) = wave_phase s.
Proof.
  unfold edit_dna.
  pose proof (parse_dna_extends (DNA (with_DNA (dna_input_gui input s) s))
                (with_DNA (dna_input_gui input s) s)) as (_ & HG & HN & HH & HW & _).
  destruct (parse_dna _ _) as [[[[b sv] m]|e] s2]; cbn in *; auto.
Qed.

(** ** Conway's rule *)

Lemma mod_in_grid x y : in_grid (x mod GRID_SIZE) (y mod GRID_SIZE).
Proof. split; apply Z.mod_pos_bound; reflexivity. Qed.

(** On a grid of 0s and 1s the sum [count_neighbors] computes is the number
    of alive cells among the eight around the cell. *)
Lemma count_neighbors_live g x y :
  binary g -> count_neighbors g x y = Z.of_nat (live_neighbours g x y).
Proof.
  intros Hbin.
  unfold count_neighbors, live_neighbours, moore, alive. cbn.
  repeat match goal with
         | |- context [get2 0 g (?b mod GRID_SIZE) (?a mod GRID_SIZE)] =>
             let E := fresh "E" in
             destruct (Hbin _ _ (mod_in_grid a b)) as [E|E]; rewrite !E
         end; vm_compute; reflexivity.
Qed.

Lemma lookup_range (n : Z) (i : nat) :
  (i < Z.to_nat n)%nat -> Py.range n !! i = Some (Z.of_nat i).
Proof.
  intros Hi. unfold Py.range. rewrite list_lookup_fmap, lookup_seq_lt by done.
  reflexivity.
Qed.

Lemma length_range (n : Z) : length (Py.range n) = Z.to_nat n.
Proof. unfold Py.range. by rewrite length_fmap, length_seq. Qed.

Lemma shaped_conway g : shaped (conway g).
Proof.
  unfold conway. split.
  - by rewrite length_fmap, length_range.
  - apply Forall_fmap, Forall_forall. intros y _. cbn.
    by rewrite length_fmap, length_range.
Qed.

Lemma get2_conway g x y : in_grid x y -> get2 0 (conway g) y x = conway_cell g x y.
Proof.
  intros [Hx Hy]. unfold get2, conway.
  rewrite list_lookup_fmap, lookup_range by lia. cbn.
  rewrite list_lookup_fmap, lookup_range by lia. cbn.
  by rewrite !Z2Nat.id by lia.
Qed.

(** Two arrays of the right shape with the same cells are equal. *)
Lemma array_ext {A : Type} (d : A) (a b : list (list A)) :
  shaped a -> shaped b ->
  (forall x y, in_grid x y -> get2 d a y x = get2 d b y x) -> a = b.
Proof.
  intros Ha Hb Hcells. apply list_eq. intros i.
  destruct (decide (i < Z.to_nat GRID_SIZE)%nat) as [Hi|Hi].
  - assert (Hy : 0 <= Z.of_nat i < GRID_SIZE) by lia.
    assert (Hrows : forall x, 0 <= x < GRID_SIZE ->
      exists ra rb, a !! i = Some ra /\ b !! i = Some rb /\
        ra !! Z.to_nat x = Some (get2 d a (Z.of_nat i) x) /\
        rb !! Z.to_nat x = Some (get2 d b (Z.of_nat i) x)).
    { intros x Hx.
      destruct (get2_inside d a (Z.of_nat i) x Ha (conj Hx Hy)) as (ra & Hra & Hca).
      destruct (get2_inside d b (Z.of_nat i) x Hb (conj Hx Hy)) as (rb & Hrb & Hcb).
      rewrite Nat2Z.id in Hra, Hrb. eauto 10. }
    destruct (Hrows 0) as (ra & rb & Hra & Hrb & _); [unfold GRID_SIZE; lia|].
    rewrite Hra, Hrb. f_equal. apply list_eq. intros j.
    destruct Ha as [_ Hla], Hb as [_ Hlb].
    pose proof (Forall_lookup_1 _ _ _ _ Hla Hra) as Hlra.
    pose proof (Forall_lookup_1 _ _ _ _ Hlb Hrb) as Hlrb. cbn in Hlra, Hlrb.
    destruct (decide (j < Z.to_nat GRID_SIZE)%nat) as [Hj|Hj].
    + destruct (Hrows (Z.of_nat j)) as (ra' & rb' & Hra' & Hrb' & Hca & Hcb); [lia|].
      rewrite Nat2Z.id in Hca, Hcb.
      assert (ra' = ra) by congruence. assert (rb' = rb) by congruence. subst.
      rewrite Hca, Hcb. f_equal. apply Hcells. split; lia.
    + rewrite !lookup_ge_None_2 by lia. reflexivity.
  - destruct Ha as [Hla _], Hb as [Hlb _].
    rewrite !lookup_ge_None_2 by lia. reflexivity.
Qed.

(** With nutrient 0.5 and the lists of B3/S23, [next_cell] is Conway's rule. *)
Lemma next_cell_conway g nut b_mut s_mut x y :
  binary g -> in_grid x y ->
  get2 0%float nut y x = 0.5%float ->
  (forall n, n ∈ b_mut <-> n ∈ [3]) ->
  (forall n, n ∈ s_mut <-> n ∈ [2; 3]) ->
  next_cell g nut b_mut s_mut x y = conway_cell g x y.
Proof.
  intros Hbin [Hx Hy] Hnut Hb Hs.
  unfold next_cell, conway_cell, alive.
  rewrite Hnut, (count_neighbors_live g x y Hbin), !Z.mod_small by done.
  change (PrimFloat.ltb 0.9 0.5) with false.
  change (PrimFloat.ltb 0.1 0.5) with true.
  rewrite orb_false_r, andb_true_r.
  set (n := live_neighbours g x y).
  assert (Hs' : Py.contains s_mut (Z.of_nat n) = Nat.eqb n 2 || Nat.eqb n 3).
  { apply eq_true_iff_eq. rewrite contains_elem_of, Hs, orb_true_iff, !Nat.eqb_eq.
    rewrite !elem_of_cons, elem_of_nil. lia. }
  assert (Hb' : Py.contains b_mut (Z.of_nat n) = Nat.eqb n 3).
  { apply eq_true_iff_eq. rewrite contains_elem_of, Hb, Nat.eqb_eq.
    rewrite !elem_of_cons, elem_of_nil. lia. }
  by rewrite Hs', Hb'.
Qed.

(** C2. With mutation rate 0, birth list [3], survival list [2, 3] and every
    nutrient cell at 0.5, [update_grid] replaces the grid by its successor
    in Conway's Game of Life, whatever the grid. *)
Theorem update_grid_conway (birth survive : nat) (s : State) :
  store s !! birth = Some (PyList [3]) ->
  store s !! survive = Some (PyList [2; 3]) ->
  rng_ok (rng s) ->
  well_formed s -> binary (grid s) ->
  (forall x y, in_grid x y -> get2 0%float (nutrient_map s) y x = 0.5%float) ->
  grid (update_grid birth survive 0 s) = conway (grid s).
Proof.
  intros Hb Hsv Hok (Hg & Hn & Hh) Hbin Hnut.
  destruct (update_grid_cells birth survive 0 s Hg Hh) as (_ & Hg' & _ & Hcells).
  apply (array_ext 0); [exact Hg'|apply shaped_conway|].
  intros x y Hin. destruct (Hcells x y Hin) as [-> _].
  rewrite get2_conway by exact Hin.
  pose proof (lookup_lt_Some _ _ _ Hb) as Hbl.
  pose proof (lookup_lt_Some _ _ _ Hsv) as Hsl.
  apply next_cell_conway; auto.
  - intros n. destruct (mutate_rule_off birth survive s n Hok Hbl Hsl) as [-> _].
    unfold list_at. by rewrite Hb.
  - intros n. destruct (mutate_rule_off birth survive s n Hok Hbl Hsl) as [_ ->].
    unfold list_at. by rewrite Hsv.
Qed.

Lemma well_formed_life text rate g nut :
  shaped g -> well_formed (globals (life_program text rate g nut)).
Proof. intros Hg. split; [exact Hg|]. split; apply shaped_zeros. Qed.

Lemma get2_zeros {A : Type} (d z : A) x y : in_grid x y -> get2 d (zeros z) y x = z.
Proof.
  intros [Hx Hy]. unfold get2, zeros.
  rewrite lookup_replicate_2 by lia. cbn. by rewrite lookup_replicate_2 by lia.
Qed.

Lemma shaped_paint cells : shaped (paint cells).
Proof.
  unfold paint. generalize (shaped_zeros 0). generalize (zeros 0).
  induction cells as [|c cells IH]; intros g Hg; [exact Hg|].
  cbn. apply IH, shaped_set2, Hg.
Qed.

Lemma binary_check g :
  forallb (fun y => forallb (fun x => (get2 0 g y x =? 0) || (get2 0 g y x =? 1))
                      (Py.range GRID_SIZE)) (Py.range GRID_SIZE) = true ->
  binary g.
Proof.
  intros Hall x y Hin.
  pose proof (all_cells (fun x y => (get2 0 g y x =? 0) || (get2 0 g y x =? 1)) Hall x y Hin) as H.
  apply orb_true_iff in H as [H|H]; apply Z.eqb_eq in H; auto.
Qed.

Lemma rng_ok_steady : rng_ok steady.
Proof. intros i. split; reflexivity. Qed.

Lemma update_grid_conway_witness :
  grid (update_grid 0 1 0 (life_state block)) = conway block /\
  conway block = block.
Proof.
  split.
  - apply (update_grid_conway 0 1 (life_state block)).
    + reflexivity.
    + reflexivity.
    + exact rng_ok_steady.
    + apply well_formed_life, shaped_paint.
    + apply binary_check. vm_compute. reflexivity.
    + intros x y Hin. exact (get2_zeros 0%float 0.5%float x y Hin).
  - vm_compute. reflexivity.
Defined.

(** Known patterns, run through [update_grid] itself: a block is still, also
    across the edges of the torus, and a blinker has period 2. *)
Example block_is_still :
  grid (update_grid 0 1 0 (life_state block)) = block /\
  grid (update_grid 0 1 0 (life_state corner_block)) = corner_block.
Proof. split; vm_compute; reflexivity. Qed.

Example blinker_has_period_2 :
  let once := update_grid 0 1 0 (life_state blinker_flat) in
  let twice := update_grid 0 1 0 once in
  grid once = blinker_upright /\ grid twice = blinker_flat /\
  blinker_upright <> blinker_flat.
Proof. cbv zeta. split; [|split]; [vm_compute; reflexivity..|discriminate]. Qed.

(** ** The stored rule *)

Lemma keeps_refl s : keeps s s.
Proof. by repeat split. Qed.

Lemma keeps_trans s1 s2 s3 : keeps s1 s2 -> keeps s2 s3 -> keeps s1 s3.
Proof.
  intros (HD1 & Hl1 & Hs1) (HD2 & Hl2 & Hs2).
  split; [congruence|]. split; [lia|].
  intros r Hr. rewrite Hs2 by lia. by apply Hs1.
Qed.

Lemma keeps_same s s' : DNA s' = DNA s -> store s' = store s -> keeps s s'.
Proof. intros HD Hst. unfold keeps. rewrite HD, Hst. by repeat split. Qed.

Lemma extends_keeps s s' : extends s s' -> keeps s s'.
Proof. intros (HD&_&_&_&_&_&Hl&Hs). by repeat split. Qed.

Lemma update_grid_keeps birth survive mutation s :
  keeps s (update_grid birth survive mutation s).
Proof.
  unfold update_grid.
  pose proof (mutate_rule_extends birth survive mutation s) as Hext.
  destruct (mutate_rule birth survive mutation s) as [[b_mut s_mut] s1].
  cbn [snd] in Hext. apply extends_keeps in Hext.
  cells_invariant (fun (_ _ : Z) (acc : list (list Z) * State) =>
    DNA acc.2 = DNA s1 /\ store acc.2 = store s1) Hloop.
  - by split.
  - intros x y [ng t] _ [HD Hst]. unfold update_cell. cbn [snd].
    repeat match goal with |- context [if ?c then _ else _] => destruct c end;
      by split.
  - auto.
  - destruct (Py.for_range _ _ _) as [ng t]. cbn [snd] in Hloop.
    destruct Hloop as [HD Hst].
    apply (keeps_trans s s1); [exact Hext|]. by apply keeps_same.
Qed.

Section Frames.

Variable math_sin : float -> float.

(** What a frame without keys does to a running, unpaused program. *)
Lemma frame_quiet k p :
  quiet k -> raised p = None -> paused (locals p) = false ->
  frame math_sin k p =
    mkProgram (locals p)
      (update_grid (birth (locals p)) (survive (locals p)) (mutation (locals p))
         (animate_nutrients math_sin (globals p))) None.
Proof.
  intros (Hs & Hr & Hd) Hrun Hp. unfold frame.
  rewrite Hrun, Hs, Hr, Hd. cbn. by rewrite Hp.
Qed.

Lemma animate_state_ok s : state_ok s -> state_ok (animate_nutrients math_sin s).
Proof.
  intros ((Hg & Hn & Hh) & Hbin & Hb).
  destruct (animate_nutrients_cells math_sin s) as ((_ & HG & HH & _) & _ & Hcells).
  destruct (Hcells Hn) as [Hn' _].
  unfold state_ok, well_formed. rewrite HG, HH. auto.
Qed.

(** Every frame keeps a good state good, whatever the keys. *)
Lemma frame_state_ok k p : state_ok (globals p) -> state_ok (globals (frame math_sin k p)).
Proof.
  intros Hok. unfold frame. destruct (raised p); [done|].
  set (l := if KEY_SPACE k then _ else _).
  set (s := if KEY_R k then _ else globals p).
  assert (Hs : state_ok s).
  { unfold s. destruct (KEY_R k); [by apply reset_state_ok|done]. }
  clearbody s l.
  set (q := if KEY_D k then _ else _).
  assert (Hq : state_ok (globals q)).
  { unfold q. destruct (KEY_D k); [|done].
    destruct (edit_dna_arrays (console k) l s) as (HG & HN & HH & _).
    by apply (state_ok_same_arrays s). }
  clearbody q. destruct (raised q); [done|]. cbn [globals].
  destruct (paused (locals q)).
  - by apply animate_state_ok.
  - by apply update_grid_state_ok, animate_state_ok.
Qed.

Lemma run_snoc ks k p : run math_sin (ks ++ [k]) p = frame math_sin k (run math_sin ks p).
Proof. unfold run. by rewrite foldl_app. Qed.

Lemma run_state_ok ks p : state_ok (globals p) -> state_ok (globals (run math_sin ks p)).
Proof.
  intros Hok. induction ks as [|k ks IH] using rev_ind; [done|].
  rewrite run_snoc. by apply frame_state_ok.
Qed.


(** A frame in which [D] is not pressed keeps the rule: the locals that name
    it, its text and every object of the store. *)
Lemma frame_keeps k p :
  KEY_D k = false ->
  keeps (globals p) (globals (frame math_sin k p)) /\
  birth (locals (frame math_sin k p)) = birth (locals p) /\
  survive (locals (frame math_sin k p)) = survive (locals p) /\
  mutation (locals (frame math_sin k p)) = mutation (locals p).
Proof.
  intros Hd. unfold frame. rewrite Hd.
  destruct (raised p); [by split; [apply keeps_refl|]|].
  set (l := if KEY_SPACE k then _ else _).
  assert (Hl : birth l = birth (locals p) /\ survive l = survive (locals p) /\
               mutation l = mutation (locals p)).
  { unfold l. by destruct (KEY_SPACE k). }
  clearbody l.
  set (s := if KEY_R k then _ else globals p).
  assert (Hs : keeps (globals p) s).
  { unfold s. destruct (KEY_R k); [|apply keeps_refl].
    destruct (randomize_grid_spec (globals p)) as ((HD & _ & _ & Hst & _) & _).
    destruct (generate_nutrient_map_spec (randomize_grid (globals p)))
      as ((HD' & _ & _ & _ & Hst' & _) & _).
    apply keeps_same; congruence. }
  clearbody s. cbn [raised locals globals].
  split; [|exact Hl].
  apply (keeps_trans _ s); [exact Hs|].
  destruct (animate_nutrients_cells math_sin s) as ((HD & _ & _ & Hst & _) & _).
  assert (Ha : keeps s (animate_nutrients math_sin s)) by (by apply keeps_same).
  destruct (paused l); [exact Ha|].
  apply (keeps_trans _ (animate_nutrients math_sin s)); [exact Ha|].
  apply update_grid_keeps.
Qed.

Lemma run_keeps ks p :
  Forall (fun k => KEY_D k = false) ks ->
  keeps (globals p) (globals (run math_sin ks p)) /\
  birth (locals (run math_sin ks p)) = birth (locals p) /\
  survive (locals (run math_sin ks p)) = survive (locals p) /\
  mutation (locals (run math_sin ks p)) = mutation (locals p).
Proof.
  induction ks as [|k ks IH] using rev_ind; intros Hks.
  - by split; [apply keeps_refl|].
  - apply Forall_app in Hks as [Hks Hk]. apply Forall_inv in Hk.
    destruct (IH Hks) as (Hkeep & Hb & Hsv & Hm).
    destruct (frame_keeps k (run math_sin ks p) Hk) as (Hkeep' & Hb' & Hsv' & Hm').
    rewrite run_snoc. split; [by eapply keeps_trans|].
    repeat split; congruence.
Qed.

(** C8. [mutate_rule] returns two new objects and changes none of the
    objects that were in the store, so the lists the stored rule consists of
    are the same after the call; and over any number of frames in which the
    rule is not edited, whatever the mutation rate, the locals [birth],
    [survive] and [mutation], the lists they name and the rule text [DNA]
    stay as they were. *)
Theorem mutation_keeps_rule :
  (forall birth survive rate s,
     (birth < length (store s))%nat -> (survive < length (store s))%nat ->
     let m := mutate_rule birth survive rate s in
     list_at (store m.2) birth = list_at (store s) birth /\
     list_at (store m.2) survive = list_at (store s) survive /\
     DNA m.2 = DNA s /\
     (length (store s) <= m.1.1)%nat /\ (length (store s) <= m.1.2)%nat /\
     m.1.1 <> m.1.2) /\
  (forall ks p,
     Forall (fun k => KEY_D k = false) ks ->
     (birth (locals p) < length (store (globals p)))%nat ->
     (survive (locals p) < length (store (globals p)))%nat ->
     let p' := run math_sin ks p in
     birth (locals p') = birth (locals p) /\
     survive (locals p') = survive (locals p) /\
     mutation (locals p') = mutation (locals p) /\
     list_at (store (globals p')) (birth (locals p')) =
       list_at (store (globals p)) (birth (locals p)) /\
     list_at (store (globals p')) (survive (locals p')) =
       list_at (store (globals p)) (survive (locals p)) /\
     DNA (globals p') = DNA (globals p)).
Proof.
  split.
  - intros birth survive rate s Hb Hsv. cbv zeta.
    pose proof (mutate_rule_extends birth survive rate s) as Hext.
    rewrite !(list_at_extends s _ _ Hext) by done.
    destruct Hext as (HD & _). split; [done|]. split; [done|]. split; [done|].
    unfold mutate_rule.
    destruct (maybe_flip_extends rate birth s) as [Hext1 Hfresh1].
    destruct (maybe_flip rate birth s) as [b s1]. cbn [fst snd] in *.
    destruct (maybe_flip_extends rate survive s1) as [Hext2 Hfresh2].
    destruct (maybe_flip rate survive s1) as [sv s2]. cbn [fst snd] in *.
    lia.
  - intros ks p Hks Hb Hsv. cbv zeta.
    destruct (run_keeps ks p Hks) as ((HD & _ & Hst) & Hb' & Hsv' & Hm').
    rewrite Hb', Hsv'. repeat split; try done.
    + unfold list_at. by rewrite Hst.
    + unfold list_at. by rewrite Hst.
Qed.

(** ** The nutrient wave *)

(** C3, as the code has it.  [animate_nutrients] first advances the phase
    accumulator by 0.05 and then computes every cell as
    clamp(0.7 * old + 0.3 * (0.5 + 0.5 * sin(phase + x * 0.1 + y * 0.1)), 0, 1)
    with the advanced phase: the phase is read after the increment. *)
Theorem animate_reads_advanced_phase (s : State) (x y : Z) :
  shaped (nutrient_map s) -> in_grid x y ->
  let s' := animate_nutrients math_sin s in
  let old := get2 0%float (nutrient_map s) y x in
  let wave :=
    (0.5 + 0.5 * math_sin (wave_phase s' + Py.float_of_int x * 0.1
                                         + Py.float_of_int y * 0.1))%float in
  wave_phase s' = (wave_phase s + 0.05)%float /\
  get2 0%float (nutrient_map s') y x =
    Py.max_float 0 (Py.min_float 1 (0.7 * old + 0.3 * wave)%float).
Proof.
  intros Hn Hin. cbv zeta.
  destruct (animate_nutrients_cells math_sin s) as (_ & Hw & Hcells).
  destruct (Hcells Hn) as [_ Hc].
  split; [exact Hw|]. rewrite (Hc x y Hin), Hw. reflexivity.
Qed.

(** ** The history trail *)

Lemma start_state_ok input g : state_ok (globals (start input g)).
Proof.
  unfold start.
  set (l0 := mkLocals 0 0 0%float false).
  assert (Hp : state_ok (globals (edit_dna input l0 (initial g)))).
  { destruct (edit_dna_arrays input l0 (initial g)) as (HG & HN & HH & _).
    apply (state_ok_same_arrays (initial g)); auto. apply initial_state_ok. }
  destruct (raised (edit_dna input l0 (initial g))); [exact Hp|].
  cbn [globals]. by apply reset_state_ok.
Qed.

Lemma frame_quiet_running k p :
  quiet k -> raised p = None -> paused (locals p) = false ->
  raised (frame math_sin k p) = None /\ locals (frame math_sin k p) = locals p.
Proof. intros Hq Hr Hp. by rewrite (frame_quiet k p Hq Hr Hp). Qed.

Lemma run_quiet_running ks p :
  Forall quiet ks -> raised p = None -> paused (locals p) = false ->
  raised (run math_sin ks p) = None /\ locals (run math_sin ks p) = locals p.
Proof.
  intros Hq Hr Hp. induction ks as [|k ks IH] using rev_ind; [done|].
  apply Forall_app in Hq as [Hks Hk]. apply Forall_inv in Hk.
  destruct (IH Hks) as [Hr' Hl']. rewrite run_snoc.
  destruct (frame_quiet_running k (run math_sin ks p) Hk Hr') as [? ?];
    [by rewrite Hl'|]. split; congruence.
Qed.

(** In a frame that ticks, the history of a cell is [next_history] of the
    cell's new value and its old history. *)
Lemma frame_history k p x y :
  quiet k -> raised p = None -> paused (locals p) = false ->
  well_formed (globals p) -> in_grid x y ->
  get2 0 (history_map (globals (frame math_sin k p))) y x =
    next_history (get2 0 (grid (globals (frame math_sin k p))) y x)
      (get2 0 (history_map (globals p)) y x).
Proof.
  intros Hq Hrun Hp (Hg & Hn & Hh) Hin.
  rewrite (frame_quiet k p Hq Hrun Hp). cbn [globals].
  destruct (animate_nutrients_cells math_sin (globals p)) as ((_ & HG & HH & _) & _ & _).
  set (fed := animate_nutrients math_sin (globals p)) in *.
  destruct (update_grid_cells (birth (locals p)) (survive (locals p))
              (mutation (locals p)) fed) as (_ & _ & _ & Hcells).
  { by rewrite HG. }
  { by rewrite HH. }
  destruct (Hcells x y Hin) as [_ Hhist]. rewrite Hhist. rewrite HH. reflexivity.
Qed.

(** A cell that is alive after each of the frames [ks] gains one unit of
    history per frame, up to 255. *)
Lemma alive_streak ks p x y :
  Forall quiet ks -> raised p = None -> paused (locals p) = false ->
  state_ok (globals p) -> in_grid x y ->
  (forall i : nat, (1 <= i <= length ks)%nat ->
     get2 0 (grid (globals (run math_sin (take i ks) p))) y x = 1) ->
  Z.min (get2 0 (history_map (globals p)) y x + Z.of_nat (length ks)) 255
    <= get2 0 (history_map (globals (run math_sin ks p))) y x.
Proof.
  intros Hq Hrun Hp Hok Hin.
  induction ks as [|k ks IH] using rev_ind; intros Halive.
  - cbn. destruct Hok as (_ & _ & Hb). specialize (Hb x y Hin). lia.
  - apply Forall_app in Hq as [Hks Hk]. apply Forall_inv in Hk.
    assert (IH' := IH Hks). clear IH.
    assert (Hprev : forall i : nat, (1 <= i <= length ks)%nat ->
              get2 0 (grid (globals (run math_sin (take i ks) p))) y x = 1).
    { intros i Hi. rewrite <- (Halive i).
      - by rewrite take_app_le by lia.
      - rewrite length_app. cbn. lia. }
    specialize (IH' Hprev).
    destruct (run_quiet_running ks p Hks Hrun Hp) as [Hr' Hl'].
    pose proof (run_state_ok ks p Hok) as (Hwf & _ & Hb).
    specialize (Hb x y Hin).
    specialize (Halive (length (ks ++ [k]))).
    rewrite firstn_all in Halive. rewrite length_app in *. cbn [length] in *.
    rewrite run_snoc in *.
    rewrite (frame_history k (run math_sin ks p) x y Hk Hr') by (congruence || done).
    rewrite next_history_alive; [lia|lia|apply Halive; lia].
Qed.

(** C6. The history of every cell stays within [0, 255] however many
    frames run and whatever the keys; in a frame that ticks it goes up by
    one, capped at 255, when the cell is alive in the new grid, and down by
    one, floored at 0, when it is dead; a cell alive after each of 300
    consecutive ticks has history exactly 255. *)
Theorem history_bounds :
  (forall input g ks x y, in_grid x y ->
     0 <= get2 0 (history_map (globals (run math_sin ks (start input g)))) y x <= 255) /\
  (forall k p x y,
     quiet k -> raised p = None -> paused (locals p) = false ->
     state_ok (globals p) -> in_grid x y ->
     let h := get2 0 (history_map (globals p)) y x in
     let h' := get2 0 (history_map (globals (frame math_sin k p))) y x in
     let cell' := get2 0 (grid (globals (frame math_sin k p))) y x in
     (cell' = 1 -> h' = Z.min (h + 1) 255) /\
     (cell' <> 1 -> h' = Z.max (h - 1) 0)) /\
  (forall ks p x y,
     length ks = 300%nat -> Forall quiet ks ->
     raised p = None -> paused (locals p) = false ->
     state_ok (globals p) -> in_grid x y ->
     (forall i : nat, (1 <= i <= 300)%nat ->
        get2 0 (grid (globals (run math_sin (take i ks) p))) y x = 1) ->
     get2 0 (history_map (globals (run math_sin ks p))) y x = 255).
Proof.
  split; [|split].
  - intros input g ks x y Hin.
    destruct (run_state_ok ks (start input g) (start_state_ok input g)) as (_ & _ & Hb).
    by apply Hb.
  - intros k p x y Hq Hrun Hp Hok Hin. cbv zeta.
    destruct Hok as (Hwf & _ & Hb). specialize (Hb x y Hin).
    rewrite (frame_history k p x y Hq Hrun Hp Hwf Hin). split; intros Hc.
    + by apply next_history_alive.
    + by apply next_history_dead.
  - intros ks p x y Hlen Hq Hrun Hp Hok Hin Halive.
    pose proof (alive_streak ks p x y Hq Hrun Hp Hok Hin) as Hlow.
    rewrite Hlen in Hlow. specialize (Hlow Halive).
    destruct (run_state_ok ks p Hok) as (_ & _ & Hb). specialize (Hb x y Hin).
    destruct Hok as (_ & _ & Hb0). specialize (Hb0 x y Hin). lia.
Qed.

End Frames.

Lemma quiet_no_keys : quiet no_keys.
Proof. by repeat split. Qed.

(** The blinker through whole frames of [main], nutrient animation
    included: from 0.5 the field stays between the two thresholds. *)
Example blinker_frames :
  let p := life_program "B3/S23|M0" 0 blinker_flat 0.5 in
  grid (globals (run taylor_sin [no_keys] p)) = blinker_upright /\
  grid (globals (run taylor_sin [no_keys; no_keys] p)) = blinker_flat.
Proof. cbv zeta. split; vm_compute; reflexivity. Qed.


Lemma mutation_keeps_rule_witness :
  let p := life_program "B3/S23|M1" 1 block 0.5 in
  let m := mutate_rule 0 1 1 (globals p) in
  let p' := run taylor_sin [no_keys; no_keys; no_keys] p in
  (list_at (store m.2) 1%nat = [2; 3] /\ list_at (store m.2) m.1.2 = [2; 3; 5]) /\
  (list_at (store (globals p')) (birth (locals p')) = [3] /\
   list_at (store (globals p')) (survive (locals p')) = [2; 3] /\
   mutation (locals p') = 1%float /\
   DNA (globals p') = "B3/S23|M1"%string).
Proof.
  cbv zeta.
  destruct (mutation_keeps_rule taylor_sin) as [Hcall Hrun].
  split.
  - destruct (Hcall 0%nat 1%nat 1%float (globals (life_program "B3/S23|M1" 1 block 0.5)))
      as (_ & Hsv & _); [cbn; lia..|].
    split; [exact Hsv|]. vm_compute. reflexivity.
  - destruct (Hrun [no_keys; no_keys; no_keys] (life_program "B3/S23|M1" 1 block 0.5))
      as (_ & _ & Hm & Hb & Hsv & HD); [by repeat constructor|cbn; lia..|].
    split; [exact Hb|]. split; [exact Hsv|]. split; [exact Hm|exact HD].
Defined.

Lemma animate_reads_advanced_phase_witness :
  let s := globals (life_program "B3/S23|M0.01" 0.01 block 0) in
  let s' := animate_nutrients taylor_sin s in
  wave_phase s' = 0.05%float /\
  get2 0%float (nutrient_map s') 0 0 = 0.15749687539060175%float.
Proof.
  cbv zeta.
  destruct (animate_reads_advanced_phase taylor_sin
              (globals (life_program "B3/S23|M0.01" 0.01 block 0)) 0 0) as [Hw Hc].
  - apply shaped_zeros.
  - unfold in_grid, GRID_SIZE. lia.
  - split; [exact Hw|]. rewrite Hc, Hw. vm_compute. reflexivity.
Defined.

(** C3 as the specification states it fails: with phase 0 and every nutrient
    cell at 0, reading the phase before the increment would leave
    0.3 * (0.5 + 0.5 * sin 0) = 0.15 in cell (0, 0); the program leaves
    0.3 * (0.5 + 0.5 * sin 0.05) there. *)
Lemma animate_phase_counterexample :
  let s := globals (life_program "B3/S23|M0.01" 0.01 block 0) in
  let s' := animate_nutrients taylor_sin s in
  wave_phase s = 0%float /\
  get2 0%float (nutrient_map s) 0 0 = 0%float /\
  animated taylor_sin (wave_phase s) 0 0 (get2 0%float (nutrient_map s) 0 0)
    = 0.15%float /\
  get2 0%float (nutrient_map s') 0 0 = 0.15749687539060175%float /\
  PrimFloat.eqb (get2 0%float (nutrient_map s') 0 0)
    (animated taylor_sin (wave_phase s) 0 0 (get2 0%float (nutrient_map s) 0 0))
    = false.
Proof. cbv zeta. repeat split; vm_compute; reflexivity. Qed.

(** ** Parsing *)

Arguments Ascii.eqb a b : simpl never.

Lemma occurs_append c (a b : string) :
  occurs c (a ++ b) = occurs c a || occurs c b.
Proof.
  induction a as [|x a IH]; [done|].
  change (occurs c (String x (a ++ b)) = occurs c (String x a) || occurs c b).
  cbn [occurs]. by rewrite IH, orb_assoc.
Qed.

Lemma split_nonempty sep s : Str.split sep s <> [].
Proof.
  destruct s as [|c s]; cbn; [done|].
  destruct (Ascii.eqb c sep); [done|]. by destruct (Str.split sep s).
Qed.

Lemma join_split sep s : join sep (Str.split sep s) = s.
Proof.
  induction s as [|c s IH]; [done|]. cbn [Str.split].
  destruct (Ascii.eqb c sep) eqn:E.
  - apply Ascii.eqb_eq in E. subst c.
    pose proof (split_nonempty sep s) as Hne.
    destruct (Str.split sep s) eqn:Es; [done|]. rewrite <- IH. reflexivity.
  - pose proof (split_nonempty sep s) as Hne.
    destruct (Str.split sep s) as [|p ps] eqn:Es; [done|].
    rewrite <- IH. destruct ps; reflexivity.
Qed.

Lemma split_parts_clean sep s : Forall (fun p => occurs sep p = false) (Str.split sep s).
Proof.
  induction s as [|c s IH]; [by repeat constructor|]. cbn [Str.split].
  destruct (Ascii.eqb c sep) eqn:E.
  - by constructor.
  - pose proof (split_nonempty sep s) as Hne.
    destruct (Str.split sep s) as [|p ps]; [done|].
    inversion IH; subst. constructor; [|done]. cbn [occurs]. by rewrite E.
Qed.

Lemma split_append sep a s :
  occurs sep a = false ->
  Str.split sep (a ++ String sep s) = a :: Str.split sep s.
Proof.
  induction a as [|c a IH]; intros Ha.
  - change (Str.split sep (String sep s) = EmptyString :: Str.split sep s).
    cbn [Str.split]. by rewrite Ascii.eqb_refl.
  - change (Str.split sep (String c (a ++ String sep s)) = String c a :: Str.split sep s).
    cbn [occurs] in Ha. apply orb_false_iff in Ha as [Hc Ha].
    cbn [Str.split]. by rewrite Hc, IH.
Qed.

Lemma split_clean sep a : occurs sep a = false -> Str.split sep a = [a].
Proof.
  induction a as [|c a IH]; intros Ha; [done|].
  cbn [occurs Str.split] in *. apply orb_false_iff in Ha as [Hc Ha]. by rewrite Hc, IH.
Qed.

(** Splitting gives two parts exactly for a text with one separator. *)
Lemma split_two sep s a b :
  Str.split sep s = [a; b] <->
  s = (a ++ String sep b)%string /\ occurs sep a = false /\ occurs sep b = false.
Proof.
  split.
  - intros Hs. pose proof (join_split sep s) as Hj.
    pose proof (split_parts_clean sep s) as Hc. rewrite Hs in Hj, Hc.
    inversion Hc as [|? ? Ha Hc' E1]. inversion Hc' as [|? ? Hb _ E2].
    rewrite <- Hj. by repeat split.
  - intros (-> & Ha & Hb). by rewrite split_append, split_clean.
Qed.

Lemma ints_of_digits s : is_Some (Str.ints_of s) <-> digits_only s.
Proof.
  unfold Str.ints_of, digits_only. rewrite mapM_is_Some.
  apply Forall_iff. intros c. unfold compose, Str.int_of_char.
  destruct (Str.is_digit c); split; intros H; try done.
Qed.

Lemma ints_of_range s l :
  Str.ints_of s = Some l -> Forall (fun n => 0 <= n <= 9) l.
Proof.
  unfold Str.ints_of. intros H. apply mapM_Some_1 in H.
  eapply Forall2_Forall_r; [exact H|]. apply Forall_forall.
  intros c _ n. unfold Str.int_of_char.
  destruct (Str.is_digit c) eqn:E; [|done]. intros [= <-].
  unfold Str.is_digit, Str.digit_value in *. lia.
Qed.

(** [parse_dna] returns what [dna_fields] reads, in two new lists. *)
Lemma parse_dna_returns text s bs ss m :
  dna_fields text = Some (bs, ss, m) ->
  parse_dna text s =
    (Returned (length (store s), S (length (store s)), m),
     with_store ((store s ++ [PyList bs]) ++ [PyList ss]) s).
Proof.
  unfold dna_fields, parse_dna, alloc.
  destruct (Str.split "/" text) as [|b_part [|rest [|]]]; try done.
  destruct (Str.split "|" rest) as [|s_part [|m_part [|]]]; try done.
  destruct (Str.ints_of (Str.drop_first b_part)) as [bs'|]; [|done].
  destruct (Str.ints_of (Str.drop_first s_part)) as [ss'|]; [|done].
  destruct (Str.float_of_str (Str.drop_first m_part)) as [m'|]; [|done].
  cbn. intros [= -> -> ->]. rewrite length_app. cbn.
  by replace (length (store s) + 1)%nat with (S (length (store s))) by lia.
Qed.

(** [parse_dna] raises, and then it is [ValueError], exactly when
    [dna_fields] reads nothing. *)
Lemma parse_dna_raises text s :
  (parse_dna text s).1 = Raised ValueError <-> dna_fields text = None.
Proof.
  unfold dna_fields, parse_dna, alloc.
  destruct (Str.split "/" text) as [|b_part [|rest [|]]]; try done.
  destruct (Str.split "|" rest) as [|s_part [|m_part [|]]]; try done.
  destruct (Str.ints_of (Str.drop_first b_part)) as [bs'|]; [|done].
  destruct (Str.ints_of (Str.drop_first s_part)) as [ss'|]; [|done].
  destruct (Str.float_of_str (Str.drop_first m_part)) as [m'|]; done.
Qed.


(** ** The characters of a float text *)

Ltac in_charset :=
  cbn [list_ascii_of_string];
  repeat first [apply list_elem_of_here | apply list_elem_of_further].

Lemma consumed_refl l : consumed l l.
Proof. exists []. by split. Qed.

Lemma consumed_cons c l r : float_ok c -> consumed l r -> consumed (c :: l) r.
Proof.
  intros Hc (pre & -> & Hpre). exists (c :: pre). split; [done|]. by constructor.
Qed.

Lemma consumed_trans l m r : consumed l m -> consumed m r -> consumed l r.
Proof.
  intros (p1 & -> & H1) (p2 & -> & H2). exists (p1 ++ p2).
  split; [by rewrite app_assoc|]. by apply Forall_app.
Qed.

Lemma consumed_all l : consumed l [] -> Forall float_ok l.
Proof. intros (pre & -> & Hpre). by rewrite app_nil_r. Qed.

Lemma space_ok c : Str.is_space c = true -> float_ok c.
Proof. intros H. unfold float_ok, float_char. by rewrite H. Qed.

Lemma digit_ok c : Str.is_digit c = true -> float_ok c.
Proof. intros H. unfold float_ok, float_char. rewrite H. by rewrite orb_true_r. Qed.

Lemma letter_ok c :
  Str.lower c ∈ list_ascii_of_string "+-._einfaty" -> float_ok c.
Proof.
  intros H. unfold float_ok, float_char.
  rewrite (bool_decide_eq_true_2 _ H). by rewrite orb_true_r.
Qed.

Lemma eqb_ok c d :
  Ascii.eqb c d = true -> float_char d = true -> float_ok c.
Proof. intros H Hd. apply Ascii.eqb_eq in H. by subst. Qed.

Lemma drop_spaces_consumed l : consumed l (Str.drop_spaces l).
Proof.
  induction l as [|c l IH]; [apply consumed_refl|]. cbn [Str.drop_spaces].
  destruct (Str.is_space c) eqn:E; [|apply consumed_refl].
  by apply consumed_cons; [apply space_ok|].
Qed.

Lemma strip_ok l : Forall float_ok (Str.strip l) -> Forall float_ok l.
Proof.
  unfold Str.strip. intros H.
  destruct (drop_spaces_consumed l) as (p1 & E1 & H1).
  destruct (drop_spaces_consumed (reverse (Str.drop_spaces l))) as (p2 & E2 & H2).
  rewrite E1. apply Forall_app. split; [done|].
  rewrite <- (reverse_involutive (Str.drop_spaces l)), E2, reverse_app.
  apply Forall_app. split; [done|]. by apply Forall_reverse.
Qed.

Lemma sign_consumed l : consumed l (Str.sign l).2.
Proof.
  destruct l as [|c l]; [apply consumed_refl|]. cbn [Str.sign].
  destruct (Ascii.eqb c "-") eqn:E1.
  { cbn. apply consumed_cons; [|apply consumed_refl]. by apply (eqb_ok c "-"). }
  destruct (Ascii.eqb c "+") eqn:E2.
  { cbn. apply consumed_cons; [|apply consumed_refl]. by apply (eqb_ok c "+"). }
  apply consumed_refl.
Qed.

Lemma digits_tail_consumed l : consumed l (Str.digits_tail l).2.
Proof.
  assert (H : forall n l, (length l <= n)%nat -> consumed l (Str.digits_tail l).2).
  { clear l. induction n as [|n IH]; intros l Hn.
    - destruct l; [apply consumed_refl|cbn in Hn; lia].
    - destruct l as [|c l]; [apply consumed_refl|]. cbn [Str.digits_tail].
      cbn in Hn. destruct (Str.is_digit c) eqn:Ec.
      + pose proof (IH l ltac:(lia)) as Hl.
        destruct (Str.digits_tail l) as [ds r]. cbn [snd] in *.
        by apply consumed_cons; [apply digit_ok|].
      + destruct (Ascii.eqb c "_") eqn:Eu; [|apply consumed_refl].
        destruct l as [|d l]; [apply consumed_refl|].
        destruct (Str.is_digit d) eqn:Ed; [|apply consumed_refl].
        cbn in Hn. pose proof (IH l ltac:(lia)) as Hl.
        destruct (Str.digits_tail l) as [ds r]. cbn [snd] in *.
        apply consumed_cons; [by apply (eqb_ok c "_")|].
        by apply consumed_cons; [apply digit_ok|]. }
  by apply (H (length l)).
Qed.

Lemma digitpart_consumed l : consumed l (Str.digitpart l).2.
Proof.
  destruct l as [|c l]; [apply consumed_refl|]. cbn [Str.digitpart].
  destruct (Str.is_digit c) eqn:Ec; [|apply consumed_refl].
  pose proof (digits_tail_consumed l) as Hl.
  destruct (Str.digits_tail l) as [ds r]. cbn [snd] in *.
  by apply consumed_cons; [apply digit_ok|].
Qed.

Lemma exponent_consumed l e r : Str.exponent l = Some (e, r) -> consumed l r.
Proof.
  destruct l as [|c l]; cbn [Str.exponent].
  { intros [= _ <-]. apply consumed_refl. }
  destruct (Ascii.eqb (Str.lower c) "e") eqn:Ee.
  - pose proof (sign_consumed l) as Hs.
    destruct (Str.sign l) as [neg s1]. cbn [snd] in Hs.
    pose proof (digitpart_consumed s1) as Hd.
    destruct (Str.digitpart s1) as [[|d ds] r']; [done|]. cbn [snd] in Hd.
    intros [= _ <-]. apply consumed_cons.
    + apply letter_ok. apply Ascii.eqb_eq in Ee. rewrite Ee. in_charset.
    + by apply (consumed_trans _ s1).
  - intros [= _ <-]. apply consumed_refl.
Qed.

Lemma floatnumber_ok neg l v : Str.floatnumber neg l = Some v -> Forall float_ok l.
Proof.
  unfold Str.floatnumber.
  pose proof (digitpart_consumed l) as H1.
  destruct (Str.digitpart l) as [ip s1]. cbn [snd] in H1.
  assert (H2 : consumed s1
            (match s1 with
             | c :: s1' => if Ascii.eqb c "." then Str.digitpart s1' else ([], s1)
             | [] => ([], s1)
             end).2).
  { destruct s1 as [|c s1']; [apply consumed_refl|].
    destruct (Ascii.eqb c ".") eqn:Ec; [|apply consumed_refl].
    apply consumed_cons; [by apply (eqb_ok c ".")|]. apply digitpart_consumed. }
  destruct (match s1 with
            | c :: s1' => if Ascii.eqb c "." then Str.digitpart s1' else ([], s1)
            | [] => ([], s1)
            end) as [fp s2]. cbn [snd] in H2.
  destruct (ip ++ fp); [done|].
  destruct (Str.exponent s2) as [[e [|c r]]|] eqn:Ee; try done.
  intros _. apply consumed_all.
  apply (consumed_trans _ s1); [done|]. apply (consumed_trans _ s2); [done|].
  by apply (exponent_consumed s2 e).
Qed.

Lemma is_word_ok w body :
  Forall (fun c => c ∈ list_ascii_of_string "+-._einfaty") (list_ascii_of_string w) ->
  Str.is_word w body = true -> Forall float_ok body.
Proof.
  intros Hw H. unfold Str.is_word in H. apply bool_decide_eq_true_1 in H.
  rewrite <- H in Hw. apply Forall_fmap in Hw.
  eapply Forall_impl; [exact Hw|]. intros c Hc. by apply letter_ok.
Qed.

(** A text that [float] accepts is made of [float_char]s. *)
Lemma float_of_str_chars f :
  is_Some (Str.float_of_str f) -> Forall float_ok (list_ascii_of_string f).
Proof.
  unfold Str.float_of_str. intros H. apply strip_ok.
  pose proof (sign_consumed (Str.strip (list_ascii_of_string f))) as Hs.
  destruct (Str.sign (Str.strip (list_ascii_of_string f))) as [neg body].
  cbn [snd] in Hs. destruct Hs as (pre & -> & Hpre).
  apply Forall_app. split; [done|].
  destruct (Str.is_word "inf" body) eqn:E1.
  { apply (is_word_ok "inf"); [|done]. repeat (constructor; [in_charset|]). constructor. }
  destruct (Str.is_word "infinity" body) eqn:E2.
  { apply (is_word_ok "infinity"); [|done]. repeat (constructor; [in_charset|]). constructor. }
  cbn [orb] in H.
  destruct (Str.is_word "nan" body) eqn:E3.
  { apply (is_word_ok "nan"); [|done]. repeat (constructor; [in_charset|]). constructor. }
  destruct H as [v Hv]. by apply (floatnumber_ok neg body v).
Qed.

Lemma occurs_chars c s :
  float_char c = false -> Forall float_ok (list_ascii_of_string s) -> occurs c s = false.
Proof.
  intros Hc. induction s as [|d s IH]; [done|]. cbn [list_ascii_of_string occurs].
  intros H. inversion H as [|? ? Hd Hs]; subst. rewrite (IH Hs), orb_false_r.
  destruct (Ascii.eqb d c) eqn:E; [|done].
  apply Ascii.eqb_eq in E. subst. unfold float_ok in Hd. congruence.
Qed.

(** A text that [float] accepts holds no "/" and no "|". *)
Lemma float_no_separator f :
  is_Some (Str.float_of_str f) -> occurs "/" f = false /\ occurs "|" f = false.
Proof.
  intros H. apply float_of_str_chars in H.
  split; apply occurs_chars; done.
Qed.

(** ** The readers at work *)

(** [float_of_str] and Rocq's reading of the same literal agree, also where
    the decimal is not representable, is a tie, or is subnormal. *)
Example float_of_str_values :
  Str.float_of_str "0.01" = Some 0.01%float /\
  Str.float_of_str " 1_0.5e-3 " = Some 0.0105%float /\
  Str.float_of_str "-.9" = Some (-0.9)%float /\
  Str.float_of_str "1." = Some 1%float /\
  Str.float_of_str "9007199254740993" = Some 9007199254740993%float /\
  Str.float_of_str "0.30000000000000004" = Some 0.30000000000000004%float /\
  Str.float_of_str "1.7976931348623157e308" = Some 1.7976931348623157e308%float /\
  Str.float_of_str "4.9e-324" = Some 4.9e-324%float /\
  Str.float_of_str "1e400" = Some infinity /\
  Str.float_of_str "-Infinity" = Some neg_infinity.
Proof. repeat split; vm_compute; reflexivity. Qed.

Example float_of_str_rejects :
  Str.float_of_str "" = None /\ Str.float_of_str "." = None /\
  Str.float_of_str "1e" = None /\ Str.float_of_str "1_" = None /\
  Str.float_of_str "1__0" = None /\ Str.float_of_str "0x10" = None /\
  Str.float_of_str "1 2" = None /\ Str.float_of_str "abc" = None.
Proof. repeat split; vm_compute; reflexivity. Qed.

(** The sign is kept, whatever the exponent. *)
Example float_of_str_signs :
  Str.float_of_str "-1" = Some (-1)%float /\
  Str.float_of_str "-2e2" = Some (-200)%float /\
  Str.float_of_str "-1.5" = Some (-1.5)%float /\
  Str.float_of_str "-0.01" = Some (-0.01)%float /\
  Str.float_of_str "-1e400" = Some neg_infinity /\
  Str.float_of_str "-0" = Some (-0)%float /\
  Str.float_of_str "+1e2" = Some 100%float /\
  dna_fields "B3/S23|M-1" = Some ([3], [2; 3], (-1)%float).
Proof. repeat split; vm_compute; reflexivity. Qed.

(** The separators 28 to 31 are not stripped; a tab, a new line and a
    no-break space are. *)
Example float_of_str_separators :
  Str.float_of_str (String (ascii_of_nat 28) "0.5") = None /\
  Str.float_of_str (String (ascii_of_nat 29) "1") = None /\
  Str.float_of_str ("1" ++ String (ascii_of_nat 30) "") = None /\
  Str.float_of_str (String (ascii_of_nat 31) "1") = None /\
  dna_fields ("B3/S23|M" ++ String (ascii_of_nat 28) "1") = None /\
  Str.float_of_str (String (ascii_of_nat 9) ("1" ++ String (ascii_of_nat 10) "")) =
    Some 1%float /\
  Str.float_of_str (String (ascii_of_nat 160) "1") = Some 1%float.
Proof. repeat split; vm_compute; reflexivity. Qed.

(** The default rule text parses to birth [3], survival [2, 3] and mutation
    rate 0.01, and [edit_dna] on it gives [life_program]. *)
Example dna_fields_default : dna_fields "B3/S23|M0.01" = Some ([3], [2; 3], 0.01%float).
Proof. vm_compute. reflexivity. Qed.

Lemma edit_dna_life g nut :
  edit_dna "B3/S23|M0.01" (life_locals 0) (blank g nut) =
    life_program "B3/S23|M0.01" 0.01 g nut.
Proof.
  unfold edit_dna.
  change (DNA (with_DNA (dna_input_gui "B3/S23|M0.01" (blank g nut)) (blank g nut)))
    with "B3/S23|M0.01"%string.
  by rewrite (parse_dna_returns _ _ _ _ _ dna_fields_default).
Qed.

(** ** What [parse_dna] accepts and returns *)

Lemma parse_dna_returned text s b sv m s' :
  parse_dna text s = (Returned (b, sv, m), s') ->
  exists bs ss,
    dna_fields text = Some (bs, ss, m) /\
    b = length (store s) /\ sv = S (length (store s)) /\
    s' = with_store ((store s ++ [PyList bs]) ++ [PyList ss]) s.
Proof.
  intros H. destruct (dna_fields text) as [[[bs ss] m']|] eqn:E.
  - rewrite (parse_dna_returns text s bs ss m' E) in H.
    injection H as <- <- <- <-. by exists bs, ss.
  - apply (parse_dna_raises text s) in E. rewrite H in E. discriminate.
Qed.

Lemma list_at_first st o1 o2 l :
  o1 = PyList l -> list_at ((st ++ [o1]) ++ [o2]) (length st) = l.
Proof.
  intros ->. unfold list_at.
  rewrite lookup_app_l by (rewrite length_app; cbn; lia).
  rewrite lookup_app_r by lia. by rewrite Nat.sub_diag.
Qed.

Lemma list_at_second st o1 o2 l :
  o2 = PyList l -> list_at ((st ++ [o1]) ++ [o2]) (S (length st)) = l.
Proof.
  intros ->. unfold list_at.
  rewrite lookup_app_r by (rewrite length_app; cbn; lia).
  rewrite length_app. cbn.
  by replace (S (length st) - (length st + 1))%nat with 0%nat by lia.
Qed.

(** C4, as the code has it.  When [parse_dna] accepts a text, the birth and
    survival lists it returns hold only values in [0, 9]: every decimal
    digit is taken, 9 included. *)
Theorem parse_dna_digit_range (text : string) (s s' : State) (b sv : nat) (m : float) :
  parse_dna text s = (Returned (b, sv, m), s') ->
  Forall (fun n => 0 <= n <= 9) (list_at (store s') b) /\
  Forall (fun n => 0 <= n <= 9) (list_at (store s') sv).
Proof.
  intros H. apply parse_dna_returned in H as (bs & ss & Hf & -> & -> & ->).
  cbn [store with_store].
  rewrite (list_at_first _ _ _ bs eq_refl), (list_at_second _ _ _ ss eq_refl).
  unfold dna_fields in Hf.
  destruct (Str.split "/" text) as [|b_part [|rest [|]]]; try done.
  destruct (Str.split "|" rest) as [|s_part [|m_part [|]]]; try done.
  destruct (Str.ints_of (Str.drop_first b_part)) as [bs'|] eqn:Eb; [|done].
  destruct (Str.ints_of (Str.drop_first s_part)) as [ss'|] eqn:Es; [|done].
  destruct (Str.float_of_str (Str.drop_first m_part)) as [m'|]; [|done].
  cbn in Hf. injection Hf as <- <- <-.
  split; eapply ints_of_range; eassumption.
Qed.

Lemma parse_dna_digit_range_witness :
  let r := parse_dna "B36/S125|M0.5" (initial steady) in
  r.1 = Returned (0%nat, 1%nat, 0.5%float) /\
  Forall (fun n => 0 <= n <= 9) (list_at (store r.2) 0%nat) /\
  Forall (fun n => 0 <= n <= 9) (list_at (store r.2) 1%nat).
Proof.
  cbv zeta. split; [vm_compute; reflexivity|].
  apply (parse_dna_digit_range "B36/S125|M0.5" (initial steady) _ 0%nat 1%nat 0.5%float).
  vm_compute. reflexivity.
Defined.

(** C4 as the specification states it fails: "B9/S23|M0.01" is accepted and
    its birth list holds 9, which is no neighbour count. *)
Lemma parse_dna_nine_counterexample :
  let r := parse_dna "B9/S23|M0.01" (initial steady) in
  r.1 = Returned (0%nat, 1%nat, 0.01%float) /\
  list_at (store r.2) 0%nat = [9] /\
  forallb (fun n => (0 <=? n) && (n <=? 8)) (list_at (store r.2) 0%nat) = false.
Proof. cbv zeta. repeat split; vm_compute; reflexivity. Qed.



Lemma digit_no_separator s c :
  digits_only s -> Str.is_digit c = false -> occurs c s = false.
Proof.
  intros Hs Hc. induction s as [|d s IH]; [done|].
  inversion Hs as [|? ? Hd Hs']; subst. cbn [occurs]. rewrite (IH Hs'), orb_false_r.
  destruct (Ascii.eqb d c) eqn:E; [|done]. apply Ascii.eqb_eq in E. congruence.
Qed.





(** ** The empty rule *)





(** ** A rejected rule text *)

Section RuleEdit.

Variable math_sin : float -> float.

Lemma run_raised ks p e : raised p = Some e -> run math_sin ks p = p.
Proof.
  intros Hr. induction ks as [|k ks IH] using rev_ind; [done|].
  rewrite run_snoc, IH. unfold frame. by rewrite Hr.
Qed.

(** C5, as the code has it.  When [parse_dna] rejects the text entered at the
    prompt, [ValueError] is raised and nothing catches it: the locals
    [birth], [survive], [mutation], the lists they name, the three arrays and
    the phase are as before, and no later frame changes anything; the global
    [DNA], assigned before the text is parsed, holds the rejected text. *)
Theorem edit_dna_rejected (user_input : string) (l : Locals) (s : State) :
  let text := dna_input_gui user_input s in
  (parse_dna text (with_DNA text s)).1 = Raised ValueError ->
  let p := edit_dna user_input l s in
  raised p = Some ValueError /\
  locals p = l /\
  grid (globals p) = grid s /\
  nutrient_map (globals p) = nutrient_map s /\
  history_map (globals p) = history_map s /\
  wave_phase (globals p) = wave_phase s /\
  (forall r : nat, (r < length (store s))%nat -> store (globals p) !! r = store s !! r) /\
  DNA (globals p) = text /\
  (forall ks, run math_sin ks p = p).
Proof.
  cbv zeta. intros Hfail.
  destruct (edit_dna_arrays user_input l s) as (HG & HN & HH & HW).
  assert (Hp : raised (edit_dna user_input l s) = Some ValueError /\
               locals (edit_dna user_input l s) = l /\
               keeps (with_DNA (dna_input_gui user_input s) s)
                 (globals (edit_dna user_input l s))).
  { unfold edit_dna.
    pose proof (parse_dna_extends (DNA (with_DNA (dna_input_gui user_input s) s))
                  (with_DNA (dna_input_gui user_input s) s)) as Hext.
    apply extends_keeps in Hext.
    change (DNA (with_DNA (dna_input_gui user_input s) s))
      with (dna_input_gui user_input s) in *.
    destruct (parse_dna _ _) as [[[[b sv] m]|e] s2]; cbn [fst snd] in *; [done|].
    injection Hfail as ->. split; [reflexivity|]. split; [reflexivity|exact Hext]. }
  destruct Hp as (Hr & Hl & HD & _ & Hst).
  repeat split; try done.
  intros ks. by apply (run_raised ks _ ValueError).
Qed.

End RuleEdit.

Lemma edit_dna_rejected_witness :
  let s := globals (life_program "B3/S23|M0.01" 0.01 block 0.5) in
  let p := edit_dna "B3S23M0.01" (life_locals 0.01) s in
  raised p = Some ValueError /\
  locals p = life_locals 0.01 /\
  grid (globals p) = block /\
  list_at (store (globals p)) 0%nat = [3] /\
  list_at (store (globals p)) 1%nat = [2; 3] /\
  run taylor_sin [no_keys; no_keys] p = p.
Proof.
  cbv zeta.
  destruct (edit_dna_rejected taylor_sin "B3S23M0.01" (life_locals 0.01)
              (globals (life_program "B3/S23|M0.01" 0.01 block 0.5)))
    as (Hr & Hl & HG & _ & _ & _ & Hst & _ & Hrun).
  { vm_compute. reflexivity. }
  split; [exact Hr|]. split; [exact Hl|]. split; [exact HG|].
  unfold list_at. rewrite !Hst by (cbn; lia).
  split; [reflexivity|]. split; [reflexivity|]. apply Hrun.
Defined.

(** C5 as the specification states it fails: a running program with rule
    text "B3/S23|M0.01" in which [D] is pressed and "B3S23M0.01" is typed ends
    the frame with [ValueError] raised and "B3S23M0.01" as its rule text. *)
Lemma edit_dna_text_counterexample :
  let p := life_program "B3/S23|M0.01" 0.01 block 0.5 in
  let p' := frame taylor_sin (mkKeys false false true "B3S23M0.01") p in
  DNA (globals p) = "B3/S23|M0.01"%string /\
  raised p' = Some ValueError /\
  DNA (globals p') = "B3S23M0.01"%string /\
  String.eqb (DNA (globals p')) (DNA (globals p)) = false.
Proof. cbv zeta. repeat split; vm_compute; reflexivity. Qed.

(** ** A cell that never dies *)

Lemma live_neighbours_le g x y : (live_neighbours g x y <= 8)%nat.
Proof.
  unfold live_neighbours.
  etransitivity; [apply List.filter_length_le|]. unfold moore. by rewrite length_fmap.
Qed.

Section Streak.

Variable math_sin : float -> float.

(** The state a frame that ticks leaves uses the same entropy tape. *)
Lemma frame_quiet_tape k p :
  quiet k -> raised p = None -> paused (locals p) = false ->
  tape (rng (globals (frame math_sin k p))) = tape (rng (globals p)).
Proof.
  intros Hq Hr Hp. rewrite (frame_quiet math_sin k p Hq Hr Hp). cbn [globals].
  destruct (animate_nutrients_cells math_sin (globals p)) as ((_ & _ & _ & _ & Hrng) & _).
  set (fed := animate_nutrients math_sin (globals p)) in *.
  pose proof (mutate_rule_extends (birth (locals p)) (survive (locals p))
                (mutation (locals p)) fed) as (_&_&_&_&_&Ht&_).
  unfold update_grid.
  destruct (mutate_rule _ _ _ fed) as [[b_mut s_mut] s1]. cbn [snd] in Ht.
  cells_invariant (fun (_ _ : Z) (acc : list (list Z) * State) =>
    rng acc.2 = rng s1) Hloop.
  - reflexivity.
  - intros x y [ng t] _ Hrt. unfold update_cell. cbn [snd].
    repeat match goal with |- context [if ?c then _ else _] => destruct c end;
      exact Hrt.
  - auto.
  - destruct (Py.for_range _ _ _) as [ng t]. cbn [snd] in Hloop.
    cbn [rng with_grid]. rewrite Hloop, Ht, Hrng. reflexivity.
Qed.

(** Under a survival list with every count, without mutation, an alive cell
    is alive after a frame that ticks. *)
Lemma stays_alive k p x y :
  quiet k -> raised p = None -> paused (locals p) = false ->
  mutation (locals p) = 0%float ->
  (birth (locals p) < length (store (globals p)))%nat ->
  store (globals p) !! survive (locals p) = Some (PyList [0; 1; 2; 3; 4; 5; 6; 7; 8]) ->
  rng_ok (rng (globals p)) -> state_ok (globals p) -> in_grid x y ->
  get2 0 (grid (globals p)) y x = 1 ->
  get2 0 (grid (globals (frame math_sin k p))) y x = 1.
Proof.
  intros Hq Hr Hp Hm Hb Hsv Hok ((Hg & Hn & Hh) & Hbin & _) Hin Halive.
  rewrite (frame_quiet math_sin k p Hq Hr Hp). cbn [globals]. rewrite Hm.
  destruct (animate_nutrients_cells math_sin (globals p))
    as ((_ & HG & HH & Hst & Hrng) & _).
  set (fed := animate_nutrients math_sin (globals p)) in *.
  destruct (update_grid_cells (birth (locals p)) (survive (locals p)) 0 fed)
    as (_ & _ & _ & Hcells).
  { by rewrite HG. }
  { by rewrite HH. }
  destruct (Hcells x y Hin) as [-> _].
  apply next_cell_alive; [by rewrite HG|]. left.
  pose proof (lookup_lt_Some _ _ _ Hsv) as Hsl.
  apply (mutate_rule_off (birth (locals p)) (survive (locals p)) fed);
    [by rewrite Hrng|by rewrite Hst..|].
  unfold list_at. rewrite Hst, Hsv, HG, (count_neighbors_live _ x y Hbin).
  pose proof (live_neighbours_le (grid (globals p)) x y) as Hle.
  destruct (live_neighbours (grid (globals p)) x y) as [|[|[|[|[|[|[|[|[|n]]]]]]]]];
    [in_charset..|lia].
Qed.

Lemma always_alive ks p x y :
  Forall quiet ks -> raised p = None -> paused (locals p) = false ->
  mutation (locals p) = 0%float ->
  (birth (locals p) < length (store (globals p)))%nat ->
  store (globals p) !! survive (locals p) = Some (PyList [0; 1; 2; 3; 4; 5; 6; 7; 8]) ->
  rng_ok (rng (globals p)) -> state_ok (globals p) -> in_grid x y ->
  get2 0 (grid (globals p)) y x = 1 ->
  rng_ok (rng (globals (run math_sin ks p))) /\
  get2 0 (grid (globals (run math_sin ks p))) y x = 1.
Proof.
  intros Hq Hr Hp Hm Hb Hsv Hok Hstate Hin Halive.
  induction ks as [|k ks IH] using rev_ind; [by split|].
  apply Forall_app in Hq as [Hks Hk]. apply Forall_inv in Hk.
  destruct (IH Hks) as [Hok' Halive']. clear IH.
  destruct (run_quiet_running math_sin ks p Hks Hr Hp) as [Hr' Hl'].
  destruct (run_keeps math_sin ks p) as ((_ & Hlen & Hst) & _).
  { eapply Forall_impl; [exact Hks|]. by intros k' (_ & _ & ?). }
  pose proof (run_state_ok math_sin ks p Hstate) as Hstate'.
  pose proof (lookup_lt_Some _ _ _ Hsv) as Hsl.
  rewrite run_snoc.
  assert (Hp' : paused (locals (run math_sin ks p)) = false) by by rewrite Hl'.
  split.
  - intros i. rewrite (frame_quiet_tape k _ Hk Hr' Hp'). apply Hok'.
  - apply stays_alive; try done.
    + by rewrite Hl'.
    + rewrite Hl'. lia.
    + rewrite Hl', Hst by done. exact Hsv.
Qed.

End Streak.

Lemma state_ok_evergreen : state_ok (globals evergreen).
Proof.
  split; [split; [apply shaped_paint|split; apply shaped_zeros]|]. split.
  - apply binary_check. vm_compute. reflexivity.
  - intros x y Hin. cbn. rewrite (get2_zeros 0 0 x y Hin). lia.
Qed.

Lemma history_bounds_witness :
  (0 <= get2 0 (history_map (globals (run taylor_sin [no_keys] (start "" steady)))) 3 4 <= 255) /\
  (let p := evergreen in
   let h := get2 0 (history_map (globals p)) 10 10 in
   let h' := get2 0 (history_map (globals (frame taylor_sin no_keys p))) 10 10 in
   let cell' := get2 0 (grid (globals (frame taylor_sin no_keys p))) 10 10 in
   (cell' = 1 -> h' = Z.min (h + 1) 255) /\ (cell' <> 1 -> h' = Z.max (h - 1) 0)) /\
  get2 0 (history_map (globals (run taylor_sin (replicate 300 no_keys) evergreen))) 10 10 = 255.
Proof.
  destruct (history_bounds taylor_sin) as (Hbound & Htick & Hstreak).
  assert (Hin : forall a b, 0 <= a < 50 -> 0 <= b < 50 -> in_grid a b)
    by (intros a b Ha Hb; split; [exact Ha|exact Hb]).
  split; [|split].
  - apply Hbound. apply Hin; lia.
  - apply Htick.
    + exact quiet_no_keys.
    + reflexivity.
    + reflexivity.
    + exact state_ok_evergreen.
    + apply Hin; lia.
  - apply Hstreak.
    + apply length_replicate.
    + apply Forall_replicate, quiet_no_keys.
    + reflexivity.
    + reflexivity.
    + exact state_ok_evergreen.
    + apply Hin; lia.
    + intros i Hi. rewrite take_replicate.
      apply (always_alive taylor_sin).
      * apply Forall_replicate, quiet_no_keys.
      * reflexivity.
      * reflexivity.
      * reflexivity.
      * cbn. lia.
      * reflexivity.
      * exact rng_ok_steady.
      * exact state_ok_evergreen.
      * apply Hin; lia.
      * vm_compute. reflexivity.
Defined.


(** * More of the program *)

(** ** The nutrient field stays within [0, 1] *)

Lemma ltb_leb a b : PrimFloat.ltb a b = true -> PrimFloat.leb a b = true.
Proof.
  rewrite ltb_spec, leb_spec. unfold SFltb, SFleb.
  by destruct (SFcompare (Prim2SF a) (Prim2SF b)) as [[]|].
Qed.

(** [max(0.0, min(1.0, v))] is between 0.0 and 1.0 whatever [v] is, a
    not-a-number or an infinity included. *)
Lemma clamp_in_unit v : in_unit (Py.max_float 0 (Py.min_float 1 v)).
Proof.
  unfold Py.max_float, Py.min_float, in_unit.
  destruct (PrimFloat.ltb v 1) eqn:E1.
  - destruct (PrimFloat.ltb 0 v) eqn:E0.
    + split; by apply ltb_leb.
    + split; reflexivity.
  - change (PrimFloat.ltb 0 1) with true. cbn. split; reflexivity.
Qed.

Section Nutrients.

Variable math_sin : float -> float.

(** X1. After [animate_nutrients] every nutrient cell is a number between
    0.0 and 1.0, whatever the field held before and whatever [math.sin]
    returned (a not-a-number is clamped to 1.0, since it compares false). *)
Theorem animate_nutrients_in_unit (s : State) (x y : Z) :
  shaped (nutrient_map s) -> in_grid x y ->
  in_unit (get2 0%float (nutrient_map (animate_nutrients math_sin s)) y x).
Proof.
  intros Hn Hin.
  destruct (animate_nutrients_cells math_sin s) as (_ & _ & Hcells).
  destruct (Hcells Hn) as [_ Hc]. rewrite (Hc x y Hin).
  unfold animated. apply clamp_in_unit.
Qed.

End Nutrients.

(** A sine that returns not-a-number everywhere. *)
Lemma animate_nutrients_in_unit_witness :
  let s := globals (life_program "B3/S23|M0.01" 0.01 block 0.5) in
  in_unit (get2 0%float (nutrient_map (animate_nutrients (fun _ => nan) s)) 7 3) /\
  get2 0%float (nutrient_map (animate_nutrients (fun _ => nan) s)) 7 3 = 1%float.
Proof.
  cbv zeta. split.
  - apply (animate_nutrients_in_unit (fun _ => nan)).
    + apply shaped_zeros.
    + unfold in_grid, GRID_SIZE. lia.
  - vm_compute. reflexivity.
Defined.

(** ** Frames: the phase, and pausing *)

(** [update_grid] leaves the nutrient field, the phase and the rule text as
    they were and draws only what [mutate_rule] draws, whatever the shapes. *)
Lemma update_grid_untouched birth survive mutation s :
  let s' := update_grid birth survive mutation s in
  DNA s' = DNA s /\ nutrient_map s' = nutrient_map s /\
  wave_phase s' = wave_phase s /\
  store s' = store (mutate_rule birth survive mutation s).2 /\
  rng s' = rng (mutate_rule birth survive mutation s).2.
Proof.
  cbv zeta. unfold update_grid.
  pose proof (mutate_rule_extends birth survive mutation s) as (HD & _ & HN & _ & HW & _).
  destruct (mutate_rule birth survive mutation s) as [[b_mut s_mut] s1].
  cbn [snd] in *.
  cells_invariant (fun (_ _ : Z) (acc : list (list Z) * State) =>
    DNA acc.2 = DNA s1 /\ nutrient_map acc.2 = nutrient_map s1 /\
    wave_phase acc.2 = wave_phase s1 /\ store acc.2 = store s1 /\
    rng acc.2 = rng s1) Hloop.
  - by repeat split.
  - intros x y [ng t] _ Hinv. unfold update_cell. cbn [snd].
    repeat match goal with |- context [if ?c then _ else _] => destruct c end;
      exact Hinv.
  - auto.
  - destruct (Py.for_range _ _ _) as [ng t]. cbn [snd] in Hloop.
    destruct Hloop as (H1 & H2 & H3 & H4 & H5). cbn.
    repeat split; congruence.
Qed.

Section Pausing.

Variable math_sin : float -> float.

(** X2. Every frame that ends without an exception advances the phase
    accumulator by 0.05 exactly once: also a paused frame, a frame that
    resets the grids and a frame that loads a rule.  A frame that ends with
    an exception leaves the phase as it was. *)
Theorem frame_advances_phase (k : Keys) (p : Program) :
  wave_phase (globals (frame math_sin k p)) =
    match raised (frame math_sin k p) with
    | None => (wave_phase (globals p) + 0.05)%float
    | Some _ => wave_phase (globals p)
    end.
Proof.
  unfold frame. destruct (raised p) eqn:Hr; [by rewrite Hr|].
  set (l := if KEY_SPACE k then _ else _). clearbody l.
  set (s := if KEY_R k then _ else globals p).
  assert (Hs : wave_phase s = wave_phase (globals p)).
  { unfold s. destruct (KEY_R k); [|done].
    destruct (randomize_grid_spec (globals p)) as ((_ & _ & HW & _) & _).
    destruct (generate_nutrient_map_spec (randomize_grid (globals p)))
      as ((_ & _ & _ & HW' & _) & _).
    congruence. }
  clearbody s.
  set (q := if KEY_D k then _ else _).
  assert (Hq : wave_phase (globals q) = wave_phase s).
  { unfold q. destruct (KEY_D k); [|done]. apply edit_dna_arrays. }
  clearbody q. destruct (raised q) eqn:Hrq; [rewrite Hrq; congruence|].
  cbn [raised globals].
  destruct (animate_nutrients_cells math_sin (globals q)) as (_ & HW & _).
  destruct (paused (locals q)).
  - rewrite HW. congruence.
  - destruct (update_grid_untouched (birth (locals q)) (survive (locals q))
                (mutation (locals q)) (animate_nutrients math_sin (globals q)))
      as (_ & _ & HW' & _).
    rewrite HW', HW. congruence.
Qed.

(** X3. In a frame of a running program that is paused once [SPACE] has
    been looked at, and in which neither [R] nor [D] is pressed, the grid,
    the history, the rule, the store and the generator are left as they
    were, and yet the nutrient field is animated and the phase advances:
    pausing stops the cells, not the nutrient wave. *)
Theorem paused_frame (k : Keys) (p : Program) :
  raised p = None -> KEY_R k = false -> KEY_D k = false ->
  paused_in k p = true ->
  let p' := frame math_sin k p in
  globals p' = animate_nutrients math_sin (globals p) /\
  raised p' = None /\ paused (locals p') = true /\
  grid (globals p') = grid (globals p) /\
  history_map (globals p') = history_map (globals p) /\
  store (globals p') = store (globals p) /\
  rng (globals p') = rng (globals p) /\
  DNA (globals p') = DNA (globals p) /\
  wave_phase (globals p') = (wave_phase (globals p) + 0.05)%float.
Proof.
  intros Hr HR HD Hp. cbv zeta.
  assert (Hf : frame math_sin k p =
    mkProgram (if KEY_SPACE k
               then mkLocals (birth (locals p)) (survive (locals p))
                      (mutation (locals p)) (negb (paused (locals p)))
               else locals p)
      (animate_nutrients math_sin (globals p)) None).
  { unfold frame. rewrite Hr, HR, HD. cbn [raised locals globals].
    unfold paused_in in Hp. destruct (KEY_SPACE k); cbn [paused]; by rewrite Hp. }
  rewrite Hf. cbn [globals raised locals].
  destruct (animate_nutrients_cells math_sin (globals p))
    as ((H1 & H2 & H3 & H4 & H5) & HW & _).
  split; [reflexivity|]. split; [reflexivity|]. split.
  { unfold paused_in in Hp. by destruct (KEY_SPACE k). }
  by repeat split.
Qed.

End Pausing.

Lemma paused_frame_witness :
  let p := life_program "B3/S23|M0.01" 0.01 blinker_flat 0.5 in
  let p' := frame taylor_sin (mkKeys true false false "") p in
  globals p' = animate_nutrients taylor_sin (globals p) /\
  raised p' = None /\ paused (locals p') = true /\
  grid (globals p') = blinker_flat /\
  history_map (globals p') = history_map (globals p) /\
  store (globals p') = store (globals p) /\
  rng (globals p') = rng (globals p) /\
  DNA (globals p') = DNA (globals p) /\
  wave_phase (globals p') = (wave_phase (globals p) + 0.05)%float.
Proof.
  apply (paused_frame taylor_sin (mkKeys true false false "")
           (life_program "B3/S23|M0.01" 0.01 blinker_flat 0.5));
    reflexivity.
Defined.

(** ** More on [count_neighbors] *)

(** X4. On a grid of 0s and 1s [count_neighbors] is a neighbour count: a
    number from 0 to 8, at every pair of coordinates, inside the grid or
    not. *)
Theorem count_neighbors_range (g : list (list Z)) (x y : Z) :
  binary g -> 0 <= count_neighbors g x y <= 8.
Proof.
  intros Hbin. rewrite (count_neighbors_live g x y Hbin).
  pose proof (live_neighbours_le g x y). lia.
Qed.

Lemma count_neighbors_range_witness :
  0 <= count_neighbors blinker_flat 11 9 <= 8 /\ count_neighbors blinker_flat 11 9 = 3.
Proof.
  split.
  - apply (count_neighbors_range blinker_flat 11 9).
    apply binary_check. vm_compute. reflexivity.
  - vm_compute. reflexivity.
Defined.

Lemma mod_shift (x k d : Z) :
  (x + k * GRID_SIZE + d) mod GRID_SIZE = (x + d) mod GRID_SIZE.
Proof.
  replace (x + k * GRID_SIZE + d) with (x + d + k * GRID_SIZE) by lia.
  apply Z_mod_plus_full.
Qed.

Lemma neighbour_differs (x d : Z) :
  0 <= x < GRID_SIZE -> d = 1 \/ d = -1 -> (x + d) mod GRID_SIZE <> x.
Proof.
  unfold GRID_SIZE. intros Hx Hd.
  destruct (decide (x + d = 50)) as [E|E].
  { rewrite E. change (50 mod 50) with 0. lia. }
  destruct (decide (x + d = -1)) as [E'|E'].
  { rewrite E'. change (-1 mod 50) with 49. lia. }
  rewrite Z.mod_small; lia.
Qed.

(** X5. [count_neighbors] treats the coordinates as coordinates on the
    torus, so shifting [x] or [y] by a multiple of the grid side changes
    nothing; and it never reads the cell itself: writing any value to cell
    [(x, y)] leaves the count at [(x, y)] as it was. *)
Theorem count_neighbors_torus :
  (forall g x y i j,
     count_neighbors g (x + i * GRID_SIZE) (y + j * GRID_SIZE) = count_neighbors g x y) /\
  (forall g x y v,
     in_grid x y -> count_neighbors (set2 g y x v) x y = count_neighbors g x y).
Proof.
  split.
  - intros g x y i j. unfold count_neighbors. cbn [foldl].
    cbn [Z.eqb andb Pos.eqb]. by rewrite !mod_shift.
  - intros g x y v [Hx Hy]. unfold count_neighbors. cbn [foldl].
    cbn [Z.eqb andb Pos.eqb].
    assert (Hm : forall z, 0 <= z mod GRID_SIZE).
    { intros z. apply Z.mod_pos_bound. reflexivity. }
    pose proof (neighbour_differs x 1 Hx (or_introl eq_refl)) as Hx1.
    pose proof (neighbour_differs x (-1) Hx (or_intror eq_refl)) as Hx2.
    pose proof (neighbour_differs y 1 Hy (or_introl eq_refl)) as Hy1.
    pose proof (neighbour_differs y (-1) Hy (or_intror eq_refl)) as Hy2.
    rewrite !(get2_set2_ne 0 g y x) by (try apply Hm; try lia; congruence).
    reflexivity.
Qed.

Lemma count_neighbors_torus_witness :
  count_neighbors (set2 blinker_flat 10 11 0) 11 10 = count_neighbors blinker_flat 11 10 /\
  count_neighbors blinker_flat 11 10 = 2.
Proof.
  destruct count_neighbors_torus as [_ Hself]. split.
  - apply (Hself blinker_flat 11 10 0). unfold in_grid, GRID_SIZE. lia.
  - vm_compute. reflexivity.
Defined.

(** ** What [mutate_rule] returns *)

Lemma list_at_new st l : list_at (st ++ [PyList l]) (length st) = l.
Proof. unfold list_at. rewrite lookup_app_r by lia. by rewrite Nat.sub_diag. Qed.

Lemma set_at_new st (S : gset Z) : set_at (st ++ [PySet S]) (length st) = S.
Proof. unfold set_at. rewrite lookup_app_r by lia. by rewrite Nat.sub_diag. Qed.

Lemma set_at_insert st r (S : gset Z) :
  (r < length st)%nat -> set_at (<[r := PySet S]> st) r = S.
Proof. intros Hr. unfold set_at. by rewrite list_lookup_insert_eq. Qed.

Lemma maybe_flip_result rate ruleset s :
  let r := maybe_flip rate ruleset s in
  let S0 : gset Z := list_to_set (list_at (store s) ruleset) in
  exists S : gset Z,
    list_at (store r.2) r.1 = sorted S /\
    (S = S0 \/ exists v, 0 <= v <= 8 /\ (S = {[v]} ∪ S0 \/ S = S0 ∖ {[v]})).
Proof.
  cbv zeta. unfold maybe_flip, alloc, random, choice, randint, randbelow.
  cbn [fst snd store rng with_store with_rng].
  set (S0 := list_to_set (list_at (store s) ruleset) : gset Z).
  set (st1 := store s ++ [PySet S0]).
  assert (Hlen : (length (store s) < length st1)%nat).
  { unfold st1. rewrite length_app. cbn. lia. }
  assert (Hat : set_at st1 (length (store s)) = S0) by apply set_at_new.
  set (v := as_index (tape (advance (advance (rng s))) (cursor (advance (advance (rng s))))) mod (8 - 0 + 1)).
  assert (Hv : 0 <= 0 + v <= 8).
  { unfold v. pose proof (Z.mod_pos_bound
      (as_index (tape (advance (advance (rng s))) (cursor (advance (advance (rng s))))))
      (8 - 0 + 1) ltac:(lia)). lia. }
  destruct (PrimFloat.ltb _ rate).
  - cbn [fst snd store rng with_store with_rng].
    destruct (String.eqb _ "add").
    + cbn [store with_store]. unfold set_add. rewrite Hat.
      rewrite list_at_new, set_at_insert by exact Hlen.
      exists ({[0 + v]} ∪ S0). split; [reflexivity|]. right. exists (0 + v). auto.
    + destruct (String.eqb _ "remove" && _).
      * cbn [store with_store]. unfold set_remove. rewrite Hat.
        rewrite list_at_new, set_at_insert by exact Hlen.
        exists (S0 ∖ {[0 + v]}). split; [reflexivity|]. right. exists (0 + v). auto.
      * cbn [store with_store with_rng]. rewrite list_at_new, Hat.
        exists S0. split; [reflexivity|]. by left.
  - cbn [store with_store with_rng]. rewrite list_at_new, Hat.
    exists S0. split; [reflexivity|]. by left.
Qed.

Lemma strictly_sorted (l : list Z) :
  StronglySorted Z.le l -> NoDup l -> StronglySorted Z.lt l.
Proof.
  induction 1 as [|x l Hl IH Hx]; intros Hnd; [constructor|].
  apply NoDup_cons in Hnd as [Hx' Hnd]. constructor; [by apply IH|].
  apply Forall_forall. intros y Hy.
  pose proof (proj1 (Forall_forall _ _) Hx y Hy).
  assert (x <> y) by (intros ->; by apply Hx'). lia.
Qed.

Lemma sorted_strict (S : gset Z) : StronglySorted Z.lt (sorted S).
Proof.
  unfold sorted. apply strictly_sorted.
  - apply (StronglySorted_merge_sort Z.le).
  - rewrite merge_sort_Permutation. apply NoDup_elements.
Qed.

Lemma maybe_flip_one_flip rate ruleset s :
  one_flip (list_at (store s) ruleset)
    (list_at (store (maybe_flip rate ruleset s).2) (maybe_flip rate ruleset s).1).
Proof.
  destruct (maybe_flip_result rate ruleset s) as (S & -> & HS).
  split; [apply sorted_strict|].
  destruct HS as [->|(v & Hv & [->| ->])].
  - exists 0. split; [lia|].
    split; intros n; rewrite elem_of_sorted, elem_of_list_to_set; auto.
  - exists v. split; [done|].
    split; intros n; rewrite elem_of_sorted, elem_of_union, elem_of_singleton,
      elem_of_list_to_set; tauto.
  - exists v. split; [done|].
    split; intros n; rewrite elem_of_sorted, elem_of_difference, elem_of_singleton,
      elem_of_list_to_set; [tauto|].
    destruct (decide (n = v)); tauto.
Qed.

Lemma one_flip_counts input result :
  one_flip input result -> neighbor_counts input -> neighbor_counts result.
Proof.
  intros (_ & v & Hv & Hres & _) Hin. apply Forall_forall. intros n Hn.
  destruct (Hres n Hn) as [Hn'| ->]; [|done].
  exact (proj1 (Forall_forall _ _) Hin n Hn').
Qed.

(** X6. Each of the two lists [mutate_rule] returns is strictly increasing
    (sorted, duplicates dropped) and holds the values of the list it was
    made from, but for at most one value from 0 to 8 that was added or
    removed.  So lists of neighbour counts give lists of neighbour counts. *)
Theorem mutate_rule_one_flip (birth survive : nat) (rate : float) (s : State) :
  (birth < length (store s))%nat -> (survive < length (store s))%nat ->
  let m := mutate_rule birth survive rate s in
  let b_mut := list_at (store m.2) m.1.1 in
  let s_mut := list_at (store m.2) m.1.2 in
  one_flip (list_at (store s) birth) b_mut /\
  one_flip (list_at (store s) survive) s_mut /\
  (neighbor_counts (list_at (store s) birth) -> neighbor_counts b_mut) /\
  (neighbor_counts (list_at (store s) survive) -> neighbor_counts s_mut).
Proof.
  intros Hb Hsv. cbv zeta.
  assert (H : one_flip (list_at (store s) birth)
                (list_at (store (mutate_rule birth survive rate s).2)
                   (mutate_rule birth survive rate s).1.1) /\
              one_flip (list_at (store s) survive)
                (list_at (store (mutate_rule birth survive rate s).2)
                   (mutate_rule birth survive rate s).1.2)).
  { unfold mutate_rule.
    pose proof (maybe_flip_one_flip rate birth s) as H1.
    destruct (maybe_flip_extends rate birth s) as [Hext1 Hfresh1].
    destruct (maybe_flip rate birth s) as [b s1]. cbn [fst snd] in *.
    pose proof (maybe_flip_one_flip rate survive s1) as H2.
    destruct (maybe_flip_extends rate survive s1) as [Hext2 Hfresh2].
    destruct (maybe_flip rate survive s1) as [sv s2]. cbn [fst snd] in *.
    rewrite (list_at_extends s1 s2 b Hext2) by lia.
    rewrite (list_at_extends s s1 survive Hext1) in H2 by done.
    by split. }
  destruct H as [H1 H2].
  split; [exact H1|]. split; [exact H2|].
  split; by apply one_flip_counts.
Qed.

Lemma mutate_rule_one_flip_witness :
  let s := globals (life_program "B3/S23|M1" 1 block 0.5) in
  let m := mutate_rule 0 1 1 s in
  one_flip [3] (list_at (store m.2) m.1.1) /\
  one_flip [2; 3] (list_at (store m.2) m.1.2) /\
  list_at (store m.2) m.1.1 = [3] /\ list_at (store m.2) m.1.2 = [2; 3; 5].
Proof.
  cbv zeta.
  destruct (mutate_rule_one_flip 0 1 1 (globals (life_program "B3/S23|M1" 1 block 0.5)))
    as (H1 & H2 & _); [cbn; lia..|].
  split; [exact H1|]. split; [exact H2|]. split; vm_compute; reflexivity.
Defined.

(** ** Random draws *)

Lemma maybe_flip_draws rate ruleset s :
  let g := rng s in
  let g' := rng (maybe_flip rate ruleset s).2 in
  tape g' = tape g /\
  (cursor g' = cursor g + 1 \/ cursor g' = cursor g + 3)%nat /\
  (rng_ok g -> rate = 0%float -> cursor g' = cursor g + 1)%nat /\
  (rng_ok g -> rate = 1%float -> cursor g' = cursor g + 3)%nat.
Proof.
  cbv zeta. unfold maybe_flip, alloc, random, choice, randint, randbelow.
  cbn [fst snd store rng with_store with_rng].
  destruct (PrimFloat.ltb _ rate) eqn:E;
    [destruct (String.eqb _ "add"); [|destruct (_ && _)]|];
    cbn; (split; [reflexivity|]);
    (split; [(left; lia) || (right; lia)|]);
    (split; intros Hok ->); try lia;
    try (by rewrite (not_below_zero _ (Hok (cursor (rng s)))) in E);
    try (destruct (Hok (cursor (rng s))) as [_ H1]; congruence).
Qed.

(** X7. [update_grid] draws random numbers only in [mutate_rule], never in
    its loop over the cells: one draw per list to decide whether to flip,
    and two more for a list that is flipped.  So a tick consumes 2, 4 or 6
    entries of the tape; exactly 2 with mutation rate 0 and exactly 6 with
    mutation rate 1, when [random()] is within its range. *)
Theorem update_grid_draws (birth survive : nat) (rate : float) (s : State) :
  let g := rng s in
  let g' := rng (update_grid birth survive rate s) in
  tape g' = tape g /\
  (cursor g' = cursor g + 2 \/ cursor g' = cursor g + 4 \/ cursor g' = cursor g + 6)%nat /\
  (rng_ok g -> rate = 0%float -> cursor g' = cursor g + 2)%nat /\
  (rng_ok g -> rate = 1%float -> cursor g' = cursor g + 6)%nat.
Proof.
  cbv zeta.
  destruct (update_grid_untouched birth survive rate s) as (_ & _ & _ & _ & ->).
  unfold mutate_rule.
  destruct (maybe_flip_draws rate birth s) as (Ht1 & Hc1 & Hz1 & Ho1).
  pose proof (maybe_flip_tape rate birth s) as Hok1.
  destruct (maybe_flip rate birth s) as [b s1]. cbn [fst snd] in *.
  destruct (maybe_flip_draws rate survive s1) as (Ht2 & Hc2 & Hz2 & Ho2).
  destruct (maybe_flip rate survive s1) as [sv s2]. cbn [fst snd] in *.
  split; [congruence|]. split; [lia|].
  split; intros Hok Hrate.
  - rewrite (Hz2 (Hok1 Hok) Hrate), (Hz1 Hok Hrate). lia.
  - rewrite (Ho2 (Hok1 Hok) Hrate), (Ho1 Hok Hrate). lia.
Qed.

Lemma update_grid_draws_witness :
  cursor (rng (update_grid 0 1 0 (life_state block))) = 2%nat /\
  cursor (rng (update_grid 0 1 1 (life_state block))) = 6%nat.
Proof.
  split.
  - destruct (update_grid_draws 0 1 0 (life_state block)) as (_ & _ & H0 & _).
    exact (H0 rng_ok_steady eq_refl).
  - destruct (update_grid_draws 0 1 1 (life_state block)) as (_ & _ & _ & H1).
    exact (H1 rng_ok_steady eq_refl).
Defined.

(** ** The random fills, cell by cell *)

Lemma rng_skip g g' n :
  tape g' = tape g -> cursor g' = (cursor g + n)%nat -> g' = skip n g.
Proof. destruct g'. cbn. intros -> ->. reflexivity. Qed.

Lemma randomize_grid_loop s :
  shaped (grid s) -> shaped (history_map s) ->
  tape (rng (randomize_grid s)) = tape (rng s) /\
  cursor (rng (randomize_grid s)) = (cursor (rng s) + 2500)%nat /\
  forall x y, in_grid x y ->
    get2 0 (grid (randomize_grid s)) y x =
      (if PrimFloat.ltb (cell_draw (rng s) x y) 0.2 then 1 else 0) /\
    get2 0 (history_map (randomize_grid s)) y x = 0.
Proof.
  intros Hg Hh. unfold randomize_grid.
  cells_invariant (fun y x t =>
    tape (rng t) = tape (rng s) /\
    cursor (rng t) = (cursor (rng s) + Z.to_nat (GRID_SIZE * y + x))%nat /\
    shaped (grid t) /\ shaped (history_map t) /\
    forall x' y', in_grid x' y' -> before y' x' y x ->
      get2 0 (grid t) y' x' =
        (if PrimFloat.ltb (cell_draw (rng s) x' y') 0.2 then 1 else 0) /\
      get2 0 (history_map t) y' x' = 0) Hloop.
  - split; [reflexivity|]. split; [cbn; lia|]. split; [exact Hg|]. split; [exact Hh|].
    intros x' y' [? ?]. unfold before. lia.
  - intros x y t Hin (Ht & Hc & Hgt & Hht & Hcells). unfold random. cbn.
    split; [exact Ht|]. split.
    { rewrite Hc. destruct Hin as [? ?]. unfold GRID_SIZE in *. lia. }
    split; [by apply shaped_set2|]. split; [by apply shaped_set2|].
    intros x' y' Hin' Hbef.
    destruct (decide ((x, y) = (x', y'))) as [Heq|Hne].
    + inversion Heq; subst x' y'. rewrite !get2_set2_eq by assumption.
      split; [|reflexivity]. unfold cell_draw. by rewrite Ht, Hc.
    + destruct Hin as [? ?], Hin' as [? ?].
      rewrite !get2_set2_ne by (lia || exact Hne). apply Hcells; [by split|].
      apply before_next in Hbef as [?|?]; [assumption|congruence].
  - intros y t Hy (Ht & Hc & Hgt & Hht & Hcells).
    split; [exact Ht|]. split; [rewrite Hc; unfold GRID_SIZE in *; lia|].
    split; [exact Hgt|]. split; [exact Hht|].
    intros x' y' Hin' Hbef. apply Hcells; [exact Hin'|].
    destruct Hin' as [? ?]. unfold before in *. lia.
  - destruct Hloop as (Ht & Hc & Hgt & Hht & Hcells).
    split; [exact Ht|]. split; [exact Hc|].
    intros x y Hin. apply Hcells; [exact Hin|]. destruct Hin as [? ?]. unfold before. lia.
Qed.

(** X8. [randomize_grid] gives every cell its own draw, in row-major
    order: cell [(x, y)] is set to 1 exactly when draw number [50 * y + x]
    (counted from the cursor) is below 0.2, and to 0 otherwise; every
    history cell is set to 0; 2500 draws are consumed and nothing else
    changes. *)
Theorem randomize_grid_cells (s : State) :
  shaped (grid s) -> shaped (history_map s) ->
  let s' := randomize_grid s in
  rng s' = skip 2500 (rng s) /\
  shaped (grid s') /\ shaped (history_map s') /\
  (forall x y, in_grid x y ->
     get2 0 (grid s') y x =
       (if PrimFloat.ltb (cell_draw (rng s) x y) 0.2 then 1 else 0) /\
     get2 0 (history_map s') y x = 0) /\
  nutrient_map s' = nutrient_map s /\ wave_phase s' = wave_phase s /\
  DNA s' = DNA s /\ store s' = store s.
Proof.
  intros Hg Hh. cbv zeta.
  destruct (randomize_grid_spec s) as ((HD & HN & HW & Hst & _) & Hg' & Hh' & _).
  destruct (randomize_grid_loop s Hg Hh) as (Ht & Hc & Hcells).
  split; [exact (rng_skip _ _ _ Ht Hc)|].
  split; [exact (Hg' Hg)|]. split; [exact (Hh' Hh)|].
  split; [exact Hcells|].
  split; [exact HN|]. split; [exact HW|]. split; [exact HD|exact Hst].
Qed.

Lemma randomize_grid_cells_witness :
  let s := randomize_grid (life_state block) in
  cursor (rng s) = 2500%nat /\
  get2 0 (grid s) 10 10 = 0 /\ get2 0 (history_map s) 10 10 = 0.
Proof.
  cbv zeta.
  destruct (randomize_grid_cells (life_state block)) as (Hr & _ & _ & Hcells & _).
  - apply shaped_paint.
  - apply shaped_zeros.
  - split; [rewrite Hr; reflexivity|].
    destruct (Hcells 10 10) as [Hg Hh]; [unfold in_grid, GRID_SIZE; lia|].
    split; [|exact Hh]. rewrite Hg. reflexivity.
Defined.

Lemma generate_nutrient_map_loop s :
  shaped (nutrient_map s) ->
  tape (rng (generate_nutrient_map s)) = tape (rng s) /\
  cursor (rng (generate_nutrient_map s)) = (cursor (rng s) + 2500)%nat /\
  forall x y, in_grid x y ->
    get2 0%float (nutrient_map (generate_nutrient_map s)) y x = cell_draw (rng s) x y.
Proof.
  intros Hn. unfold generate_nutrient_map.
  cells_invariant (fun y x t =>
    tape (rng t) = tape (rng s) /\
    cursor (rng t) = (cursor (rng s) + Z.to_nat (GRID_SIZE * y + x))%nat /\
    shaped (nutrient_map t) /\
    forall x' y', in_grid x' y' -> before y' x' y x ->
      get2 0%float (nutrient_map t) y' x' = cell_draw (rng s) x' y') Hloop.
  - split; [reflexivity|]. split; [cbn; lia|]. split; [exact Hn|].
    intros x' y' [? ?]. unfold before. lia.
  - intros x y t Hin (Ht & Hc & Hnt & Hcells). unfold random. cbn.
    split; [exact Ht|]. split.
    { rewrite Hc. destruct Hin as [? ?]. unfold GRID_SIZE in *. lia. }
    split; [by apply shaped_set2|].
    intros x' y' Hin' Hbef.
    destruct (decide ((x, y) = (x', y'))) as [Heq|Hne].
    + inversion Heq; subst x' y'. rewrite !get2_set2_eq by assumption.
      unfold cell_draw. by rewrite Ht, Hc.
    + destruct Hin as [? ?], Hin' as [? ?].
      rewrite !get2_set2_ne by (lia || exact Hne). apply Hcells; [by split|].
      apply before_next in Hbef as [?|?]; [assumption|congruence].
  - intros y t Hy (Ht & Hc & Hnt & Hcells).
    split; [exact Ht|]. split; [rewrite Hc; unfold GRID_SIZE in *; lia|].
    split; [exact Hnt|].
    intros x' y' Hin' Hbef. apply Hcells; [exact Hin'|].
    destruct Hin' as [? ?]. unfold before in *. lia.
  - destruct Hloop as (Ht & Hc & Hnt & Hcells).
    split; [exact Ht|]. split; [exact Hc|].
    intros x y Hin. apply Hcells; [exact Hin|]. destruct Hin as [? ?]. unfold before. lia.
Qed.

(** X9. [generate_nutrient_map] gives every cell its own draw, in row-major
    order: cell [(x, y)] holds draw number [50 * y + x], counted from the
    cursor; 2500 draws are consumed and nothing else changes.  With
    [random()] in its range, every cell is at least 0.0 and below 1.0. *)
Theorem generate_nutrient_map_cells (s : State) :
  shaped (nutrient_map s) ->
  let s' := generate_nutrient_map s in
  rng s' = skip 2500 (rng s) /\
  shaped (nutrient_map s') /\
  (forall x y, in_grid x y ->
     get2 0%float (nutrient_map s') y x = cell_draw (rng s) x y) /\
  (rng_ok (rng s) -> forall x y, in_grid x y ->
     unit_interval (get2 0%float (nutrient_map s') y x)) /\
  grid s' = grid s /\ history_map s' = history_map s /\
  wave_phase s' = wave_phase s /\ DNA s' = DNA s /\ store s' = store s.
Proof.
  intros Hn. cbv zeta.
  destruct (generate_nutrient_map_spec s) as ((HD & HG & HH & HW & Hst & _) & Hn').
  destruct (generate_nutrient_map_loop s Hn) as (Ht & Hc & Hcells).
  split; [exact (rng_skip _ _ _ Ht Hc)|].
  split; [exact (Hn' Hn)|]. split; [exact Hcells|].
  split; [intros Hok x y Hin; rewrite (Hcells x y Hin); apply Hok|].
  split; [exact HG|]. split; [exact HH|]. split; [exact HW|].
  split; [exact HD|exact Hst].
Qed.

Lemma generate_nutrient_map_cells_witness :
  let s := generate_nutrient_map (life_state block) in
  cursor (rng s) = 2500%nat /\
  get2 0%float (nutrient_map s) 4 3 = 0.5%float /\
  unit_interval (get2 0%float (nutrient_map s) 4 3).
Proof.
  cbv zeta.
  destruct (generate_nutrient_map_cells (life_state block)) as (Hr & _ & Hcells & Hunit & _).
  - apply shaped_zeros.
  - split; [rewrite Hr; reflexivity|]. split.
    + rewrite Hcells by (unfold in_grid, GRID_SIZE; lia). reflexivity.
    + apply Hunit; [exact rng_ok_steady|unfold in_grid, GRID_SIZE; lia].
Defined.

(** ** A frame that resets the grids *)

Lemma next_history_fresh c : c = 0 \/ c = 1 -> next_history c 0 = c.
Proof. intros [-> | ->]; reflexivity. Qed.

Section Reset.

Variable math_sin : float -> float.

(** X10. In a frame of a running program in which [R] is pressed (and [D]
    is not), the trail restarts: if the frame is paused the grid is the
    fresh random one and every history cell is 0; if not, the new
    generation is computed from the fresh random grid and every history
    cell equals its grid cell, 1 for alive and 0 for dead.  The rule, its
    text and the locals that name it are as before.

    The fresh grid holds, at cell [(x, y)], 1 when draw number [50 * y + x]
    is below 0.2 and 0 otherwise; the field the tick reads is the animated
    one, made from the next 2500 draws.  In a frame that is not paused the
    state is what [update_grid] makes of these, so each new cell is
    [next_cell] of the fresh grid, that field and the two lists
    [mutate_rule] returned. *)
Theorem reset_frame (k : Keys) (p : Program) (x y : Z) :
  raised p = None -> KEY_R k = true -> KEY_D k = false ->
  well_formed (globals p) -> in_grid x y ->
  let p' := frame math_sin k p in
  let fed := animate_nutrients math_sin
               (generate_nutrient_map (randomize_grid (globals p))) in
  let m := mutate_rule (birth (locals p)) (survive (locals p))
             (mutation (locals p)) fed in
  raised p' = None /\
  (get2 0 (grid (globals p')) y x = 0 \/ get2 0 (grid (globals p')) y x = 1) /\
  get2 0 (history_map (globals p')) y x =
    (if paused_in k p then 0 else get2 0 (grid (globals p')) y x) /\
  (paused_in k p = true ->
   get2 0 (grid (globals p')) y x =
     if PrimFloat.ltb (cell_draw (rng (globals p)) x y) 0.2 then 1 else 0) /\
  (shaped (grid fed) /\
   (forall x' y', in_grid x' y' ->
      get2 0 (grid fed) y' x' =
        (if PrimFloat.ltb (cell_draw (rng (globals p)) x' y') 0.2 then 1 else 0) /\
      get2 0%float (nutrient_map fed) y' x' =
        animated math_sin (wave_phase (globals p) + 0.05)%float x' y'
          (cell_draw (skip 2500 (rng (globals p))) x' y'))) /\
  (paused_in k p = true -> globals p' = fed) /\
  (paused_in k p = false ->
   globals p' =
     update_grid (birth (locals p)) (survive (locals p)) (mutation (locals p)) fed /\
   get2 0 (grid (globals p')) y x =
     next_cell (grid fed) (nutrient_map fed)
       (list_at (store m.2) m.1.1) (list_at (store m.2) m.1.2) x y) /\
  DNA (globals p') = DNA (globals p) /\
  birth (locals p') = birth (locals p) /\
  survive (locals p') = survive (locals p) /\
  mutation (locals p') = mutation (locals p).
Proof.
  intros Hr HR HD (Hg & Hn & Hh) Hin. cbv zeta.
  destruct (frame_keeps math_sin k p HD) as ((HDNA & _) & Hb & Hsv & Hm).
  destruct (randomize_grid_spec (globals p)) as ((_ & HN1 & HW1 & _) & Hg1' & Hh1' & _).
  pose proof (Hg1' Hg) as Hg1. pose proof (Hh1' Hh) as Hh1. clear Hg1' Hh1'.
  destruct (randomize_grid_loop (globals p) Hg Hh) as (Ht1 & Hc1 & Hcells1).
  pose proof (rng_skip (rng (globals p)) (rng (randomize_grid (globals p))) 2500 Ht1 Hc1)
    as Hr1.
  set (s1 := randomize_grid (globals p)) in *.
  assert (Hn1 : shaped (nutrient_map s1)) by (by rewrite HN1).
  destruct (generate_nutrient_map_spec s1) as ((_ & HG2 & HH2 & HW2 & _) & Hn2').
  pose proof (Hn2' Hn1) as Hn2. clear Hn2'.
  destruct (generate_nutrient_map_loop s1 Hn1) as (_ & _ & Hcells2).
  rewrite Hr1 in Hcells2.
  set (s2 := generate_nutrient_map s1) in *.
  destruct (animate_nutrients_cells math_sin s2) as ((_ & HG3 & HH3 & _) & _ & Hcells3').
  destruct (Hcells3' Hn2) as [_ Hcells3]. clear Hcells3'.
  set (fed := animate_nutrients math_sin s2) in *.
  assert (Hgf : shaped (grid fed)) by (by rewrite HG3, HG2).
  assert (Hhf : shaped (history_map fed)) by (by rewrite HH3, HH2).
  destruct (Hcells1 x y Hin) as [Hcell Hzero].
  assert (Hf : frame math_sin k p =
    mkProgram (if KEY_SPACE k
               then mkLocals (birth (locals p)) (survive (locals p))
                      (mutation (locals p)) (negb (paused (locals p)))
               else locals p)
      (if paused_in k p then fed
       else update_grid (birth (locals p)) (survive (locals p))
              (mutation (locals p)) fed) None).
  { unfold frame, paused_in. rewrite Hr, HR, HD. cbn [raised locals globals].
    fold s1 s2 fed. by destruct (KEY_SPACE k). }
  destruct (update_grid_cells (birth (locals p)) (survive (locals p))
              (mutation (locals p)) fed Hgf Hhf) as (_ & _ & _ & Hc).
  destruct (Hc x y Hin) as [Hnew Hhist]. clear Hc.
  pose proof (next_cell_binary (grid fed) (nutrient_map fed)
          (list_at (store (mutate_rule (birth (locals p)) (survive (locals p))
                             (mutation (locals p)) fed).2)
             (mutate_rule (birth (locals p)) (survive (locals p))
                (mutation (locals p)) fed).1.1)
          (list_at (store (mutate_rule (birth (locals p)) (survive (locals p))
                             (mutation (locals p)) fed).2)
             (mutate_rule (birth (locals p)) (survive (locals p))
                (mutation (locals p)) fed).1.2) x y) as Hbin.
  rewrite <- Hnew in Hbin.
  split; [by rewrite Hf|].
  split; [|split; [|split; [|split; [|split; [|split; [|by repeat split]]]]]].
  - rewrite Hf. cbn [globals]. destruct (paused_in k p); [|destruct Hbin; [right|left]; assumption].
    rewrite HG3, HG2, Hcell. destruct (PrimFloat.ltb _ _); auto.
  - rewrite Hf. cbn [globals]. destruct (paused_in k p).
    + by rewrite HH3, HH2, Hzero.
    + rewrite Hhist, HH3, HH2, Hzero. apply next_history_fresh. destruct Hbin; [right|left]; assumption.
  - intros Hp. rewrite Hf, Hp. cbn [globals]. by rewrite HG3, HG2, Hcell.
  - split; [exact Hgf|]. intros x' y' Hin'.
    destruct (Hcells1 x' y' Hin') as [Hcell' _].
    split; [by rewrite HG3, HG2|].
    rewrite (Hcells3 x' y' Hin'), (Hcells2 x' y' Hin'). by rewrite HW2, HW1.
  - intros Hp. by rewrite Hf, Hp.
  - intros Hp. rewrite Hf, Hp. cbn [globals]. split; [reflexivity|exact Hnew].
Qed.

End Reset.

(** [R] in a running program that is not paused, and in a paused one. *)
Lemma reset_frame_witness :
  let p := life_program "B3/S23|M0.01" 0.01 block 0.5 in
  let fed := animate_nutrients taylor_sin
               (generate_nutrient_map (randomize_grid (globals p))) in
  let p' := frame taylor_sin (mkKeys false true false "") p in
  let q' := frame taylor_sin (mkKeys true true false "") p in
  raised p' = None /\
  get2 0 (history_map (globals p')) 10 10 = get2 0 (grid (globals p')) 10 10 /\
  globals p' = update_grid 0 1 0.01 fed /\
  get2 0 (grid fed) 10 10 = 0 /\
  DNA (globals p') = "B3/S23|M0.01"%string /\
  globals q' = fed /\
  get2 0 (history_map (globals q')) 10 10 = 0.
Proof.
  cbv zeta.
  assert (Hin : in_grid 10 10) by (unfold in_grid, GRID_SIZE; lia).
  assert (Hwf : well_formed (globals (life_program "B3/S23|M0.01" 0.01 block 0.5)))
    by apply well_formed_life, shaped_paint.
  destruct (reset_frame taylor_sin (mkKeys false true false "")
              (life_program "B3/S23|M0.01" 0.01 block 0.5) 10 10
              eq_refl eq_refl eq_refl Hwf Hin)
    as (Hr & _ & Hh & _ & (_ & Hfresh) & _ & Htick & HD & _).
  destruct (reset_frame taylor_sin (mkKeys true true false "")
              (life_program "B3/S23|M0.01" 0.01 block 0.5) 10 10
              eq_refl eq_refl eq_refl Hwf Hin)
    as (_ & _ & Hh' & _ & _ & Hpaused & _).
  destruct (Htick eq_refl) as [Hg _]. destruct (Hfresh 10 10 Hin) as [Hc _].
  split; [exact Hr|]. split; [exact Hh|]. split; [exact Hg|].
  split; [rewrite Hc; reflexivity|]. split; [exact HD|].
  split; [exact (Hpaused eq_refl)|exact Hh'].
Defined.

(** ** Writing a rule out and reading it back *)

Lemma int_of_digit_char n : 0 <= n <= 9 -> Str.int_of_char (digit_char n) = Some n.
Proof.
  intros Hn. replace n with (Z.of_nat (Z.to_nat n)) by lia.
  assert (Hk : (Z.to_nat n <= 9)%nat) by lia.
  revert Hk. generalize (Z.to_nat n). intros k Hk.
  do 10 (destruct k as [|k]; [reflexivity|]). lia.
Qed.

Lemma ints_of_show_digits l : decimal_digits l -> Str.ints_of (show_digits l) = Some l.
Proof.
  intros Hl. unfold Str.ints_of, show_digits.
  rewrite list_ascii_of_string_of_list_ascii. apply mapM_Some_2.
  induction Hl as [|n l Hn Hl IH]; [constructor|].
  cbn [fmap list_fmap]. constructor; [by apply int_of_digit_char|exact IH].
Qed.

Lemma show_digits_clean l c :
  decimal_digits l -> Str.is_digit c = false -> occurs c (show_digits l) = false.
Proof.
  intros Hl Hc. apply digit_no_separator; [|exact Hc].
  apply ints_of_digits. rewrite (ints_of_show_digits l Hl). by eexists.
Qed.

Lemma dna_fields_show_rule bs ss f v :
  decimal_digits bs -> decimal_digits ss -> Str.float_of_str f = Some v ->
  dna_fields (show_rule bs ss f) = Some (bs, ss, v).
Proof.
  intros Hbs Hss Hf.
  destruct (float_no_separator f (mk_is_Some _ _ Hf)) as [Hf1 Hf2].
  pose proof (show_digits_clean bs "/" Hbs eq_refl) as Hb1.
  pose proof (show_digits_clean ss "/" Hss eq_refl) as Hs1.
  pose proof (show_digits_clean ss "|" Hss eq_refl) as Hs2.
  unfold dna_fields, show_rule.
  change ("B" ++ show_digits bs ++ "/S" ++ show_digits ss ++ "|M" ++ f)%string
    with (String "B" (show_digits bs) ++
          String "/" (String "S" (show_digits ss) ++ String "|" (String "M" f)))%string.
  rewrite (proj2 (split_two "/" _ (String "B" (show_digits bs))
                    (String "S" (show_digits ss) ++ String "|" (String "M" f)))).
  2:{ split; [reflexivity|]. split.
      - cbn [occurs]. by rewrite Hb1.
      - rewrite occurs_append. cbn [occurs]. by rewrite Hs1, Hf1. }
  rewrite (proj2 (split_two "|" _ (String "S" (show_digits ss)) (String "M" f))).
  2:{ split; [reflexivity|]. split; cbn [occurs]; [by rewrite Hs2|by rewrite Hf2]. }
  cbn [Str.drop_first].
  rewrite (ints_of_show_digits bs Hbs), (ints_of_show_digits ss Hss). cbn.
  by rewrite Hf.
Qed.

(** X11. Reading back a rule that was written out gives the rule: for lists
    of decimal digits [bs] and [ss] and a text [f] that [float] reads as
    [v], [parse_dna] on "B", the digits of [bs], "/S", the digits of [ss],
    "|M" and [f] returns two new lists equal to [bs] and [ss], order and
    repetitions kept, and [v]. *)
Theorem parse_dna_show_rule (bs ss : list Z) (f : string) (v : float) (s : State) :
  decimal_digits bs -> decimal_digits ss -> Str.float_of_str f = Some v ->
  let r := parse_dna (show_rule bs ss f) s in
  exists b sv : nat,
    r.1 = Returned (b, sv, v) /\
    list_at (store r.2) b = bs /\ list_at (store r.2) sv = ss /\
    (length (store s) <= b)%nat /\ (length (store s) <= sv)%nat /\ b <> sv.
Proof.
  intros Hbs Hss Hf. cbv zeta.
  rewrite (parse_dna_returns _ s bs ss v (dna_fields_show_rule bs ss f v Hbs Hss Hf)).
  exists (length (store s)), (S (length (store s))). cbn [fst snd store with_store].
  split; [reflexivity|]. split; [by apply list_at_first|].
  split; [by apply list_at_second|]. lia.
Qed.

Lemma parse_dna_show_rule_witness :
  show_rule [3; 3; 6] [3; 2] "-0.25" = "B336/S32|M-0.25"%string /\
  exists b sv : nat,
    (parse_dna "B336/S32|M-0.25" (initial steady)).1 = Returned (b, sv, (-0.25)%float) /\
    list_at (store (parse_dna "B336/S32|M-0.25" (initial steady)).2) b = [3; 3; 6] /\
    list_at (store (parse_dna "B336/S32|M-0.25" (initial steady)).2) sv = [3; 2] /\
    (length (store (initial steady)) <= b)%nat /\
    (length (store (initial steady)) <= sv)%nat /\ b <> sv.
Proof.
  split; [reflexivity|].
  apply (parse_dna_show_rule [3; 3; 6] [3; 2] "-0.25" (-0.25)%float (initial steady)).
  - repeat constructor; lia.
  - repeat constructor; lia.
  - vm_compute. reflexivity.
Defined.

(** ** The rule text and the rule in force *)

Lemma edit_dna_loaded input l s :
  raised (edit_dna input l s) = None -> rule_loaded (edit_dna input l s).
Proof.
  unfold edit_dna.
  set (s0 := with_DNA (dna_input_gui input s) s).
  destruct (parse_dna (DNA s0) s0) as [[[[b sv] m]|e] s2] eqn:E; [|discriminate].
  intros _. apply parse_dna_returned in E as (bs & ss & Hf & -> & -> & ->).
  unfold rule_loaded. cbn [locals globals birth survive mutation store DNA with_store].
  rewrite (list_at_first _ _ _ bs eq_refl), (list_at_second _ _ _ ss eq_refl).
  rewrite !length_app. cbn [length].
  split; [lia|]. split; [lia|exact Hf].
Qed.

Lemma keeps_loaded p p' :
  rule_loaded p -> keeps (globals p) (globals p') ->
  birth (locals p') = birth (locals p) -> survive (locals p') = survive (locals p) ->
  mutation (locals p') = mutation (locals p) ->
  rule_loaded p'.
Proof.
  intros (Hb & Hsv & Hf) (HD & Hlen & Hst) Eb Esv Em.
  unfold rule_loaded, list_at. rewrite Eb, Esv, Em, HD, !Hst by assumption.
  split; [lia|]. split; [lia|exact Hf].
Qed.

Lemma reset_keeps s : keeps s (generate_nutrient_map (randomize_grid s)).
Proof.
  destruct (randomize_grid_spec s) as ((HD & _ & _ & Hst & _) & _).
  destruct (generate_nutrient_map_spec (randomize_grid s))
    as ((HD' & _ & _ & _ & Hst' & _) & _).
  apply keeps_same; congruence.
Qed.

Lemma start_rule_loaded input g :
  raised (start input g) = None -> rule_loaded (start input g).
Proof.
  unfold start.
  set (p := edit_dna input (mkLocals 0 0 0%float false) (initial g)).
  pose proof (edit_dna_loaded input (mkLocals 0 0 0%float false) (initial g)) as Hp.
  fold p in Hp. destruct (raised p) eqn:E; [intros H; cbv zeta in H; congruence|].
  intros _. apply (keeps_loaded p); [by apply Hp|apply reset_keeps|reflexivity..].
Qed.

Section RuleText.

Variable math_sin : float -> float.

Lemma frame_running k p : raised (frame math_sin k p) = None -> raised p = None.
Proof. unfold frame. destruct (raised p) eqn:E; [by rewrite E|done]. Qed.

(** What the end of a frame does to the state: the nutrient wave, and the
    tick unless the program is paused. *)
Lemma tick_keeps (l : Locals) s :
  keeps s (if paused l then animate_nutrients math_sin s
           else update_grid (birth l) (survive l) (mutation l)
                  (animate_nutrients math_sin s)).
Proof.
  destruct (animate_nutrients_cells math_sin s) as ((HD & _ & _ & Hst & _) & _).
  assert (Ha : keeps s (animate_nutrients math_sin s)) by (by apply keeps_same).
  destruct (paused l); [exact Ha|].
  apply (keeps_trans _ (animate_nutrients math_sin s)); [exact Ha|].
  apply update_grid_keeps.
Qed.

Lemma frame_rule_loaded k p :
  raised (frame math_sin k p) = None -> rule_loaded p ->
  rule_loaded (frame math_sin k p).
Proof.
  unfold frame. destruct (raised p) eqn:Hr; [by rewrite Hr|].
  intros Hrun Hp.
  set (l := if KEY_SPACE k then _ else _) in *.
  assert (Hl : birth l = birth (locals p) /\ survive l = survive (locals p) /\
               mutation l = mutation (locals p)).
  { unfold l. by destruct (KEY_SPACE k). }
  clearbody l. destruct Hl as (Eb & Esv & Em).
  set (s := if KEY_R k then _ else globals p) in *.
  assert (Hs : keeps (globals p) s).
  { unfold s. destruct (KEY_R k); [apply reset_keeps|apply keeps_refl]. }
  clearbody s.
  set (q := if KEY_D k then _ else _) in *.
  assert (Hq : raised q = None -> rule_loaded q).
  { unfold q. destruct (KEY_D k); [apply edit_dna_loaded|].
    intros _. by apply (keeps_loaded p). }
  clearbody q.
  destruct (raised q) eqn:E; [rewrite E in Hrun; cbv iota in Hrun; congruence|].
  apply (keeps_loaded q); [by apply Hq|apply tick_keeps|reflexivity..].
Qed.

Lemma run_rule_loaded ks p :
  raised (run math_sin ks p) = None -> rule_loaded p ->
  rule_loaded (run math_sin ks p).
Proof.
  induction ks as [|k ks IH] using rev_ind; [done|].
  rewrite run_snoc. intros Hr Hp.
  apply frame_rule_loaded; [exact Hr|].
  apply IH; [|exact Hp]. by apply (frame_running k).
Qed.

(** X12. As long as the program runs, the rule text [DNA] (the text shown
    in the window) spells the rule in force: reading it gives the lists that
    [birth] and [survive] name and the mutation rate, whatever keys were
    pressed, whatever was typed at the prompt and however often
    [mutate_rule] ran. *)
Theorem rule_text_in_force (input : string) (g : Rng) (ks : list Keys) :
  raised (run math_sin ks (start input g)) = None ->
  rule_loaded (run math_sin ks (start input g)).
Proof.
  intros Hr. apply run_rule_loaded; [exact Hr|].
  apply start_rule_loaded.
  assert (H : forall p, raised (run math_sin ks p) = None -> raised p = None).
  { clear. induction ks as [|k ks IH] using rev_ind; [done|].
    intros p. rewrite run_snoc. intros H. by apply IH, (frame_running k). }
  by apply H.
Qed.

Lemma edit_dna_reload (l : Locals) s bs ss m :
  dna_fields (DNA s) = Some (bs, ss, m) ->
  edit_dna "" l s =
    mkProgram (mkLocals (length (store s)) (S (length (store s))) m (paused l))
      (with_store ((store s ++ [PyList bs]) ++ [PyList ss]) (with_DNA (DNA s) s)) None.
Proof.
  intros Hf. unfold edit_dna, dna_input_gui.
  change (String.eqb "" "") with true. cbv iota zeta.
  change (DNA (with_DNA (DNA s) s)) with (DNA s).
  by rewrite (parse_dna_returns (DNA s) (with_DNA (DNA s) s) bs ss m Hf).
Qed.

Lemma frame_reload k p :
  raised p = None -> rule_loaded p -> KEY_D k = true -> console k = ""%string ->
  let p' := frame math_sin k p in
  raised p' = None /\
  DNA (globals p') = DNA (globals p) /\
  list_at (store (globals p')) (birth (locals p')) =
    list_at (store (globals p)) (birth (locals p)) /\
  list_at (store (globals p')) (survive (locals p')) =
    list_at (store (globals p)) (survive (locals p)) /\
  mutation (locals p') = mutation (locals p) /\
  (length (store (globals p)) <= birth (locals p'))%nat /\
  (length (store (globals p)) <= survive (locals p'))%nat.
Proof.
  intros Hr (Hb & Hsv & Hf) HD Hc. cbv zeta. unfold frame. rewrite Hr, HD, Hc.
  set (l := if KEY_SPACE k then _ else _). clearbody l.
  set (s := if KEY_R k then _ else globals p).
  assert (Hs : keeps (globals p) s).
  { unfold s. destruct (KEY_R k); [apply reset_keeps|apply keeps_refl]. }
  clearbody s. destruct Hs as (HDNA & Hlen & Hst).
  rewrite <- HDNA in Hf.
  rewrite (edit_dna_reload l s _ _ _ Hf). cbn [raised locals globals birth survive mutation].
  set (s1 := with_store _ _).
  destruct (tick_keeps (mkLocals (length (store s)) (S (length (store s)))
                          (mutation (locals p)) (paused l)) s1) as (HD2 & Hlen2 & Hst2).
  cbn [birth survive mutation paused] in *.
  set (s2 := if paused l then _ else _) in *. clearbody s2.
  assert (Hl1 : length (store s1) = S (S (length (store s)))).
  { unfold s1. cbn [store with_store]. rewrite !length_app. cbn [length]. lia. }
  split; [reflexivity|]. split; [rewrite HD2; exact HDNA|].
  unfold list_at at 1 3. rewrite !Hst2 by lia.
  split; [exact (list_at_first (store s) _ _ _ eq_refl)|].
  split; [exact (list_at_second (store s) _ _ _ eq_refl)|].
  split; [reflexivity|]. lia.
Qed.

(** X13. In a running program, pressing [D] and entering an empty line
    never raises: [dna_input_gui] returns the current text, which reads
    back; the frame goes on, the text is as before, and [birth] and
    [survive] name two new lists with the elements of the old ones, with
    the same mutation rate. *)
Theorem reload_same_rule (input : string) (g : Rng) (ks : list Keys) (k : Keys) :
  raised (run math_sin ks (start input g)) = None ->
  KEY_D k = true -> console k = ""%string ->
  let p := run math_sin ks (start input g) in
  let p' := frame math_sin k p in
  raised p' = None /\
  DNA (globals p') = DNA (globals p) /\
  list_at (store (globals p')) (birth (locals p')) =
    list_at (store (globals p)) (birth (locals p)) /\
  list_at (store (globals p')) (survive (locals p')) =
    list_at (store (globals p)) (survive (locals p)) /\
  mutation (locals p') = mutation (locals p) /\
  (length (store (globals p)) <= birth (locals p'))%nat /\
  (length (store (globals p)) <= survive (locals p'))%nat.
Proof.
  intros Hr HD Hc.
  apply frame_reload; [exact Hr| |exact HD|exact Hc].
  apply run_rule_loaded; [exact Hr|].
  apply start_rule_loaded.
  assert (H : forall p, raised (run math_sin ks p) = None -> raised p = None).
  { clear. induction ks as [|k ks IH] using rev_ind; [done|].
    intros p. rewrite run_snoc. intros H. by apply IH, (frame_running k). }
  by apply H.
Qed.

End RuleText.

(** One tick at mutation rate 1, so that both lists are flipped. *)
Lemma rule_text_in_force_witness :
  rule_loaded (run taylor_sin [no_keys] (start "B36/S23|M1" steady)) /\
  dna_fields "B36/S23|M1" = Some ([3; 6], [2; 3], 1%float).
Proof.
  split.
  - apply (rule_text_in_force taylor_sin "B36/S23|M1" steady [no_keys]).
    vm_compute. reflexivity.
  - vm_compute. reflexivity.
Defined.

(** The program started with an empty line, then [D] and an empty line. *)
Lemma reload_same_rule_witness :
  let p := run taylor_sin [] (start "" steady) in
  let p' := frame taylor_sin (mkKeys false false true "") p in
  raised p' = None /\
  DNA (globals p') = DNA (globals p) /\
  list_at (store (globals p')) (birth (locals p')) =
    list_at (store (globals p)) (birth (locals p)) /\
  list_at (store (globals p')) (survive (locals p')) =
    list_at (store (globals p)) (survive (locals p)) /\
  mutation (locals p') = mutation (locals p) /\
  (length (store (globals p)) <= birth (locals p'))%nat /\
  (length (store (globals p)) <= survive (locals p'))%nat.
Proof.
  apply (reload_same_rule taylor_sin "" steady [] (mkKeys false false true ""));
    [vm_compute; reflexivity|reflexivity|reflexivity].
Defined.

(** ** Program start *)

Lemma edit_dna_accepted input (l : Locals) s bs ss m :
  dna_fields (dna_input_gui input s) = Some (bs, ss, m) ->
  edit_dna input l s =
    mkProgram (mkLocals (length (store s)) (S (length (store s))) m (paused l))
      (with_store ((store s ++ [PyList bs]) ++ [PyList ss])
         (with_DNA (dna_input_gui input s) s)) None.
Proof.
  intros Hf. unfold edit_dna. cbv zeta.
  change (DNA (with_DNA (dna_input_gui input s) s)) with (dna_input_gui input s).
  by rewrite (parse_dna_returns _ (with_DNA (dna_input_gui input s) s) bs ss m Hf).
Qed.

(** X14. When the first line entered (or, for an empty line, the default
    rule "B3/S23|M0.01") reads as a rule, the program enters its loop
    unpaused, with the two lists as the only objects, the phase at 0.0 and
    5000 draws consumed: the first 2500 fill the grid row by row (alive when
    the draw is below 0.2), the next 2500 are the nutrient field; the
    history is 0 everywhere. *)
Theorem start_accepted (input : string) (g : Rng) (bs ss : list Z) (m : float) :
  dna_fields (dna_input_gui input (initial g)) = Some (bs, ss, m) ->
  let p := start input g in
  raised p = None /\ locals p = mkLocals 0 1 m false /\
  DNA (globals p) = dna_input_gui input (initial g) /\
  store (globals p) = [PyList bs; PyList ss] /\
  rng (globals p) = skip 2500 (skip 2500 g) /\
  wave_phase (globals p) = 0%float /\
  forall x y, in_grid x y ->
    get2 0 (grid (globals p)) y x =
      (if PrimFloat.ltb (cell_draw g x y) 0.2 then 1 else 0) /\
    get2 0 (history_map (globals p)) y x = 0 /\
    get2 0%float (nutrient_map (globals p)) y x = cell_draw (skip 2500 g) x y.
Proof.
  intros Hf. cbv zeta. unfold start. cbv zeta.
  rewrite (edit_dna_accepted _ _ _ bs ss m Hf).
  cbn [raised locals globals birth survive mutation paused].
  change (length (store (initial g))) with 0%nat.
  set (s0 := with_store _ _).
  destruct (randomize_grid_spec s0) as ((HD1 & HN1 & HW1 & Hst1 & _) & _).
  destruct (randomize_grid_loop s0 (shaped_zeros 0) (shaped_zeros 0))
    as (Ht1 & Hc1 & Hcells1).
  pose proof (rng_skip g (rng (randomize_grid s0)) 2500 Ht1 Hc1) as Hr1.
  set (s1 := randomize_grid s0) in *.
  assert (Hn1 : shaped (nutrient_map s1)) by (rewrite HN1; apply shaped_zeros).
  destruct (generate_nutrient_map_spec s1) as ((HD2 & HG2 & HH2 & HW2 & Hst2 & _) & _).
  destruct (generate_nutrient_map_loop s1 Hn1) as (Ht2 & Hc2 & Hcells2).
  rewrite Hr1 in Ht2, Hc2, Hcells2.
  pose proof (rng_skip (skip 2500 g) (rng (generate_nutrient_map s1)) 2500 Ht2 Hc2) as Hr2.
  set (s2 := generate_nutrient_map s1) in *.
  split; [reflexivity|]. split; [reflexivity|].
  split; [rewrite HD2, HD1; reflexivity|].
  split; [rewrite Hst2, Hst1; reflexivity|].
  split; [exact Hr2|].
  split; [rewrite HW2, HW1; reflexivity|].
  intros x y Hin. destruct (Hcells1 x y Hin) as [Hc Hz]. rewrite HG2, HH2.
  split; [exact Hc|]. split; [exact Hz|]. by apply Hcells2.
Qed.

(** An empty first line: the default rule. *)
Lemma start_accepted_witness :
  let p := start "" steady in
  raised p = None /\ locals p = mkLocals 0 1 0.01 false /\
  DNA (globals p) = "B3/S23|M0.01"%string /\
  store (globals p) = [PyList [3]; PyList [2; 3]] /\
  cursor (rng (globals p)) = (2500 + 2500)%nat /\
  get2 0 (grid (globals p)) 7 3 = 0 /\
  get2 0%float (nutrient_map (globals p)) 7 3 = 0.5%float.
Proof.
  cbv zeta.
  destruct (start_accepted "" steady [3] [2; 3] 0.01)
    as (Hr & Hl & HD & Hst & Hrng & _ & Hcells).
  - vm_compute. reflexivity.
  - destruct (Hcells 3 7) as (Hg & _ & Hn); [unfold in_grid, GRID_SIZE; lia|].
    split; [exact Hr|]. split; [exact Hl|]. split; [exact HD|]. split; [exact Hst|].
    split; [rewrite Hrng; reflexivity|]. split; [rewrite Hg|rewrite Hn]; reflexivity.
Defined.

(** ** The trail of a dead cell *)

Section Trail.

Variable math_sin : float -> float.

(** X15. The trail fades one unit per tick: a cell that is dead after each
    of [n] consecutive ticks has its history lowered by [n], down to 0 and
    no further.  So the trail of a cell is gone after at most 255 ticks. *)
Theorem trail_fades (ks : list Keys) (p : Program) (x y : Z) :
  Forall quiet ks -> raised p = None -> paused (locals p) = false ->
  state_ok (globals p) -> in_grid x y ->
  (forall i : nat, (1 <= i <= length ks)%nat ->
     get2 0 (grid (globals (run math_sin (take i ks) p))) y x = 0) ->
  get2 0 (history_map (globals (run math_sin ks p))) y x =
    Z.max (get2 0 (history_map (globals p)) y x - Z.of_nat (length ks)) 0.
Proof.
  intros Hq Hrun Hp Hok Hin.
  induction ks as [|k ks IH] using rev_ind; intros Hdead.
  - cbn. destruct Hok as (_ & _ & Hb). specialize (Hb x y Hin). lia.
  - apply Forall_app in Hq as [Hks Hk]. apply Forall_inv in Hk.
    assert (IH' := IH Hks). clear IH.
    assert (Hprev : forall i : nat, (1 <= i <= length ks)%nat ->
              get2 0 (grid (globals (run math_sin (take i ks) p))) y x = 0).
    { intros i Hi. specialize (Hdead i). rewrite take_app_le in Hdead by lia.
      apply Hdead. rewrite length_app. cbn. lia. }
    specialize (IH' Hprev).
    destruct (run_quiet_running math_sin ks p Hks Hrun Hp) as [Hr' Hl'].
    pose proof (run_state_ok math_sin ks p Hok) as (Hwf & _ & Hb).
    specialize (Hb x y Hin).
    specialize (Hdead (length (ks ++ [k]))).
    rewrite firstn_all in Hdead. rewrite length_app in *. cbn [length] in *.
    rewrite run_snoc in *.
    rewrite (frame_history math_sin k (run math_sin ks p) x y Hk Hr')
      by (congruence || done).
    rewrite next_history_dead;
      [|lia|intros Hc; rewrite Hdead in Hc by lia; discriminate].
    rewrite IH'. lia.
Qed.

End Trail.

(** A cell with history 5 on an empty grid, two ticks later. *)
Lemma trail_fades_witness :
  let p := mkProgram (life_locals 0)
             (with_history_map (set2 (zeros 0) 0 0 5) (life_state (zeros 0))) None in
  get2 0 (history_map (globals (run taylor_sin [no_keys; no_keys] p))) 0 0 = 3.
Proof.
  cbv zeta.
  rewrite (trail_fades taylor_sin [no_keys; no_keys]
             (mkProgram (life_locals 0)
                (with_history_map (set2 (zeros 0) 0 0 5) (life_state (zeros 0))) None) 0 0).
  - vm_compute. reflexivity.
  - repeat constructor.
  - reflexivity.
  - reflexivity.
  - split; [split; [apply shaped_zeros|split; [apply shaped_zeros|]]|split].
    + apply shaped_set2, shaped_zeros.
    + intros x y Hin. left. exact (get2_zeros 0 0 x y Hin).
    + intros x y Hin.
      change (0 <= get2 0 (set2 (zeros 0) 0 0 5) y x <= 255).
      apply (set2_all (fun h => 0 <= h <= 255) 0 (zeros 0) 0 0 5 (shaped_zeros 0)).
      * unfold in_grid, GRID_SIZE. lia.
      * cbv beta. lia.
      * intros x' y' Hin'. rewrite (get2_zeros 0 0 x' y' Hin'). lia.
      * exact Hin.
  - unfold in_grid, GRID_SIZE. lia.
  - intros i Hi. cbn [length] in Hi.
    assert (Ei : i = 1%nat \/ i = 2%nat) by lia.
    destruct Ei as [-> | ->]; vm_compute; reflexivity.
Defined.

(** ** The cells of every reachable state *)

Lemma zeros_in_unit : nutrients_in_unit (zeros 0%float).
Proof. intros x y Hin. rewrite (get2_zeros 0%float 0%float x y Hin). by split. Qed.

Lemma generate_in_unit s :
  shaped (nutrient_map s) -> rng_ok (rng s) ->
  nutrients_in_unit (nutrient_map (generate_nutrient_map s)).
Proof.
  intros Hn Hok x y Hin.
  destruct (generate_nutrient_map_loop s Hn) as (_ & _ & Hcells).
  rewrite (Hcells x y Hin). unfold cell_draw.
  destruct (Hok (cursor (rng s) + Z.to_nat (GRID_SIZE * y + x))%nat) as [H0 H1].
  split; [exact H0|by apply ltb_leb].
Qed.

Lemma edit_dna_tape input l s :
  tape (rng (globals (edit_dna input l s))) = tape (rng s).
Proof.
  unfold edit_dna.
  pose proof (parse_dna_extends (DNA (with_DNA (dna_input_gui input s) s))
                (with_DNA (dna_input_gui input s) s)) as (_ & _ & _ & _ & _ & Ht & _).
  destruct (parse_dna _ _) as [[[[b sv] m]|e] s2]; cbn in *; exact Ht.
Qed.

Lemma reset_in_unit s :
  shaped (nutrient_map s) -> rng_ok (rng s) ->
  nutrients_in_unit (nutrient_map (generate_nutrient_map (randomize_grid s))) /\
  tape (rng (generate_nutrient_map (randomize_grid s))) = tape (rng s).
Proof.
  intros Hn Hok.
  destruct (randomize_grid_spec s) as ((_ & HN & _ & _ & Ht) & _).
  destruct (generate_nutrient_map_spec (randomize_grid s)) as ((_ & _ & _ & _ & _ & Ht') & _).
  split; [|congruence].
  apply generate_in_unit; [by rewrite HN|].
  intros i. rewrite Ht. apply Hok.
Qed.

Lemma start_in_unit input g :
  rng_ok g ->
  nutrients_in_unit (nutrient_map (globals (start input g))) /\
  tape (rng (globals (start input g))) = tape g.
Proof.
  intros Hok. unfold start. cbv zeta.
  set (l0 := mkLocals 0 0 0%float false).
  destruct (edit_dna_arrays input l0 (initial g)) as (_ & HN & _).
  pose proof (edit_dna_tape input l0 (initial g)) as Ht.
  change (tape (rng (initial g))) with (tape g) in Ht.
  change (nutrient_map (initial g)) with (zeros 0%float) in HN.
  set (p := edit_dna input l0 (initial g)) in *. clearbody p.
  destruct (raised p).
  - split; [rewrite HN; apply zeros_in_unit|exact Ht].
  - cbn [globals].
    destruct (reset_in_unit (globals p)) as [Hu Ht'].
    + rewrite HN. apply shaped_zeros.
    + intros i. rewrite Ht. apply Hok.
    + split; [exact Hu|congruence].
Qed.

Section Reachable.

Variable math_sin : float -> float.

Lemma animate_in_unit s :
  shaped (nutrient_map s) ->
  nutrients_in_unit (nutrient_map (animate_nutrients math_sin s)).
Proof.
  intros Hn x y Hin.
  destruct (animate_nutrients_cells math_sin s) as (_ & _ & Hcells).
  destruct (Hcells Hn) as [_ Hc]. rewrite (Hc x y Hin).
  unfold animated. apply clamp_in_unit.
Qed.

Lemma frame_in_unit k p :
  shaped (nutrient_map (globals p)) -> rng_ok (rng (globals p)) ->
  nutrients_in_unit (nutrient_map (globals p)) ->
  nutrients_in_unit (nutrient_map (globals (frame math_sin k p))) /\
  tape (rng (globals (frame math_sin k p))) = tape (rng (globals p)).
Proof.
  intros Hn Hok Hu. unfold frame. destruct (raised p); [by split|].
  set (l := if KEY_SPACE k then _ else _). clearbody l.
  set (s := if KEY_R k then _ else globals p).
  assert (Hs : shaped (nutrient_map s) /\ nutrients_in_unit (nutrient_map s) /\
               tape (rng s) = tape (rng (globals p))).
  { unfold s. destruct (KEY_R k); [|by split].
    destruct (reset_in_unit (globals p) Hn Hok) as [Hu' Ht'].
    split; [|by split].
    destruct (randomize_grid_spec (globals p)) as ((_ & HN & _) & _).
    destruct (generate_nutrient_map_spec (randomize_grid (globals p))) as (_ & Hn').
    apply Hn'. by rewrite HN. }
  clearbody s. destruct Hs as (Hsn & Hsu & Hst).
  set (q := if KEY_D k then _ else _).
  assert (Hq : nutrient_map (globals q) = nutrient_map s /\
               tape (rng (globals q)) = tape (rng s)).
  { unfold q. destruct (KEY_D k); [|by split].
    destruct (edit_dna_arrays (console k) l s) as (_ & HN & _).
    split; [exact HN|apply edit_dna_tape]. }
  clearbody q. destruct Hq as [HqN Hqt].
  destruct (raised q).
  - split; [by rewrite HqN|congruence].
  - cbn [globals].
    assert (Hqn : shaped (nutrient_map (globals q))) by (by rewrite HqN).
    pose proof (animate_in_unit (globals q) Hqn) as Ha.
    destruct (animate_nutrients_cells math_sin (globals q)) as ((_ & _ & _ & _ & Hr) & _).
    set (fed := animate_nutrients math_sin (globals q)) in *. clearbody fed.
    destruct (paused (locals q)).
    + split; [exact Ha|congruence].
    + destruct (update_grid_untouched (birth (locals q)) (survive (locals q))
                  (mutation (locals q)) fed) as (_ & HN' & _ & _ & Hr').
      pose proof (mutate_rule_extends (birth (locals q)) (survive (locals q))
                    (mutation (locals q)) fed) as (_ & _ & _ & _ & _ & Ht' & _).
      rewrite HN', Hr'. split; [exact Ha|congruence].
Qed.

Lemma run_in_unit ks p :
  state_ok (globals p) -> rng_ok (rng (globals p)) ->
  nutrients_in_unit (nutrient_map (globals p)) ->
  nutrients_in_unit (nutrient_map (globals (run math_sin ks p))) /\
  tape (rng (globals (run math_sin ks p))) = tape (rng (globals p)).
Proof.
  intros Hstate Hok Hu.
  induction ks as [|k ks IH] using rev_ind; [by split|].
  destruct IH as [Hu' Ht']. rewrite run_snoc.
  destruct (run_state_ok math_sin ks p Hstate) as ((_ & Hn & _) & _).
  destruct (frame_in_unit k (run math_sin ks p) Hn) as [Hu2 Ht2]; [|exact Hu'|].
  - intros i. rewrite Ht'. apply Hok.
  - split; [exact Hu2|congruence].
Qed.

(** X16. In every state the program reaches from its start, whatever the
    first line, the keys and the lines typed later, every cell of the grid
    holds 0 or 1 and, with [random()] within its range, every nutrient cell
    is a number between 0.0 and 1.0. *)
Theorem reachable_cells (input : string) (g : Rng) (ks : list Keys) (x y : Z) :
  in_grid x y ->
  let s := globals (run math_sin ks (start input g)) in
  (get2 0 (grid s) y x = 0 \/ get2 0 (grid s) y x = 1) /\
  (rng_ok g -> in_unit (get2 0%float (nutrient_map s) y x)).
Proof.
  intros Hin. cbv zeta.
  pose proof (start_state_ok input g) as Hstate.
  destruct (run_state_ok math_sin ks (start input g) Hstate) as (_ & Hbin & _).
  split; [by apply Hbin|]. intros Hok.
  destruct (start_in_unit input g Hok) as [Hu Ht].
  destruct (run_in_unit ks (start input g) Hstate) as [Hu' _]; [|exact Hu|by apply Hu'].
  intros i. rewrite Ht. apply Hok.
Qed.

End Reachable.

Lemma reachable_cells_witness :
  let s := globals (run taylor_sin [mkKeys true true false ""; no_keys]
                      (start "B36/S23|M0.5" steady)) in
  (get2 0 (grid s) 49 0 = 0 \/ get2 0 (grid s) 49 0 = 1) /\
  in_unit (get2 0%float (nutrient_map s) 49 0).
Proof.
  cbv zeta.
  destruct (reachable_cells taylor_sin "B36/S23|M0.5" steady
              [mkKeys true true false ""; no_keys] 0 49) as [Hg Hn].
  - unfold in_grid, GRID_SIZE. lia.
  - split; [exact Hg|exact (Hn rng_ok_steady)].
Defined.

(** ** What [count_neighbors] counts *)

(** X17. On a grid of 0s and 1s, [count_neighbors] returns the number of
    alive cells among the eight cells around [(x, y)], the grid taken as a
    torus: the cell itself is left out and coordinates wrap at the edges. *)
Theorem count_neighbors_counts (g : list (list Z)) (x y : Z) :
  binary g ->
  count_neighbors g x y =
    Z.of_nat (length (List.filter (fun c : Z * Z => alive g c.1 c.2) (moore x y))).
Proof. intros Hbin. exact (count_neighbors_live g x y Hbin). Qed.

(** The corner cell of a block that lies across the four corners. *)
Lemma count_neighbors_counts_witness :
  count_neighbors corner_block 0 0 =
    Z.of_nat (length (List.filter (fun c : Z * Z => alive corner_block c.1 c.2) (moore 0 0))) /\
  count_neighbors corner_block 0 0 = 3.
Proof.
  split.
  - apply (count_neighbors_counts corner_block 0 0).
    apply binary_check. vm_compute. reflexivity.
  - vm_compute. reflexivity.
Defined.

(** ** The nutrient thresholds *)

(** X18. Whatever the rule and whatever [mutate_rule] did to it, a tick
    keeps an alive cell alive when its nutrient value is above 0.9, and
    leaves a dead cell dead when its nutrient value is not above 0.1. *)
Theorem nutrient_thresholds (birth survive : nat) (rate : float) (s : State) (x y : Z) :
  shaped (grid s) -> shaped (history_map s) -> in_grid x y ->
  let s' := update_grid birth survive rate s in
  (get2 0 (grid s) y x = 1 ->
   PrimFloat.ltb 0.9 (get2 0%float (nutrient_map s) y x) = true ->
   get2 0 (grid s') y x = 1) /\
  (get2 0 (grid s) y x <> 1 ->
   PrimFloat.ltb 0.1 (get2 0%float (nutrient_map s) y x) = false ->
   get2 0 (grid s') y x = 0).
Proof.
  intros Hg Hh Hin. cbv zeta.
  destruct (update_grid_cells birth survive rate s Hg Hh) as (_ & _ & _ & Hcells).
  destruct (Hcells x y Hin) as [-> _]. unfold next_cell. split.
  - intros -> ->. cbn [Z.eqb Pos.eqb]. by rewrite orb_true_r.
  - intros Hc ->. apply Z.eqb_neq in Hc. rewrite Hc. by rewrite andb_false_r.
Qed.

(** A lone cell, which the rule B3/S23 lets die, on nutrient 0.95; and a
    cell with three alive neighbours, which the rule lets be born, on
    nutrient 0.05. *)
Lemma nutrient_thresholds_witness :
  get2 0 (grid (update_grid 0 1 0
                  (globals (life_program "B3/S23|M0" 0 (paint [(5, 5)]) 0.95)))) 5 5 = 1 /\
  get2 0 (grid (update_grid 0 1 0
                  (globals (life_program "B3/S23|M0" 0 blinker_flat 0.05)))) 9 11 = 0.
Proof.
  split.
  - destruct (nutrient_thresholds 0 1 0
                (globals (life_program "B3/S23|M0" 0 (paint [(5, 5)]) 0.95)) 5 5)
      as [Halive _].
    + apply shaped_paint.
    + apply shaped_zeros.
    + unfold in_grid, GRID_SIZE. lia.
    + apply Halive; vm_compute; reflexivity.
  - destruct (nutrient_thresholds 0 1 0
                (globals (life_program "B3/S23|M0" 0 blinker_flat 0.05)) 11 9)
      as [_ Hdead].
    + apply shaped_paint.
    + apply shaped_zeros.
    + unfold in_grid, GRID_SIZE. lia.
    + apply Hdead; [vm_compute; discriminate|vm_compute; reflexivity].
Defined.
